(** * Example-Scripting: the Lua bridge and the model importer

    A shallow embedding of
      - src/engine/entity/ga_lua_component.cpp
      - src/engine/graphics/ga_mesh.cpp
      - src/engine/graphics/ga_model_component.cpp
    the properties of these three files that the specification states,
    and further properties of their functions read off the code.

    Conventions.
      - The process state (objects on the heap, live interpreter states, the
        OpenGL context, the two output streams) is one record [world]; every
        C++ function that touches it is a computation in the monad [M].
      - A computation ends in [Done] (it returned), in [AssertFailed] (an
        [assert] stopped the process) or in [Fault] (undefined behaviour: a
        null or wild pointer was dereferenced, an array was read out of
        bounds, the Lua API was used against its contract).
      - Lua, Assimp and OpenGL are libraries, not code of the engine.  What
        they compute on a given file or script is an oracle
        ([LuaRuntime], [Assimp]); how their API moves values around is
        modelled from their manuals.
      - Declarations that live in headers outside the three files are
        fields of [EngineDecls].
      - Container sizes and counts are unbounded integers. *)

From Stdlib Require Import ZArith List String Ascii.
From Stdlib Require Import Floats.SpecFloat.
From stdpp Require Import base option list fin vector gmap strings pretty.

Set Warnings "-register-all".
Open Scope string_scope.
Open Scope list_scope.
Open Scope Z_scope.

(* ===================================================================== *)
(** * C scalar types *)
(* ===================================================================== *)

(** [double] (Lua's [lua_Number]) and [float] are IEEE 754 binary64 and
    binary32; the values of both are [spec_float]s, the operations round to
    the format. *)
Module C.

Definition double := spec_float.
Definition float := spec_float.

Definition float_prec : Z := 24.
Definition float_emax : Z := 128.

(** The conversion [(float)d]. *)
Definition float_of_double (d : double) : float :=
  match d with
  | S754_finite s m e => binary_round float_prec float_emax s m e
  | _ => d
  end.

Definition fadd (a b : float) : float := SFadd float_prec float_emax a b.
Definition fmul (a b : float) : float := SFmul float_prec float_emax a b.
Definition fzero : float := S754_zero false.
Definition fone : float := SFone float_prec float_emax.
Definition dzero : double := S754_zero false.

(** A pointer is an address; [nullptr] is address 0. *)
Abbreviation ptr := N (only parsing).
Definition nullptr : ptr := 0%N.

End C.
Export C.

(* ===================================================================== *)
(** * Engine data that crosses the three files *)
(* ===================================================================== *)

Record ga_vec3f := { x : float; y : float; z : float }.
Record ga_vec2f := { uv_x : float; uv_y : float }.

(** [ga_mat4f]: [float data[4][4]], four rows of four floats. *)
Definition ga_mat4f := vec (vec float 4) 4.

(** [m.data[r][c]] and [m.data[r][c] = a]. *)
Definition mat_get (m : ga_mat4f) (r c : fin 4) : float := (m !!! r) !!! c.

Definition mat_set (m : ga_mat4f) (r c : fin 4) (a : float) : ga_mat4f :=
  vinsert r (vinsert c a (m !!! r)) m.

(** The values an index of a [for (int i = 0; i < 4; i++)] loop takes. *)
Definition upto4 : list (fin 4) := [0%fin; 1%fin; 2%fin; 3%fin].

Definition mat_identity : ga_mat4f :=
  [# [# fone; fzero; fzero; fzero];
     [# fzero; fone; fzero; fzero];
     [# fzero; fzero; fone; fzero];
     [# fzero; fzero; fzero; fone] ].

(** [ga_static_drawcall], as [ga_mesh::assemble_drawcall] fills it; the
    transform is the field the draw pass of the specification adds. *)
Record ga_static_drawcall := {
  dc_vao : Z;
  dc_index_count : Z;
  dc_draw_mode : Z;
  dc_material : ptr;
  dc_transform : ga_mat4f
}.

(** Modelled from the spec: [ga_frame_params] (framework/ga_frame_params.h
    is not among the sources): "a Frame-Parameters type exposing
    {delta-time, input button-mask}" and "a Draw-Call sink the draw pass
    appends to". *)
Record ga_frame_params := {
  _delta_time : Z;
  _button_mask : Z;
  _static_drawcalls : list ga_static_drawcall
}.

(** Modelled from the spec: [ga_entity] (entity/ga_entity.h is not among
    the sources): "an Entity type exposing {world transform read,
    translate(vec3)}".  The position is the translation the transform
    carries, which in the engine's row-major matrices is row 3 (the importer
    transposes Assimp's matrices, whose translation is column 3). *)
Record ga_entity := { _transform : ga_mat4f }.

Definition get_transform (e : ga_entity) : ga_mat4f := _transform e.

Definition position (e : ga_entity) : ga_vec3f :=
  {| x := mat_get (_transform e) 3%fin 0%fin;
     y := mat_get (_transform e) 3%fin 1%fin;
     z := mat_get (_transform e) 3%fin 2%fin |}.

Definition vec3_add (a b : ga_vec3f) : ga_vec3f :=
  {| x := fadd (x a) (x b); y := fadd (y a) (y b); z := fadd (z a) (z b) |}.

(** Modelled from the spec: [ga_entity::translate]: "applies a translation
    to the entity's transform", so that the entity's position moves "by the
    given delta". *)
Definition translate (e : ga_entity) (d : ga_vec3f) : ga_entity :=
  let p := vec3_add (position e) d in
  {| _transform :=
       mat_set (mat_set (mat_set (_transform e) 3%fin 0%fin (x p))
                        3%fin 1%fin (y p))
               3%fin 2%fin (z p) |}.

(** [ga_lua_component]: its interpreter state, [nullptr] when it has none,
    and the entity it belongs to.
    Modelled from the spec: the [ga_component] base (entity/ga_component.h
    is not among the sources): "component_get_entity(component_handle):
    returns the owning entity reference". *)
Record ga_lua_component := { _entity : ptr; _lua : ptr }.

Definition get_entity (c : ga_lua_component) : ptr := _entity c.

(* ===================================================================== *)
(** * Lua values and interpreter states *)
(* ===================================================================== *)

(** The four C functions the bridge registers. *)
Inductive lua_CFunction :=
| CF_frame_params_get_input_left
| CF_frame_params_get_input_right
| CF_component_get_entity
| CF_entity_translate.

Inductive lua_value :=
| LNil
| LBoolean (b : bool)
| LNumber (n : double)
| LString (s : string)
| LLightUserdata (p : ptr)
| LUserdata (block : ptr)
| LTable (id : N)
| LThread (id : N)
| LFunction (f : N)               (* a function the interpreter runs *)
| LCFunction (f : lua_CFunction). (* a function of the bridge *)

(** One [lua_State] as a C function sees it: the stack of the running call
    (index 1 is the head of the list) and the table of globals. *)
Record lua_State := {
  stack : list lua_value;
  globals : gmap string lua_value
}.

Definition LUA_OK : Z := 0.

Definition lua_typename (v : lua_value) : string :=
  match v with
  | LNil => "nil"
  | LBoolean _ => "boolean"
  | LNumber _ => "number"
  | LString _ => "string"
  | LLightUserdata _ | LUserdata _ => "userdata"
  | LTable _ => "table"
  | LThread _ => "thread"
  | LFunction _ | LCFunction _ => "function"
  end.

(* ===================================================================== *)
(** * Meshes, materials, the GL context *)
(* ===================================================================== *)

Record ga_vertex := {
  _position : ga_vec3f;
  _normal : ga_vec3f;
  _color : ga_vec3f;
  _uv : ga_vec2f
}.

(** The two material classes [ga_mesh::create_from_aiMesh] instantiates
    (graphics/ga_material.h is not among the sources); [init] records that
    [init()] was called. *)
Inductive ga_material :=
| ga_lit_texture_material (texture_path : string) (init : bool)
| ga_lit_material (diffuse : ga_vec3f) (init : bool).

Record ga_mesh := {
  _vertex_array : list ga_vertex;
  _index_array : list Z;
  _name : string;
  _material : ptr;
  _vertex_format : Z;
  _vao : Z;
  _vbo : Z * Z;
  _index_count : Z
}.

Definition GL_NO_ERROR : Z := 0.
Definition GL_TRIANGLES : Z := 4.
Definition GL_ARRAY_BUFFER : Z := 34962.
Definition GL_ELEMENT_ARRAY_BUFFER : Z := 34963.
Definition sizeof_GLushort : Z := 2.

(** What the GL calls of [ga_mesh::make_buffers] read and write.  Names are
    handed out in sequence; an upload records its size in bytes; the calls
    themselves are taken to succeed, so [gl_error] is the flag the context
    already carries. *)
Record gl_context := {
  gl_last_name : Z;
  gl_vertex_array_binding : Z;
  gl_array_buffer_binding : Z;
  gl_element_array_buffer_binding : Z;
  gl_buffer_size : gmap Z Z;
  gl_attrib_pointers : list (Z * Z * Z * Z * Z);  (* vao, index, size, stride, offset *)
  gl_enabled_attribs : list (Z * Z);              (* vao, index *)
  gl_error : Z
}.

(* ===================================================================== *)
(** * The process state and its monad *)
(* ===================================================================== *)

Inductive object :=
| OEntity (e : ga_entity)
| OFrameParams (p : ga_frame_params)
| OLuaComponent (c : ga_lua_component)
| OMesh (m : ga_mesh)
| OMaterial (m : ga_material).

Record world := {
  heap : gmap N object;            (* engine objects, by address *)
  lua_states : gmap N lua_State;   (* interpreter states that are open *)
  next_addr : N;                   (* allocation counter *)
  gl : gl_context;
  cerr : list string;              (* std::cerr, one entry per insertion run *)
  cout : list string;              (* std::cout *)
  pcalls : list (lua_value * list lua_value)
      (* ghost: callee and arguments of every lua_pcall the bridge made *)
}.

Inductive result (A : Type) :=
| Done (a : A) (w : world)
| AssertFailed (w : world)
| Fault.
Arguments Done {A} a w.
Arguments AssertFailed {A} w.
Arguments Fault {A}.

Definition M (A : Type) : Type := world → result A.

#[global] Instance M_ret : MRet M := λ A a w, Done a w.
#[global] Instance M_bind : MBind M := λ A B f m w,
  match m w with
  | Done a w' => f a w'
  | AssertFailed w' => AssertFailed w'
  | Fault => Fault
  end.

Definition fault {A} : M A := λ _, Fault.
Definition assert_ (b : bool) : M unit :=
  λ w, if b then Done () w else AssertFailed w.
Definition get_world : M world := λ w, Done w w.
Definition put_world (w : world) : M unit := λ _, Done () w.

(** The world with one field changed. *)
Definition upd_heap (f : gmap N object → gmap N object) (w : world) : world :=
  {| heap := f (heap w); lua_states := lua_states w;
     next_addr := next_addr w; gl := gl w; cerr := cerr w;
     cout := cout w; pcalls := pcalls w |}.
Definition upd_lua_states (f : gmap N lua_State → gmap N lua_State) (w : world)
  : world :=
  {| heap := heap w; lua_states := f (lua_states w);
     next_addr := next_addr w; gl := gl w; cerr := cerr w;
     cout := cout w; pcalls := pcalls w |}.
Definition upd_next_addr (f : N → N) (w : world) : world :=
  {| heap := heap w; lua_states := lua_states w;
     next_addr := f (next_addr w); gl := gl w; cerr := cerr w;
     cout := cout w; pcalls := pcalls w |}.
Definition upd_gl (f : gl_context → gl_context) (w : world) : world :=
  {| heap := heap w; lua_states := lua_states w;
     next_addr := next_addr w; gl := f (gl w); cerr := cerr w;
     cout := cout w; pcalls := pcalls w |}.
Definition upd_cerr (f : list string → list string) (w : world) : world :=
  {| heap := heap w; lua_states := lua_states w;
     next_addr := next_addr w; gl := gl w; cerr := f (cerr w);
     cout := cout w; pcalls := pcalls w |}.
Definition upd_cout (f : list string → list string) (w : world) : world :=
  {| heap := heap w; lua_states := lua_states w;
     next_addr := next_addr w; gl := gl w; cerr := cerr w;
     cout := f (cout w); pcalls := pcalls w |}.
Definition upd_pcalls
    (f : list (lua_value * list lua_value) → list (lua_value * list lua_value))
    (w : world) : world :=
  {| heap := heap w; lua_states := lua_states w;
     next_addr := next_addr w; gl := gl w; cerr := cerr w;
     cout := cout w; pcalls := f (pcalls w) |}.

Definition set_heap (f : gmap N object → gmap N object) : M unit :=
  λ w, Done () (upd_heap f w).
Definition set_lua_states (f : gmap N lua_State → gmap N lua_State) : M unit :=
  λ w, Done () (upd_lua_states f w).
Definition set_gl (f : gl_context → gl_context) : M unit :=
  λ w, Done () (upd_gl f w).
Definition log_pcall (f : lua_value) (args : list lua_value) : M unit :=
  λ w, Done () (upd_pcalls (λ l, l ++ [(f, args)]) w).

(** [std::cerr << ...] and [std::cout << ...]: one statement, one entry. *)
Definition cerr_put (s : string) : M unit :=
  λ w, Done () (upd_cerr (λ l, l ++ [s]) w).
Definition cout_put (s : string) : M unit :=
  λ w, Done () (upd_cout (λ l, l ++ [s]) w).

(** A fresh, non-null address. *)
Definition alloc : M ptr :=
  λ w, Done (N.succ (next_addr w)) (upd_next_addr N.succ w).

(** [new T(...)]. *)
Definition new (o : object) : M ptr :=
  a ← alloc; set_heap (<[a := o]>);; mret a.

(** Reading through a pointer: a fault unless an object lives there. *)
Definition deref (p : ptr) : M object := λ w,
  match heap w !! p with
  | Some o => if (p =? nullptr)%N then Fault else Done o w
  | None => Fault
  end.

Definition deref_entity (p : ptr) : M ga_entity :=
  o ← deref p; match o with OEntity e => mret e | _ => fault end.
Definition deref_frame_params (p : ptr) : M ga_frame_params :=
  o ← deref p; match o with OFrameParams f => mret f | _ => fault end.
Definition deref_lua_component (p : ptr) : M ga_lua_component :=
  o ← deref p; match o with OLuaComponent c => mret c | _ => fault end.
Definition deref_mesh (p : ptr) : M ga_mesh :=
  o ← deref p; match o with OMesh m => mret m | _ => fault end.
Definition store (p : ptr) (o : object) : M unit := set_heap (<[p := o]>).

(** Loops over a container, first element first. *)
Section Loops.
Context {A B : Type}.

(** [for (a : l) body(a);] *)
Definition for_each (l : list A) (body : A → M unit) : M unit :=
  (fix go (l : list A) : M unit :=
     match l with
     | [] => mret ()
     | a :: l' => body a;; go l'
     end) l.

(** [for (a : l) out.push_back(f(a));] *)
Definition map_M (f : A → M B) : list A → M (list B) :=
  fix go (l : list A) : M (list B) :=
    match l with
    | [] => mret []
    | a :: l' => b ← f a; bs ← go l'; mret (b :: bs)
    end.

(** [for (a : l) acc = step(acc, a);] *)
Definition fold_M (step : B → A → M B) : list A → B → M B :=
  fix go (l : list A) (acc : B) : M B :=
    match l with
    | [] => mret acc
    | a :: l' => acc' ← step acc a; go l' acc'
    end.

End Loops.

(** [a[i]] on a C array: out of bounds is a fault. *)
Definition array_read {A} (a : list A) (i : nat) : M A :=
  match a !! i with
  | Some e => mret e
  | None => fault
  end.

(** [a[i]] through a pointer that may be null. *)
Definition array_read_opt {A} (a : option (list A)) (i : nat) : M A :=
  match a with
  | Some l => array_read l i
  | None => fault
  end.

(* ===================================================================== *)
(** * What the headers and the libraries contribute *)
(* ===================================================================== *)

(** Declarations the three files use and do not contain. *)
Class EngineDecls := {
  g_root_path : string;                (* extern char g_root_path[256] *)
  k_button_j : Z;                      (* framework/ga_frame_params.h *)
  k_button_l : Z;
  k_vertex_attribute_uv : Z;           (* graphics/ga_mesh.h *)
  k_vertex_attribute_normal : Z;
  k_vertex_attribute_color : Z;
  k_vertex_attribute_weight : Z;
  index_of_uint : Z → Z;
      (* conversion of an [unsigned int] to the element type of
         [ga_mesh::_index_array] *)
  sizeof_ga_vertex : Z
}.

Inductive lua_error :=
| LUA_ERRRUN_ | LUA_ERRSYNTAX_ | LUA_ERRMEM_ | LUA_ERRERR_ | LUA_ERRFILE_.

Definition status_of (e : lua_error) : Z :=
  match e with
  | LUA_ERRRUN_ => 2
  | LUA_ERRSYNTAX_ => 3
  | LUA_ERRMEM_ => 4
  | LUA_ERRERR_ => 6
  | LUA_ERRFILE_ => 7
  end.

Inductive load_result :=
| Loaded (chunk : N)
| LoadFailed (e : lua_error) (msg : string).

Inductive outcome :=
| Returned (results : list lua_value)
| Raised (e : lua_error) (err : lua_value)
| Crashed.   (* the script drove a C function into undefined behaviour *)

(** What running one function of a script does: its outcome, the globals
    and the engine objects as it leaves them (a script reaches the engine
    through the registered C functions), and the lines it made the bridge
    write to [std::cerr]. *)
Record run_result := {
  rr_outcome : outcome;
  rr_globals : gmap string lua_value;
  rr_heap : gmap N object;
  rr_cerr : list string
}.

(** The interpreter and the files it reads. *)
Class LuaRuntime := {
  lua_stdlib : gmap string lua_value;       (* the globals of luaL_openlibs *)
  load_chunk : string → load_result;        (* reading and compiling a file *)
  run_function :
    N → list lua_value → gmap string lua_value → gmap N object → run_result;
  str2number : string → option double;      (* Lua's string-to-number coercion *)
  number2str : double → string
}.

Definition endl : string := String "010"%char EmptyString.

(* ===================================================================== *)
(** * The Lua C API *)
(* ===================================================================== *)

Section LuaAPI.
Context `{!LuaRuntime}.

Definition get_state (L : ptr) : M lua_State := λ w,
  match lua_states w !! L with
  | Some s => Done s w
  | None => Fault
  end.

Definition put_state (L : ptr) (s : lua_State) : M unit :=
  set_lua_states (<[L := s]>).

Definition set_stack (L : ptr) (st : list lua_value) : M unit :=
  s ← get_state L; put_state L {| stack := st; globals := globals s |}.

Definition push (L : ptr) (v : lua_value) : M unit :=
  s ← get_state L; set_stack L (stack s ++ [v]).

(** The value at an acceptable index: positive from the bottom, negative
    from the top. *)
Definition index2value (s : lua_State) (idx : Z) : option lua_value :=
  if 0 <? idx then stack s !! Z.to_nat (idx - 1)
  else if idx <? 0 then
    (if Z.of_nat (length (stack s)) + idx <? 0 then None
     else stack s !! Z.to_nat (Z.of_nat (length (stack s)) + idx))
  else None.

(** luaL_newstate, taken to succeed. *)
Definition luaL_newstate : M ptr :=
  L ← alloc; put_state L {| stack := []; globals := ∅ |};; mret L.

Definition luaL_openlibs (L : ptr) : M unit :=
  s ← get_state L;
  put_state L {| stack := stack s; globals := lua_stdlib ∪ globals s |}.

Definition luaL_loadfile (L : ptr) (filename : string) : M Z :=
  match load_chunk filename with
  | Loaded c => push L (LFunction c);; mret LUA_OK
  | LoadFailed e msg => push L (LString msg);; mret (status_of e)
  end.

Definition lua_close (L : ptr) : M unit :=
  get_state L;; set_lua_states (delete L).

Definition lua_gettop (L : ptr) : M Z :=
  s ← get_state L; mret (Z.of_nat (length (stack s))).

Definition lua_getglobal (L : ptr) (name : string) : M unit :=
  s ← get_state L; push L (default LNil (globals s !! name)).

Definition lua_isfunction (L : ptr) (idx : Z) : M Z :=
  s ← get_state L;
  mret (match index2value s idx with
        | Some (LFunction _) | Some (LCFunction _) => 1
        | _ => 0
        end).

Definition lua_pop (L : ptr) (n : nat) : M unit :=
  s ← get_state L;
  if (length (stack s) <? n)%nat then fault
  else set_stack L (take (length (stack s) - n) (stack s)).

Definition lua_register (L : ptr) (name : string) (f : lua_CFunction) : M unit :=
  s ← get_state L;
  put_state L {| stack := stack s; globals := <[name := LCFunction f]> (globals s) |}.

Definition lua_pushlightuserdata (L : ptr) (p : ptr) : M unit :=
  push L (LLightUserdata p).

Definition lua_pushboolean (L : ptr) (b : bool) : M unit :=
  push L (LBoolean b).

Definition lua_touserdata (L : ptr) (idx : Z) : M ptr :=
  s ← get_state L;
  mret (match index2value s idx with
        | Some (LLightUserdata p) | Some (LUserdata p) => p
        | _ => nullptr
        end).

Definition lua_tonumber (L : ptr) (idx : Z) : M double :=
  s ← get_state L;
  mret (match index2value s idx with
        | Some (LNumber n) => n
        | Some (LString str) => default dzero (str2number str)
        | _ => dzero
        end).

(** lua_tostring: the string, or [None] for the C null pointer. *)
Definition lua_tostring (L : ptr) (idx : Z) : M (option string) :=
  s ← get_state L;
  mret (match index2value s idx with
        | Some (LString str) => Some str
        | Some (LNumber n) => Some (number2str n)
        | _ => None
        end).

(** [std::cerr << s] for a [const char*] that may be null. *)
Definition cerr_put_cstr (prefix : string) (s : option string) : M unit :=
  match s with
  | Some str => cerr_put (prefix +:+ str)
  | None => fault
  end.

(** The results of a call, adjusted to the number the caller asked for. *)
Definition adjust (nresults : nat) (vs : list lua_value) : list lua_value :=
  take nresults (vs ++ replicate nresults LNil).

(** The code behind a C function value. *)
Variable cfunction_code : lua_CFunction → ptr → M Z.

(** Calling a value with arguments.  A function of the script is run by
    the interpreter; a C function gets a stack that holds the arguments and
    returns the number of results, which are taken from the top of its
    stack; anything else is not a function. *)
Definition call_value (L : ptr) (f : lua_value) (args : list lua_value) : M outcome :=
  match f with
  | LFunction c =>
      s ← get_state L;
      w ← get_world;
      let r := run_function c args (globals s) (heap w) in
      set_heap (λ _, rr_heap r);;
      for_each (rr_cerr r) cerr_put;;
      put_state L {| stack := stack s; globals := rr_globals r |};;
      mret (rr_outcome r)
  | LCFunction cf =>
      caller ← get_state L;
      set_stack L args;;
      n ← cfunction_code cf L;
      callee ← get_state L;
      set_stack L (stack caller);;
      if (n <? 0) || (Z.of_nat (length (stack callee)) <? n) then fault
      else mret (Returned (drop (length (stack callee) - Z.to_nat n) (stack callee)))
  | _ =>
      mret (Raised LUA_ERRRUN_
              (LString ("attempt to call a " +:+ lua_typename f +:+ " value")))
  end.

(** lua_pcall(L, nargs, nresults, 0): the callee and its arguments leave
    the stack; the results, or the error object, take their place. *)
Definition lua_pcall (L : ptr) (nargs nresults : nat) : M Z :=
  s ← get_state L;
  let n := length (stack s) in
  if (n <? nargs + 1)%nat then fault
  else
    let base := take (n - nargs - 1) (stack s) in
    match drop (n - nargs - 1) (stack s) with
    | f :: args =>
        set_stack L base;;
        log_pcall f args;;
        o ← call_value L f args;
        match o with
        | Returned vs =>
            s' ← get_state L;
            set_stack L (stack s' ++ adjust nresults vs);;
            mret LUA_OK
        | Raised e err => push L err;; mret (status_of e)
        | Crashed => fault
        end
    | [] => fault
    end.

End LuaAPI.

(* ===================================================================== *)
(** * src/engine/entity/ga_lua_component.cpp *)
(* ===================================================================== *)

Module ga_lua_component.
Section Impl.
Context `{!EngineDecls, !LuaRuntime}.

Definition lua_frame_params_get_input_left (state : ptr) : M Z :=
  arg_count ← lua_gettop state;
  (if arg_count =? 1 then
     p ← lua_touserdata state 1;
     params ← deref_frame_params p;
     lua_pushboolean state (negb (Z.land (_button_mask params) k_button_j =? 0))
   else
     cerr_put ("Function frame_params_get_input_left expected 1 argument but got "
               +:+ pretty arg_count +:+ "." +:+ endl));;
  mret 1.

Definition lua_frame_params_get_input_right (state : ptr) : M Z :=
  arg_count ← lua_gettop state;
  (if arg_count =? 1 then
     p ← lua_touserdata state 1;
     params ← deref_frame_params p;
     lua_pushboolean state (negb (Z.land (_button_mask params) k_button_l =? 0))
   else
     cerr_put ("Function frame_params_get_input_right expected 1 argument but got "
               +:+ pretty arg_count +:+ "." +:+ endl));;
  mret 1.

Definition lua_component_get_entity (state : ptr) : M Z :=
  arg_count ← lua_gettop state;
  (if arg_count =? 1 then
     p ← lua_touserdata state 1;
     component ← deref_lua_component p;
     lua_pushlightuserdata state (get_entity component)
   else
     cerr_put ("Function component_get_entity expected 1 argument but got "
               +:+ pretty arg_count +:+ "." +:+ endl));;
  mret 1.

Definition lua_entity_translate (state : ptr) : M Z :=
  arg_count ← lua_gettop state;
  (if arg_count =? 4 then
     p ← lua_touserdata state 1;
     vx ← lua_tonumber state 2;
     vy ← lua_tonumber state 3;
     vz ← lua_tonumber state 4;
     let vec := {| x := float_of_double vx;
                   y := float_of_double vy;
                   z := float_of_double vz |} in
     ent ← deref_entity p;
     store p (OEntity (translate ent vec))
   else
     cerr_put ("Function entity_translate expected 4 arguments but got "
               +:+ pretty arg_count +:+ "." +:+ endl));;
  mret 0.

(** What each registered C function value points to. *)
Definition code (f : lua_CFunction) : ptr → M Z :=
  match f with
  | CF_frame_params_get_input_left => lua_frame_params_get_input_left
  | CF_frame_params_get_input_right => lua_frame_params_get_input_right
  | CF_component_get_entity => lua_component_get_entity
  | CF_entity_translate => lua_entity_translate
  end.

(** The assignment [_lua = p] in the component at [this]. *)
Definition set__lua (this ent : ptr) (p : ptr) : M unit :=
  store this (OLuaComponent {| _entity := ent; _lua := p |}).

(** ga_lua_component::ga_lua_component(ent, path), for the object at
    [this]; the base constructor records the entity. *)
Definition ctor (this : ptr) (ent : ptr) (path : string) : M unit :=
  L ← luaL_newstate;
  set__lua this ent L;;
  luaL_openlibs L;;
  let fullpath := g_root_path +:+ path in
  status ← luaL_loadfile L fullpath;
  if negb (status =? 0) then
    msg ← lua_tostring L (-1);
    cerr_put_cstr ("Failed to load script " +:+ path +:+ ": ") msg;;
    lua_close L;;
    set__lua this ent nullptr
  else
    lua_pcall code L 0 0;;
    lua_getglobal L "update";;
    top ← lua_gettop L;
    isf ← lua_isfunction L top;
    if (top =? 0) || (isf =? 0) then
      cerr_put ("Script " +:+ path +:+ " does not contain 'update' function." +:+ endl);;
      lua_close L;;
      set__lua this ent nullptr
    else
      lua_pop L 1;;
      lua_register L "frame_params_get_input_left" CF_frame_params_get_input_left;;
      lua_register L "frame_params_get_input_right" CF_frame_params_get_input_right;;
      lua_register L "component_get_entity" CF_component_get_entity;;
      lua_register L "entity_translate" CF_entity_translate.

(** ga_lua_component::~ga_lua_component. *)
Definition dtor (this : ptr) : M unit :=
  c ← deref_lua_component this;
  if negb (_lua c =? nullptr)%N then lua_close (_lua c) else mret ().

(** ga_lua_component::update(params). *)
Definition update (this : ptr) (params : ptr) : M unit :=
  c ← deref_lua_component this;
  let L := _lua c in
  if negb (L =? nullptr)%N then
    lua_getglobal L "update";;
    lua_pushlightuserdata L this;;
    lua_pushlightuserdata L params;;
    status ← lua_pcall code L 2 0;
    if negb (status =? 0) then
      msg ← lua_tostring L (-1);
      cerr_put_cstr "Error: " msg;;
      assert_ false
    else mret ()
  else mret ().

End Impl.
End ga_lua_component.

(* ===================================================================== *)
(** * Assimp's output data structure (assimp/scene.h) *)
(* ===================================================================== *)

Record aiVector3D := { ai_x : float; ai_y : float; ai_z : float }.
Record aiColor3D := { ai_r : float; ai_g : float; ai_b : float }.
Record aiColor4D := { c4_r : float; c4_g : float; c4_b : float; c4_a : float }.

(** A face: [mNumIndices] indices. *)
Record aiFace := { mIndices : list Z }.
Definition mNumIndices (f : aiFace) : Z := Z.of_nat (length (mIndices f)).

(** A mesh.  The per-vertex arrays that may be null are options;
    [mNumVertices] and [mNumFaces] are the lengths of [mVertices] and
    [mFaces]. *)
Record aiMesh := {
  mName : string;
  mVertices : list aiVector3D;
  mNormals : option (list aiVector3D);
  mTextureCoords0 : option (list aiVector3D);   (* mTextureCoords[0] *)
  mColors0 : option (list aiColor4D);           (* mColors[0] *)
  mNumBones : Z;
  mFaces : list aiFace;
  mMaterialIndex : nat
}.
Definition mNumVertices (m : aiMesh) : Z := Z.of_nat (length (mVertices m)).
Definition mNumFaces (m : aiMesh) : Z := Z.of_nat (length (mFaces m)).

Definition HasTextureCoords0 (m : aiMesh) : bool :=
  bool_decide (is_Some (mTextureCoords0 m)) && (0 <? mNumVertices m).
Definition HasNormals (m : aiMesh) : bool :=
  bool_decide (is_Some (mNormals m)) && (0 <? mNumVertices m).
Definition HasVertexColors0 (m : aiMesh) : bool :=
  bool_decide (is_Some (mColors0 m)) && (0 <? mNumVertices m).
(** [mBones != nullptr && mNumBones > 0]; a mesh with bones has the array. *)
Definition HasBones (m : aiMesh) : bool := 0 <? mNumBones m.

(** A material, as far as the importer asks: its diffuse textures and its
    diffuse colour key. *)
Record aiMaterial := {
  diffuse_textures : list string;
  color_diffuse : option aiColor3D
}.
Definition GetTextureCount_DIFFUSE (m : aiMaterial) : Z :=
  Z.of_nat (length (diffuse_textures m)).

Definition aiMatrix4x4 := vec (vec float 4) 4.

Inductive aiNode :=
| Build_aiNode (mTransformation : aiMatrix4x4) (name : string)
               (meshes : list nat) (mChildren : list aiNode).

Record aiScene := {
  mMeshes : list aiMesh;
  mMaterials : list aiMaterial;
  mRootNode : aiNode
}.
Definition mNumMeshes (s : aiScene) : Z := Z.of_nat (length (mMeshes s)).

(** Assimp::Importer::ReadFile on the file system: the scene, or null. *)
Class Assimp := { ReadFile : string → option aiScene }.

(* ===================================================================== *)
(** * OpenGL calls of the mesh builder *)
(* ===================================================================== *)

Module GL.

Definition update (f : gl_context → gl_context) : M unit := set_gl f.

Definition gen_name : M Z := λ w,
  let n := gl_last_name (gl w) + 1 in
  (set_gl (λ g, {| gl_last_name := n;
                   gl_vertex_array_binding := gl_vertex_array_binding g;
                   gl_array_buffer_binding := gl_array_buffer_binding g;
                   gl_element_array_buffer_binding := gl_element_array_buffer_binding g;
                   gl_buffer_size := gl_buffer_size g;
                   gl_attrib_pointers := gl_attrib_pointers g;
                   gl_enabled_attribs := gl_enabled_attribs g;
                   gl_error := gl_error g |});; mret n) w.

(** glGenVertexArrays(1, &vao) *)
Definition glGenVertexArrays1 : M Z := gen_name.

(** glGenBuffers(2, vbo) *)
Definition glGenBuffers2 : M (Z * Z) := a ← gen_name; b ← gen_name; mret (a, b).

Definition glBindVertexArray (vao : Z) : M unit :=
  set_gl (λ g, {| gl_last_name := gl_last_name g;
                  gl_vertex_array_binding := vao;
                  gl_array_buffer_binding := gl_array_buffer_binding g;
                  gl_element_array_buffer_binding := gl_element_array_buffer_binding g;
                  gl_buffer_size := gl_buffer_size g;
                  gl_attrib_pointers := gl_attrib_pointers g;
                  gl_enabled_attribs := gl_enabled_attribs g;
                  gl_error := gl_error g |}).

Definition glBindBuffer (target name : Z) : M unit :=
  set_gl (λ g, {| gl_last_name := gl_last_name g;
                  gl_vertex_array_binding := gl_vertex_array_binding g;
                  gl_array_buffer_binding :=
                    if target =? GL_ARRAY_BUFFER then name else gl_array_buffer_binding g;
                  gl_element_array_buffer_binding :=
                    if target =? GL_ELEMENT_ARRAY_BUFFER then name
                    else gl_element_array_buffer_binding g;
                  gl_buffer_size := gl_buffer_size g;
                  gl_attrib_pointers := gl_attrib_pointers g;
                  gl_enabled_attribs := gl_enabled_attribs g;
                  gl_error := gl_error g |}).

Definition bound (target : Z) (g : gl_context) : Z :=
  if target =? GL_ARRAY_BUFFER then gl_array_buffer_binding g
  else gl_element_array_buffer_binding g.

(** glBufferData(target, size, data, GL_STATIC_DRAW) *)
Definition glBufferData (target size : Z) : M unit :=
  set_gl (λ g, {| gl_last_name := gl_last_name g;
                  gl_vertex_array_binding := gl_vertex_array_binding g;
                  gl_array_buffer_binding := gl_array_buffer_binding g;
                  gl_element_array_buffer_binding := gl_element_array_buffer_binding g;
                  gl_buffer_size := <[bound target g := size]> (gl_buffer_size g);
                  gl_attrib_pointers := gl_attrib_pointers g;
                  gl_enabled_attribs := gl_enabled_attribs g;
                  gl_error := gl_error g |}).

(** glVertexAttribPointer(index, size, GL_FLOAT, GL_FALSE, stride, offset) *)
Definition glVertexAttribPointer (index size stride offset : Z) : M unit :=
  set_gl (λ g, {| gl_last_name := gl_last_name g;
                  gl_vertex_array_binding := gl_vertex_array_binding g;
                  gl_array_buffer_binding := gl_array_buffer_binding g;
                  gl_element_array_buffer_binding := gl_element_array_buffer_binding g;
                  gl_buffer_size := gl_buffer_size g;
                  gl_attrib_pointers :=
                    gl_attrib_pointers g
                    ++ [(gl_vertex_array_binding g, index, size, stride, offset)];
                  gl_enabled_attribs := gl_enabled_attribs g;
                  gl_error := gl_error g |}).

Definition glEnableVertexAttribArray (index : Z) : M unit :=
  set_gl (λ g, {| gl_last_name := gl_last_name g;
                  gl_vertex_array_binding := gl_vertex_array_binding g;
                  gl_array_buffer_binding := gl_array_buffer_binding g;
                  gl_element_array_buffer_binding := gl_element_array_buffer_binding g;
                  gl_buffer_size := gl_buffer_size g;
                  gl_attrib_pointers := gl_attrib_pointers g;
                  gl_enabled_attribs :=
                    gl_enabled_attribs g ++ [(gl_vertex_array_binding g, index)];
                  gl_error := gl_error g |}).

(** glGetError(): the flag, which is reset. *)
Definition glGetError : M Z := λ w,
  (set_gl (λ g, {| gl_last_name := gl_last_name g;
                   gl_vertex_array_binding := gl_vertex_array_binding g;
                   gl_array_buffer_binding := gl_array_buffer_binding g;
                   gl_element_array_buffer_binding := gl_element_array_buffer_binding g;
                   gl_buffer_size := gl_buffer_size g;
                   gl_attrib_pointers := gl_attrib_pointers g;
                   gl_enabled_attribs := gl_enabled_attribs g;
                   gl_error := GL_NO_ERROR |});; mret (gl_error (gl w))) w.

(** glDeleteBuffers(2, vbo): the storage goes, and a binding of the
    context to a deleted buffer reverts to 0. *)
Definition glDeleteBuffers2 (vbo : Z * Z) : M unit :=
  set_gl (λ g, let gone n := (n =? fst vbo) || (n =? snd vbo) in
               {| gl_last_name := gl_last_name g;
                  gl_vertex_array_binding := gl_vertex_array_binding g;
                  gl_array_buffer_binding :=
                    if gone (gl_array_buffer_binding g) then 0
                    else gl_array_buffer_binding g;
                  gl_element_array_buffer_binding :=
                    if gone (gl_element_array_buffer_binding g) then 0
                    else gl_element_array_buffer_binding g;
                  gl_buffer_size := delete (snd vbo) (delete (fst vbo) (gl_buffer_size g));
                  gl_attrib_pointers := gl_attrib_pointers g;
                  gl_enabled_attribs := gl_enabled_attribs g;
                  gl_error := gl_error g |}).

(** glDeleteVertexArrays(1, &vao): the state of the vertex array goes,
    and the binding reverts to 0 when the array was bound. *)
Definition glDeleteVertexArrays1 (vao : Z) : M unit :=
  set_gl (λ g, {| gl_last_name := gl_last_name g;
                  gl_vertex_array_binding :=
                    if gl_vertex_array_binding g =? vao then 0
                    else gl_vertex_array_binding g;
                  gl_array_buffer_binding := gl_array_buffer_binding g;
                  gl_element_array_buffer_binding := gl_element_array_buffer_binding g;
                  gl_buffer_size := gl_buffer_size g;
                  gl_attrib_pointers :=
                    filter (λ a, a.1.1.1.1 ≠ vao) (gl_attrib_pointers g);
                  gl_enabled_attribs :=
                    filter (λ a, a.1 ≠ vao) (gl_enabled_attribs g);
                  gl_error := gl_error g |}).

End GL.
Import GL.

(* ===================================================================== *)
(** * src/engine/graphics/ga_mesh.cpp *)
(* ===================================================================== *)

(** ai_mat4_to_ga_mat4(in_mat, out_mat): the two nested loops. *)
Definition ai_mat4_to_ga_mat4 (in_mat : aiMatrix4x4) (out_mat : ga_mat4f) : ga_mat4f :=
  foldl (λ out r,
           foldl (λ out c, mat_set out r c (mat_get in_mat r c)) out upto4)
        out_mat upto4.

Module ga_mesh.
Section Impl.
Context `{!EngineDecls}.

(** ga_mesh::ga_mesh(): the members it does not set start at zero. *)
Definition ctor : ga_mesh :=
  {| _vertex_array := []; _index_array := []; _name := "";
     _material := nullptr; _vertex_format := 0; _vao := 0; _vbo := (0, 0);
     _index_count := 0 |}.

(** ga_mesh::~ga_mesh(). *)
Definition dtor (self : ga_mesh) : M unit :=
  glDeleteBuffers2 (_vbo self);;
  glDeleteVertexArrays1 (_vao self).

Definition vec3_zero : ga_vec3f := {| x := fzero; y := fzero; z := fzero |}.

(** One round of the vertex loop: [ga_vertex vertex = {}; ...]. *)
Definition load_vertex (fmt : Z) (mesh : aiMesh) (i : nat) : M ga_vertex :=
  p ← array_read (mVertices mesh) i;
  let position := {| x := ai_x p; y := ai_y p; z := ai_z p |} in
  uv ← (if negb (Z.land fmt k_vertex_attribute_uv =? 0) then
          t ← array_read_opt (mTextureCoords0 mesh) i;
          mret {| uv_x := ai_x t; uv_y := ai_y t |}
        else mret {| uv_x := fzero; uv_y := fzero |});
  normal ← (if negb (Z.land fmt k_vertex_attribute_normal =? 0) then
              n ← array_read_opt (mNormals mesh) i;
              mret {| x := ai_x n; y := ai_y n; z := ai_z n |}
            else mret vec3_zero);
  mret {| _position := position; _normal := normal; _color := vec3_zero; _uv := uv |}.

(** One round of the index loop. *)
Definition load_face (index_array : list Z) (face : aiFace) : M (list Z) :=
  i0 ← array_read (mIndices face) 0;
  let index_array := index_array ++ [index_of_uint i0] in
  i1 ← array_read (mIndices face) 1;
  let index_array := index_array ++ [index_of_uint i1] in
  i2 ← array_read (mIndices face) 2;
  let index_array := index_array ++ [index_of_uint i2] in
  (if 3 <? mNumIndices face then
     cout_put ("Face with more than 3 verts: mNumIndices="
               +:+ pretty (mNumIndices face) +:+ endl)
   else mret ());;
  mret index_array.

(** ga_mesh::create_from_aiMesh(mesh, scene). *)
Definition create_from_aiMesh (self : ga_mesh) (mesh : aiMesh) (scene : aiScene)
  : M ga_mesh :=
  let fmt := 1 in
  let name := mName mesh in
  let fmt := if HasTextureCoords0 mesh then Z.lor fmt k_vertex_attribute_uv else fmt in
  let fmt := if HasNormals mesh then Z.lor fmt k_vertex_attribute_normal else fmt in
  let fmt := if HasVertexColors0 mesh then Z.lor fmt k_vertex_attribute_color else fmt in
  let fmt := if HasBones mesh then Z.lor fmt k_vertex_attribute_weight else fmt in
  (* load vertex positions *)
  vertices ← map_M (load_vertex fmt mesh) (seq 0 (length (mVertices mesh)));
  (* load indices *)
  indices ← fold_M load_face (mFaces mesh) (_index_array self);
  (* load material *)
  ai_material ← array_read (mMaterials scene) (mMaterialIndex mesh);
  material ←
    (if 0 <? GetTextureCount_DIFFUSE ai_material then
       let diffuse_texture_path := default "" (head (diffuse_textures ai_material)) in
       mat ← new (OMaterial (ga_lit_texture_material diffuse_texture_path false));
       store mat (OMaterial (ga_lit_texture_material diffuse_texture_path true));;
       mret mat
     else
       let ai_diffuse :=
         default {| ai_r := fzero; ai_g := fzero; ai_b := fzero |}
                 (color_diffuse ai_material) in
       mat ← new (OMaterial (ga_lit_material vec3_zero false));
       store mat (OMaterial (ga_lit_material vec3_zero true));;
       store mat (OMaterial (ga_lit_material
                    {| x := ai_r ai_diffuse; y := ai_g ai_diffuse; z := ai_b ai_diffuse |}
                    true));;
       mret mat);
  mret {| _vertex_array := _vertex_array self ++ vertices;
          _index_array := indices;
          _name := name;
          _material := material;
          _vertex_format := fmt;
          _vao := _vao self; _vbo := _vbo self;
          _index_count := _index_count self |}.

(** ga_mesh::make_buffers(). *)
Definition make_buffers (self : ga_mesh) : M ga_mesh :=
  vao ← glGenVertexArrays1;
  glBindVertexArray vao;;
  vbo ← glGenBuffers2;
  let vertex_size := sizeof_ga_vertex in
  glBindBuffer GL_ARRAY_BUFFER (fst vbo);;
  glBufferData GL_ARRAY_BUFFER (Z.of_nat (length (_vertex_array self)) * vertex_size);;
  (* position *)
  glVertexAttribPointer 0 3 vertex_size 0;;
  glEnableVertexAttribArray 0;;
  (* normal *)
  (if negb (Z.land (_vertex_format self) k_vertex_attribute_normal =? 0) then
     glVertexAttribPointer 1 3 vertex_size 12;; glEnableVertexAttribArray 1
   else mret ());;
  (* color *)
  (if negb (Z.land (_vertex_format self) k_vertex_attribute_color =? 0) then
     glVertexAttribPointer 2 3 vertex_size 24;; glEnableVertexAttribArray 2
   else mret ());;
  (if negb (Z.land (_vertex_format self) k_vertex_attribute_uv =? 0) then
     glVertexAttribPointer 3 2 vertex_size 36;; glEnableVertexAttribArray 3
   else mret ());;
  (* bind buffer for element index array *)
  let index_count := Z.of_nat (length (_index_array self)) in
  glBindBuffer GL_ELEMENT_ARRAY_BUFFER (snd vbo);;
  glBufferData GL_ELEMENT_ARRAY_BUFFER (index_count * sizeof_GLushort);;
  glBindVertexArray 0;;
  err ← glGetError;
  assert_ (err =? GL_NO_ERROR);;
  mret {| _vertex_array := _vertex_array self;
          _index_array := _index_array self;
          _name := _name self;
          _material := _material self;
          _vertex_format := _vertex_format self;
          _vao := vao; _vbo := vbo;
          _index_count := index_count |}.

(** ga_mesh::assemble_drawcall(draw). *)
Definition assemble_drawcall (self : ga_mesh) (draw : ga_static_drawcall)
  : ga_static_drawcall :=
  {| dc_vao := _vao self;
     dc_index_count := _index_count self;
     dc_draw_mode := GL_TRIANGLES;
     dc_material := _material self;
     dc_transform := dc_transform draw |}.

(** ga_mesh::update(params). *)
Definition update (self : ga_mesh) (params : ptr) : M unit := mret ().

End Impl.
End ga_mesh.

(* ===================================================================== *)
(** * The scene-graph node (graphics/ga_node.h, not among the sources) *)
(* ===================================================================== *)

(** A node owns its children; its meshes are pointers to meshes the model
    component owns.  The parent a child is constructed with
    ([new ga_node(node)]) is the node whose list of children holds it. *)
Inductive ga_node :=
| Build_ga_node (name : string) (transform world_transform : ga_mat4f)
                (meshes : list ptr) (children : list ga_node).

Definition node_name (n : ga_node) := let 'Build_ga_node a _ _ _ _ := n in a.
Definition node_transform (n : ga_node) := let 'Build_ga_node _ a _ _ _ := n in a.
Definition node_world (n : ga_node) := let 'Build_ga_node _ _ a _ _ := n in a.
Definition node_meshes (n : ga_node) := let 'Build_ga_node _ _ _ a _ := n in a.
Definition node_children (n : ga_node) := let 'Build_ga_node _ _ _ _ a := n in a.

(** Modelled from the spec: [ga_mat4f::transpose] and the matrix product
    (math/ga_mat4f.h is not among the sources): "the row/column transpose
    correction" and "local transform × parent world transform". *)
Definition mat_transpose (m : ga_mat4f) : ga_mat4f :=
  fun_to_vec (λ r, fun_to_vec (λ c, mat_get m c r)).

Definition mat_mul (a b : ga_mat4f) : ga_mat4f :=
  fun_to_vec (λ r, fun_to_vec (λ c,
    foldl (λ acc k, fadd acc (fmul (mat_get a r k) (mat_get b k c)))
          fzero upto4)).

Module ga_node.
Section Impl.
Context `{!EngineDecls}.

(** Modelled from the spec: the node a constructor leaves: no name, no
    meshes, no children ("valid-but-empty state (no root content)"). *)
Definition ctor : ga_node := Build_ga_node "" mat_identity mat_identity [] [].

(** Modelled from the spec: [ga_node::update(params, parent)]: "compute this
    node's world transform = local transform × parent world transform;
    recurse into children with this node's world transform as their parent
    input". *)
Fixpoint update (self : ga_node) (parent : ga_mat4f) : ga_node :=
  let 'Build_ga_node name transform _ meshes children := self in
  let world := mat_mul transform parent in
  Build_ga_node name transform world meshes
                (map (λ child, update child world) children).

(** Modelled from the spec: [ga_node::draw_recursive(params)]: "for each
    mesh referenced by this node, assemble a draw-call descriptor (...
    updated with this node's current world transform) and submit it to the
    frame's draw-call collection; recurse into children". *)
Definition submit (params : ptr) (draw : ga_static_drawcall) : M unit :=
  p ← deref_frame_params params;
  store params (OFrameParams {| _delta_time := _delta_time p;
                                _button_mask := _button_mask p;
                                _static_drawcalls := _static_drawcalls p ++ [draw] |}).

Definition draw_mesh (world : ga_mat4f) (params : ptr) (mesh : ptr) : M unit :=
  m ← deref_mesh mesh;
  let draw := ga_mesh.assemble_drawcall m
                {| dc_vao := 0; dc_index_count := 0; dc_draw_mode := 0;
                   dc_material := nullptr; dc_transform := world |} in
  submit params draw.

Fixpoint draw_recursive (self : ga_node) (params : ptr) : M unit :=
  let 'Build_ga_node _ _ world meshes children := self in
  for_each meshes (draw_mesh world params);;
  for_each children (λ child, draw_recursive child params).

End Impl.
End ga_node.

(* ===================================================================== *)
(** * src/engine/graphics/ga_model_component.cpp *)
(* ===================================================================== *)

Record ga_model_component := {
  mc_entity : ptr;                 (* the ga_component base *)
  _scene : option aiScene;         (* null when the import failed *)
  _meshes : list ptr;
  _root : ga_node
}.

Module ga_model_component.
Section Impl.
Context `{!EngineDecls, !Assimp}.

(** ga_model_component::~ga_model_component(). *)
Definition dtor (self : ga_model_component) : M unit := mret ().

(** ga_model_component::process_node_recursive(ai_node, scene, node); the
    node is returned as the function leaves it. *)
Fixpoint process_node_recursive (meshes_ : list ptr) (ai_node : aiNode)
    (node : ga_node) : M ga_node :=
  let 'Build_aiNode mTransformation mName mMeshes mChildren := ai_node in
  (* apply transformation *)
  let transform := ai_mat4_to_ga_mat4 mTransformation (node_transform node) in
  let transform := mat_transpose transform in
  let name := mName in
  (* process my meshes *)
  added ← map_M (λ i, array_read meshes_ i) mMeshes;
  (* process my children *)
  children ← map_M (λ ai_child,
                      process_node_recursive meshes_ ai_child ga_node.ctor)
                   mChildren;
  mret (Build_ga_node name transform (node_world node)
                      (node_meshes node ++ added)
                      (node_children node ++ children)).

(** One round of the mesh loop of the constructor. *)
Definition build_mesh (scene : aiScene) (ai_mesh : aiMesh) : M ptr :=
  mesh ← new (OMesh ga_mesh.ctor);
  m ← ga_mesh.create_from_aiMesh ga_mesh.ctor ai_mesh scene;
  store mesh (OMesh m);;
  m ← ga_mesh.make_buffers m;
  store mesh (OMesh m);;
  mret mesh.

(** ga_model_component::ga_model_component(ent, model_file). *)
Definition ctor (ent : ptr) (model_file : string) : M ga_model_component :=
  let model_path := g_root_path +:+ model_file in
  let scene_ := ReadFile model_path in
  match scene_ with
  | None =>
      cout_put ("error: couldn't load obj" +:+ endl);;
      mret {| mc_entity := ent; _scene := scene_; _meshes := [];
              _root := ga_node.ctor |}
  | Some scene =>
      (* process the scene *)
      cout_put ("number of meshes: " +:+ pretty (mNumMeshes scene) +:+ endl);;
      (* process the meshes *)
      meshes ← map_M (build_mesh scene) (mMeshes scene);
      (* recursively process the node tree *)
      root ← process_node_recursive meshes (mRootNode scene) ga_node.ctor;
      mret {| mc_entity := ent; _scene := scene_; _meshes := meshes;
              _root := root |}
  end.

(** ga_model_component::update(params); the component is returned with
    the root as the update pass leaves it. *)
Definition update (self : ga_model_component) (params : ptr)
  : M ga_model_component :=
  p ← deref_frame_params params;
  let dt := _delta_time p in
  (* update the world matrix for all nodes in the scenegraph *)
  ent ← deref_entity (mc_entity self);
  let root := ga_node.update (_root self) (get_transform ent) in
  (* draw the scenegraph *)
  ga_node.draw_recursive root params;;
  mret {| mc_entity := mc_entity self; _scene := _scene self;
          _meshes := _meshes self; _root := root |}.

End Impl.
End ga_model_component.

(* ===================================================================== *)
(** * Vocabulary of the properties *)
(* ===================================================================== *)

(** The world with the interpreter state at [L] replaced. *)
Definition with_state (L : ptr) (s : lua_State) (w : world) : world :=
  upd_lua_states (<[L := s]>) w.

(** [L] is an open interpreter state whose content is [s]. *)
Definition live (L : ptr) (s : lua_State) (w : world) : Prop :=
  lua_states w !! L = Some s.

(** The line a C function writes when it is called with [got] arguments
    and expected another number. *)
Definition mismatch_diagnostic (f : lua_CFunction) (got : Z) : string :=
  match f with
  | CF_frame_params_get_input_left =>
      "Function frame_params_get_input_left expected 1 argument but got "
      +:+ pretty got +:+ "." +:+ endl
  | CF_frame_params_get_input_right =>
      "Function frame_params_get_input_right expected 1 argument but got "
      +:+ pretty got +:+ "." +:+ endl
  | CF_component_get_entity =>
      "Function component_get_entity expected 1 argument but got "
      +:+ pretty got +:+ "." +:+ endl
  | CF_entity_translate =>
      "Function entity_translate expected 4 arguments but got "
      +:+ pretty got +:+ "." +:+ endl
  end.

Definition expected_arguments (f : lua_CFunction) : Z :=
  match f with
  | CF_entity_translate => 4
  | _ => 1
  end.

(** What a C function tells Lua it returns. *)
Definition declared_results (f : lua_CFunction) : Z :=
  match f with
  | CF_entity_translate => 0
  | _ => 1
  end.

(** The vector [lua_entity_translate] builds from its three numbers. *)
Definition delta (dx dy dz : double) : ga_vec3f :=
  {| x := float_of_double dx; y := float_of_double dy; z := float_of_double dz |}.

(** The value is of type function: what [lua_isfunction] tests. *)
Definition is_function (v : lua_value) : bool :=
  match v with
  | LFunction _ | LCFunction _ => true
  | _ => false
  end.

(** The world a completed call of a script function leaves: the pcall is
    logged, the objects and the globals are as the script left them, its
    diagnostics are on [std::cerr], and the stack of [L] is [st]. *)
Definition after_call `{!LuaRuntime} (L : ptr) (callee : lua_value)
    (args : list lua_value) (r : run_result) (st : list lua_value) (w : world)
  : world :=
  with_state L {| stack := st; globals := rr_globals r |}
    (upd_cerr (λ c, c ++ rr_cerr r)
       (upd_heap (λ _, rr_heap r)
          (upd_pcalls (λ l, l ++ [(callee, args)]) w))).

Section ComponentVocabulary.
Context `{!EngineDecls, !LuaRuntime}.

(** The address [luaL_newstate] returns in [w]. *)
Definition new_state (w : world) : ptr := N.succ (next_addr w).

(** The top-level execution of chunk [c], as the constructor starts it:
    no arguments, the globals of the standard libraries, and the component
    already at [this]. *)
Definition top_level (this ent : ptr) (w : world) (c : N) : run_result :=
  run_function c [] (lua_stdlib ∪ ∅)
    (<[this := OLuaComponent {| _entity := ent; _lua := new_state w |}]> (heap w)).

(** The value of the global [update] after the top-level execution. *)
Definition update_after (this ent : ptr) (w : world) (c : N) : lua_value :=
  default LNil (rr_globals (top_level this ent w c) !! "update").

(** The two states a constructed component is in. *)
Definition disabled (this ent : ptr) (w : world) : Prop :=
  heap w !! this = Some (OLuaComponent {| _entity := ent; _lua := nullptr |}).

Definition enabled (this ent L : ptr) (w : world) : Prop :=
  L ≠ nullptr
  ∧ heap w !! this = Some (OLuaComponent {| _entity := ent; _lua := L |})
  ∧ is_Some (lua_states w !! L).

(** The globals after the four [lua_register] calls. *)
Definition registered (g : gmap string lua_value) : gmap string lua_value :=
  <["entity_translate" := LCFunction CF_entity_translate]>
    (<["component_get_entity" := LCFunction CF_component_get_entity]>
       (<["frame_params_get_input_right" := LCFunction CF_frame_params_get_input_right]>
          (<["frame_params_get_input_left" := LCFunction CF_frame_params_get_input_left]>
             g))).

(** What a protected call leaves on the stack when no result was asked
    for: nothing, or the error object. *)
Definition leftover (o : outcome) : list lua_value :=
  match o with
  | Raised _ err => [err]
  | _ => []
  end.

(** The world once the top-level execution of chunk [c] is over, the
    interpreter state apart. *)
Definition after_top_level (this ent : ptr) (w : world) (c : N) : world :=
  upd_cerr (λ l, l ++ rr_cerr (top_level this ent w c))
    (upd_heap (λ _, rr_heap (top_level this ent w c))
       (upd_pcalls (λ l, l ++ [(LFunction c, [])])
          (upd_next_addr N.succ w))).

(** The constructor gives up: one line on [std::cerr], the interpreter
    state closed, [_lua] null. *)
Definition abandon (this ent L : ptr) (diag : string) (w : world) : world :=
  upd_heap (<[this := OLuaComponent {| _entity := ent; _lua := nullptr |}]>)
    (upd_lua_states (delete L) (upd_cerr (λ l, l ++ [diag]) w)).

Definition load_diagnostic (path msg : string) : string :=
  ("Failed to load script " +:+ path +:+ ": ") +:+ msg.

Definition missing_update_diagnostic (path : string) : string :=
  "Script " +:+ path +:+ " does not contain 'update' function." +:+ endl.

(** What the constructor computes, case by case. *)
Definition ctor_result (this ent : ptr) (path : string) (w : world) : result unit :=
  match load_chunk (g_root_path +:+ path) with
  | LoadFailed e msg =>
      Done () (abandon this ent (new_state w) (load_diagnostic path msg)
                 (upd_heap (<[this := OLuaComponent
                                        {| _entity := ent; _lua := new_state w |}]>)
                    (upd_next_addr N.succ w)))
  | Loaded c =>
      let r := top_level this ent w c in
      match rr_outcome r with
      | Crashed => Fault
      | o =>
          if is_function (update_after this ent w c) then
            Done () (with_state (new_state w)
                       {| stack := leftover o; globals := registered (rr_globals r) |}
                       (after_top_level this ent w c))
          else
            Done () (abandon this ent (new_state w) (missing_update_diagnostic path)
                       (after_top_level this ent w c))
      end
  end.

(** What [std::cerr << "Error: " << lua_tostring(_lua, -1); assert(0);]
    does with the error object [err]. *)
Definition report_and_abort (err : lua_value) (w : world) : result unit :=
  match err with
  | LString msg => AssertFailed (upd_cerr (λ l, l ++ ["Error: " +:+ msg]) w)
  | LNumber n => AssertFailed (upd_cerr (λ l, l ++ ["Error: " +:+ number2str n]) w)
  | _ => Fault
  end.

End ComponentVocabulary.

Section MeshVocabulary.
Context `{!EngineDecls}.

(** The attribute bitmask [create_from_aiMesh] computes for a mesh. *)
Definition vertex_format_of (mesh : aiMesh) : Z :=
  let fmt := 1 in
  let fmt := if HasTextureCoords0 mesh then Z.lor fmt k_vertex_attribute_uv else fmt in
  let fmt := if HasNormals mesh then Z.lor fmt k_vertex_attribute_normal else fmt in
  let fmt := if HasVertexColors0 mesh then Z.lor fmt k_vertex_attribute_color else fmt in
  if HasBones mesh then Z.lor fmt k_vertex_attribute_weight else fmt.

(** Every per-vertex array the bitmask makes the vertex loop read has an
    entry for every vertex. *)
Definition channels_readable (mesh : aiMesh) : Prop :=
  ∀ i : nat, (i < length (mVertices mesh))%nat →
    (Z.land (vertex_format_of mesh) k_vertex_attribute_uv ≠ 0 →
       is_Some (mTextureCoords0 mesh ≫= (.!! i)))
    ∧ (Z.land (vertex_format_of mesh) k_vertex_attribute_normal ≠ 0 →
       is_Some (mNormals mesh ≫= (.!! i))).

(** What a face contributes to the index array: its first three indices,
    stored in the array's element type. *)
Definition first_three (face : aiFace) : list Z :=
  map index_of_uint (take 3 (mIndices face)).

Definition face_warning (face : aiFace) : string :=
  "Face with more than 3 verts: mNumIndices=" +:+ pretty (mNumIndices face) +:+ endl.

(** The warnings of a list of faces: one for each face with more than
    three indices, in order. *)
Definition face_warnings (faces : list aiFace) : list string :=
  map face_warning (filter (λ f, 3 < mNumIndices f) faces).

(** The material object the importer creates for an Assimp material. *)
Definition imported_material (m : aiMaterial) : ga_material :=
  match diffuse_textures m with
  | path :: _ => ga_lit_texture_material path true
  | [] =>
      let c := default {| ai_r := fzero; ai_g := fzero; ai_b := fzero |}
                       (color_diffuse m) in
      ga_lit_material {| x := ai_r c; y := ai_g c; z := ai_b c |} true
  end.

(** Building a mesh: [create_from_aiMesh] on a new [ga_mesh], then
    [make_buffers]. *)
Definition build (mesh : aiMesh) (scene : aiScene) : M ga_mesh :=
  m ← ga_mesh.create_from_aiMesh ga_mesh.ctor mesh scene; ga_mesh.make_buffers m.

(** The descriptor [assemble_drawcall] fills is this one before the call. *)
Definition blank_drawcall : ga_static_drawcall :=
  {| dc_vao := 0; dc_index_count := 0; dc_draw_mode := 0;
     dc_material := nullptr; dc_transform := mat_identity |}.

End MeshVocabulary.

(** A model component with no content: no mesh, and a root without meshes
    or children. *)
Definition empty_model (c : ga_model_component) : Prop :=
  _meshes c = [] ∧ node_meshes (_root c) = [] ∧ node_children (_root c) = [].

(** The frame-parameters pointers of a sequence of frames are valid. *)
Definition valid_frames (frames : list ptr) (w : world) : Prop :=
  Forall (λ params, params ≠ nullptr
                    ∧ ∃ fp, heap w !! params = Some (OFrameParams fp)) frames.
(* ===================================================================== *)
(** * Vocabulary of the properties of the bridge functions *)
(* ===================================================================== *)

(** The pointer [lua_touserdata] reads from a value: the block of a
    userdata, the pointer of a light userdata, null for anything else. *)
Definition userdata_of (v : lua_value) : ptr :=
  match v with
  | LLightUserdata p | LUserdata p => p
  | _ => nullptr
  end.

(** The number [lua_tonumber] reads from a value: a number itself, a
    string that converts to a number, and 0 for anything else. *)
Definition number_of `{!LuaRuntime} (v : lua_value) : double :=
  match v with
  | LNumber n => n
  | LString str => default dzero (str2number str)
  | _ => dzero
  end.

(** The pointer is not null and an object of the class the C function
    casts its first argument to lives there. *)
Definition points_to_operand (f : lua_CFunction) (w : world) (p : ptr) : Prop :=
  p ≠ nullptr
  ∧ match f with
    | CF_frame_params_get_input_left | CF_frame_params_get_input_right =>
        ∃ fp, heap w !! p = Some (OFrameParams fp)
    | CF_component_get_entity => ∃ c, heap w !! p = Some (OLuaComponent c)
    | CF_entity_translate => ∃ e, heap w !! p = Some (OEntity e)
    end.

(** The names the constructor registers. *)
Definition registered_names : list string :=
  ["frame_params_get_input_left"; "frame_params_get_input_right";
   "component_get_entity"; "entity_translate"].

(** The message of Lua's error when the value called is nil. *)
Definition call_nil_message : string := "attempt to call a nil value".

(* ===================================================================== *)
(** * Vocabulary of the properties of the mesh builder *)
(* ===================================================================== *)

Section MeshBuilderVocabulary.
Context `{!EngineDecls}.



Definition vec3_of (v : aiVector3D) : ga_vec3f :=
  {| x := ai_x v; y := ai_y v; z := ai_z v |}.

(** What the vertex loop stores for vertex [i] of a mesh, field by field. *)
Definition loaded_from (fmt : Z) (mesh : aiMesh) (i : nat) (v : ga_vertex) : Prop :=
  (∃ p, mVertices mesh !! i = Some p ∧ _position v = vec3_of p)
  ∧ _color v = ga_mesh.vec3_zero
  ∧ (if Z.land fmt k_vertex_attribute_normal =? 0
     then _normal v = ga_mesh.vec3_zero
     else ∃ n, mNormals mesh ≫= (.!! i) = Some n ∧ _normal v = vec3_of n)
  ∧ (if Z.land fmt k_vertex_attribute_uv =? 0
     then _uv v = {| uv_x := fzero; uv_y := fzero |}
     else ∃ t, mTextureCoords0 mesh ≫= (.!! i) = Some t
               ∧ _uv v = {| uv_x := ai_x t; uv_y := ai_y t |}).

(** The attribute arrays [make_buffers] declares for a vertex format:
    index, number of components, byte offset. *)
Definition attributes_of (fmt : Z) : list (Z * Z * Z) :=
  [(0, 3, 0)]
  ++ (if negb (Z.land fmt k_vertex_attribute_normal =? 0) then [(1, 3, 12)] else [])
  ++ (if negb (Z.land fmt k_vertex_attribute_color =? 0) then [(2, 3, 24)] else [])
  ++ (if negb (Z.land fmt k_vertex_attribute_uv =? 0) then [(3, 2, 36)] else []).

(** The GL context once the calls of [make_buffers] are through: three new
    names, the vertex array unbound again, the two uploads, the attribute
    arrays of the format declared and enabled, the error flag read. *)
Definition gl_after_make_buffers (self : ga_mesh) (g : gl_context) : gl_context :=
  let vao := gl_last_name g + 1 in
  {| gl_last_name := vao + 1 + 1;
     gl_vertex_array_binding := 0;
     gl_array_buffer_binding := vao + 1;
     gl_element_array_buffer_binding := vao + 1 + 1;
     gl_buffer_size :=
       <[vao + 1 + 1 := Z.of_nat (length (_index_array self)) * sizeof_GLushort]>
         (<[vao + 1 := Z.of_nat (length (_vertex_array self)) * sizeof_ga_vertex]>
            (gl_buffer_size g));
     gl_attrib_pointers :=
       gl_attrib_pointers g
       ++ map (λ a, (vao, a.1.1, a.1.2, sizeof_ga_vertex, a.2))
              (attributes_of (_vertex_format self));
     gl_enabled_attribs :=
       gl_enabled_attribs g
       ++ map (λ a, (vao, a.1.1)) (attributes_of (_vertex_format self));
     gl_error := GL_NO_ERROR |}.

(** The mesh object [make_buffers] leaves in a context whose last name is
    [last]. *)
Definition with_buffers (self : ga_mesh) (last : Z) : ga_mesh :=
  {| _vertex_array := _vertex_array self;
     _index_array := _index_array self;
     _name := _name self;
     _material := _material self;
     _vertex_format := _vertex_format self;
     _vao := last + 1;
     _vbo := (last + 1 + 1, last + 1 + 1 + 1);
     _index_count := Z.of_nat (length (_index_array self)) |}.

End MeshBuilderVocabulary.

(* ===================================================================== *)
(** * Vocabulary of the properties of the model component *)
(* ===================================================================== *)

(** Every mesh index in the tree of an Assimp node is below [n]. *)
Fixpoint indices_below (n : nat) (ai_node : aiNode) : bool :=
  let 'Build_aiNode _ _ meshes children := ai_node in
  forallb (λ i, i <? n)%nat meshes && forallb (indices_below n) children.

(** The scene-graph node that corresponds to an Assimp node, for a
    component whose mesh pointers are [meshes_]: the same name, the
    transposed matrix, the meshes the indices select, and the nodes of the
    children, in order. *)
Fixpoint node_of (meshes_ : list ptr) (ai_node : aiNode) : ga_node :=
  let 'Build_aiNode mTransformation name meshes children := ai_node in
  Build_ga_node name (mat_transpose mTransformation) mat_identity
                (omap (λ i, meshes_ !! i) meshes)
                (map (node_of meshes_) children).

(** The mesh pointers of a tree of nodes, the root's first. *)
Fixpoint meshes_in (node : ga_node) : list ptr :=
  let 'Build_ga_node _ _ _ meshes children := node in
  meshes ++ flat_map meshes_in children.

(** The number of nodes of a tree. *)
Fixpoint ai_node_count (ai_node : aiNode) : nat :=
  let 'Build_aiNode _ _ _ children := ai_node in
  S (list_sum (map ai_node_count children)).

Fixpoint node_count (node : ga_node) : nat :=
  let 'Build_ga_node _ _ _ _ children := node in
  S (list_sum (map node_count children)).

Section ModelVocabulary.
Context `{!EngineDecls}.

(** The source mesh can be built: C3's preconditions on it. *)
Definition buildable (scene : aiScene) (mesh : aiMesh) : Prop :=
  channels_readable mesh
  ∧ Forall (λ f, (3 ≤ length (mIndices f))%nat) (mFaces mesh)
  ∧ is_Some (mMaterials scene !! mMaterialIndex mesh).

(** On heap [h], [p] points to the mesh built from [ai_mesh]. *)
Definition built_from (scene : aiScene) (ai_mesh : aiMesh) (h : gmap N object)
    (p : ptr) : Prop :=
  ∃ m mat,
    h !! p = Some (OMesh m)
    ∧ _name m = mName ai_mesh
    ∧ _index_array m = flat_map first_three (mFaces ai_mesh)
    ∧ _index_count m = 3 * mNumFaces ai_mesh
    ∧ length (_vertex_array m) = length (mVertices ai_mesh)
    ∧ mMaterials scene !! mMaterialIndex ai_mesh = Some mat
    ∧ h !! _material m = Some (OMaterial (imported_material mat)).

(** What the model constructor writes to [std::cout] for a scene. *)
Definition import_log (scene : aiScene) : list string :=
  ("number of meshes: " +:+ pretty (mNumMeshes scene) +:+ endl)
  :: concat (map (λ mesh, face_warnings (mFaces mesh)) (mMeshes scene)).

End ModelVocabulary.


(* ===================================================================== *)
(** * A concrete engine, three scripts and two models *)
(* ===================================================================== *)

(** One choice of the declarations, files and scripts the development is
    parametric in, on which the definitions can be run. *)
Module Scenario.

(** Bit 1 and bit 2 as the two buttons, 16-bit indices, 44-byte vertices. *)
Definition decls : EngineDecls :=
  {| g_root_path := "data/";
     k_button_j := 2;
     k_button_l := 4;
     k_vertex_attribute_uv := 2;
     k_vertex_attribute_normal := 4;
     k_vertex_attribute_color := 8;
     k_vertex_attribute_weight := 16;
     index_of_uint := λ i, i mod 65536;
     sizeof_ga_vertex := 44 |}.

(** The chunks of three script files. *)
Definition chunk_move : N := 1.       (* defines update *)
Definition chunk_broken : N := 2.     (* defines update, then raises an error *)
Definition chunk_idle : N := 3.       (* defines nothing *)
(** Two functions a script binds to [update]: the first rebinds the global
    to the second when it runs. *)
Definition fn_first : N := 10.
Definition fn_then : N := 11.

Definition load (path : string) : load_result :=
  if String.eqb path "data/scripts/move.lua" then Loaded chunk_move
  else if String.eqb path "data/scripts/broken.lua" then Loaded chunk_broken
  else if String.eqb path "data/scripts/idle.lua" then Loaded chunk_idle
  else LoadFailed LUA_ERRFILE_ ("cannot open " +:+ path).

Definition run (f : N) (args : list lua_value) (g : gmap string lua_value)
    (h : gmap N object) : run_result :=
  if (f =? chunk_move)%N then
    {| rr_outcome := Returned [];
       rr_globals := <["update" := LFunction fn_first]> g;
       rr_heap := h; rr_cerr := [] |}
  else if (f =? chunk_broken)%N then
    {| rr_outcome := Raised LUA_ERRRUN_ (LString "attempt to index a nil value");
       rr_globals := <["update" := LFunction fn_first]> g;
       rr_heap := h; rr_cerr := [] |}
  else if (f =? fn_first)%N then
    {| rr_outcome := Returned [];
       rr_globals := <["update" := LFunction fn_then]> g;
       rr_heap := h; rr_cerr := [] |}
  else
    {| rr_outcome := Returned []; rr_globals := g; rr_heap := h; rr_cerr := [] |}.

Definition runtime : LuaRuntime :=
  {| lua_stdlib := {["print" := LFunction 100%N]};
     load_chunk := load;
     run_function := run;
     str2number := λ _, None;
     number2str := λ _, "0" |}.

(** 1.0, 0.5 and the double nearest to 0.1. *)
Definition d_one : double := S754_finite false 4503599627370496 (-52).
Definition d_half : double := S754_finite false 4503599627370496 (-53).
Definition d_tenth : double := S754_finite false 7205759403792794 (-56).

Definition entity0 : ga_entity := {| _transform := mat_identity |}.
Definition params0 : ga_frame_params :=
  {| _delta_time := 16; _button_mask := 2; _static_drawcalls := [] |}.

Definition gl0 : gl_context :=
  {| gl_last_name := 0; gl_vertex_array_binding := 0;
     gl_array_buffer_binding := 0; gl_element_array_buffer_binding := 0;
     gl_buffer_size := ∅; gl_attrib_pointers := []; gl_enabled_attribs := [];
     gl_error := GL_NO_ERROR |}.

(** An entity at address 1, the frame parameters at address 2, and
    address 3 free for a component. *)
Definition entity_ptr : ptr := 1%N.
Definition params_ptr : ptr := 2%N.
Definition component_ptr : ptr := 3%N.

Definition world0 : world :=
  {| heap := {[ entity_ptr := OEntity entity0; params_ptr := OFrameParams params0 ]};
     lua_states := ∅; next_addr := 3%N; gl := gl0;
     cerr := []; cout := []; pcalls := [] |}.

(** The world with a component at address 3 whose interpreter state, at
    address 4, has the four functions registered and [update] bound. *)
Definition state1 : lua_State :=
  {| stack := [];
     globals := {[ "update" := LFunction fn_first;
                   "entity_translate" := LCFunction CF_entity_translate ]} |}.

Definition world1 : world :=
  {| heap := {[ entity_ptr := OEntity entity0; params_ptr := OFrameParams params0;
                component_ptr := OLuaComponent {| _entity := entity_ptr; _lua := 4%N |} ]};
     lua_states := {[ 4%N := state1 ]}; next_addr := 4%N; gl := gl0;
     cerr := []; cout := []; pcalls := [] |}.

(** A material without texture, and a mesh of four vertices with normals. *)
Definition grey : aiMaterial :=
  {| diffuse_textures := [];
     color_diffuse := Some {| ai_r := fone; ai_g := fone; ai_b := fone |} |}.

Definition corner (a b : float) : aiVector3D := {| ai_x := a; ai_y := b; ai_z := fzero |}.

Definition square (faces : list aiFace) : aiMesh :=
  {| mName := "square";
     mVertices := [corner fzero fzero; corner fone fzero;
                   corner fone fone; corner fzero fone];
     mNormals := Some [corner fzero fzero; corner fzero fzero;
                       corner fzero fzero; corner fzero fzero];
     mTextureCoords0 := None;
     mColors0 := None;
     mNumBones := 0;
     mFaces := faces;
     mMaterialIndex := 0 |}.

(** The square as two triangles, and as a triangle and a quad. *)
Definition two_triangles : aiMesh :=
  square [ {| mIndices := [0; 1; 2] |}; {| mIndices := [0; 2; 3] |} ].
Definition triangle_and_quad : aiMesh :=
  square [ {| mIndices := [0; 1; 2] |}; {| mIndices := [0; 1; 2; 3] |} ].
(** A line segment, as Assimp leaves it when it triangulates. *)
Definition segment : aiFace := {| mIndices := [7; 8] |}.

Definition scene_of (mesh : aiMesh) : aiScene :=
  {| mMeshes := [mesh]; mMaterials := [grey];
     mRootNode := Build_aiNode mat_identity "root" [0%nat] [] |}.

(** No model file can be read. *)
Definition no_files : Assimp := {| ReadFile := λ _, None |}.

(** The world of [world1] after the script has unbound [update]. *)
Definition state2 : lua_State :=
  {| stack := [];
     globals := {[ "entity_translate" := LCFunction CF_entity_translate ]} |}.

Definition world2 : world :=
  {| heap := heap world1; lua_states := {[ 4%N := state2 ]}; next_addr := 4%N;
     gl := gl0; cerr := []; cout := []; pcalls := [] |}.

(** A context that carries GL_INVALID_ENUM from an earlier call. *)
Definition gl_stale : gl_context :=
  {| gl_last_name := 0; gl_vertex_array_binding := 0;
     gl_array_buffer_binding := 0; gl_element_array_buffer_binding := 0;
     gl_buffer_size := ∅; gl_attrib_pointers := []; gl_enabled_attribs := [];
     gl_error := 1280 |}.

Definition world_stale : world :=
  {| heap := heap world0; lua_states := ∅; next_addr := 3%N; gl := gl_stale;
     cerr := []; cout := []; pcalls := [] |}.

(** A triangle with a colour per vertex and nothing else. *)
Definition red : aiColor4D := {| c4_r := fone; c4_g := fzero; c4_b := fzero; c4_a := fone |}.

Definition coloured : aiMesh :=
  {| mName := "coloured";
     mVertices := [corner fzero fzero; corner fone fzero; corner fone fone];
     mNormals := None;
     mTextureCoords0 := None;
     mColors0 := Some [red; red; red];
     mNumBones := 0;
     mFaces := [ {| mIndices := [0; 1; 2] |} ];
     mMaterialIndex := 0 |}.

(** A triangle whose material index is past the one material of the
    scene. *)
Definition stray : aiMesh :=
  {| mName := "stray";
     mVertices := [corner fzero fzero; corner fone fzero; corner fone fone];
     mNormals := None;
     mTextureCoords0 := None;
     mColors0 := None;
     mNumBones := 0;
     mFaces := [ {| mIndices := [0; 1; 2] |} ];
     mMaterialIndex := 5 |}.

(** Two points joined by a line. *)
Definition wire : aiMesh :=
  {| mName := "wire";
     mVertices := [corner fzero fzero; corner fone fzero];
     mNormals := None;
     mTextureCoords0 := None;
     mColors0 := None;
     mNumBones := 0;
     mFaces := [ {| mIndices := [0; 1] |} ];
     mMaterialIndex := 0 |}.

(** A matrix that is not symmetric: the identity with 1 at row 0,
    column 3. *)
Definition shift : aiMatrix4x4 :=
  [# [# fone; fzero; fzero; fone];
     [# fzero; fone; fzero; fzero];
     [# fzero; fzero; fone; fzero];
     [# fzero; fzero; fzero; fone] ].

(** A root with two children, for a scene of two meshes; and a root that
    names a third mesh. *)
Definition tree : aiNode :=
  Build_aiNode mat_identity "root" [0%nat]
    [ Build_aiNode shift "wheel" [1%nat; 0%nat] [];
      Build_aiNode mat_identity "hub" [] [] ].

Definition tree_astray : aiNode :=
  Build_aiNode mat_identity "root" [0%nat]
    [ Build_aiNode shift "wheel" [2%nat] [] ].

Definition car : aiScene :=
  {| mMeshes := [two_triangles; triangle_and_quad]; mMaterials := [grey];
     mRootNode := tree |}.

Definition wired : aiScene :=
  {| mMeshes := [two_triangles; wire]; mMaterials := [grey];
     mRootNode := Build_aiNode mat_identity "root" [0%nat; 1%nat] [] |}.

(** Two model files can be read. *)
Definition model_files : Assimp :=
  {| ReadFile := λ path,
       if String.eqb path "data/models/car.obj" then Some car
       else if String.eqb path "data/models/wired.obj" then Some wired
       else None |}.

End Scenario.
(* ===================================================================== *)
(** * Running computations: equations for the primitives *)
(* ===================================================================== *)


Lemma bind_run {A B} (m : M A) (f : A → M B) w :
  (m ≫= f) w =
  match m w with
  | Done a w' => f a w'
  | AssertFailed w' => AssertFailed w'
  | Fault => Fault
  end.
Proof. reflexivity. Qed.

(** One step of a computation: expose the next call, rewrite it with its
    equation, and reduce the continuation. *)
Tactic Notation "mstep" uconstr(lem) :=
  rewrite ?bind_run; erewrite lem; cbn beta iota zeta.

Lemma world_eta w :
  {| heap := heap w; lua_states := lua_states w; next_addr := next_addr w;
     gl := gl w; cerr := cerr w; cout := cout w; pcalls := pcalls w |} = w.
Proof. by destruct w. Qed.

Lemma live_with_state L s w : live L s (with_state L s w).
Proof. apply lookup_insert_eq. Qed.

Lemma with_state_id L s w : live L s w → with_state L s w = w.
Proof.
  unfold live, with_state, upd_lua_states. intros HL.
  rewrite (insert_id _ _ _ HL). apply world_eta.
Qed.

Lemma with_state_twice L s1 s2 w :
  with_state L s2 (with_state L s1 w) = with_state L s2 w.
Proof. unfold with_state, upd_lua_states. simpl. by rewrite insert_insert_eq. Qed.

Lemma for_each_cerr_put l w :
  for_each l cerr_put w = Done () (upd_cerr (λ c, c ++ l) w).
Proof.
  revert w. induction l as [|a l IH]; intros w.
  - unfold upd_cerr. rewrite app_nil_r. by rewrite world_eta.
  - change (for_each (a :: l) cerr_put w)
      with (for_each l cerr_put (upd_cerr (λ c, c ++ [a]) w)).
    rewrite IH. unfold upd_cerr. simpl. by rewrite <- app_assoc.
Qed.

Lemma deref_run p o w :
  heap w !! p = Some o → p ≠ nullptr → deref p w = Done o w.
Proof.
  intros Hp Hn. unfold deref. rewrite Hp.
  destruct (N.eqb_spec p nullptr) as [->|_]; [done|reflexivity].
Qed.

Lemma deref_frame_params_run p fp w :
  heap w !! p = Some (OFrameParams fp) → p ≠ nullptr →
  deref_frame_params p w = Done fp w.
Proof.
  intros Hp Hn. unfold deref_frame_params.
  by rewrite bind_run, (deref_run _ _ _ Hp Hn).
Qed.

Lemma deref_entity_run p e w :
  heap w !! p = Some (OEntity e) → p ≠ nullptr → deref_entity p w = Done e w.
Proof.
  intros Hp Hn. unfold deref_entity. by rewrite bind_run, (deref_run _ _ _ Hp Hn).
Qed.

Lemma deref_lua_component_run p c w :
  heap w !! p = Some (OLuaComponent c) → p ≠ nullptr →
  deref_lua_component p w = Done c w.
Proof.
  intros Hp Hn. unfold deref_lua_component.
  by rewrite bind_run, (deref_run _ _ _ Hp Hn).
Qed.

Section RunLua.
Context `{!LuaRuntime}.
Implicit Types (L : N) (s : lua_State) (w : world).

Lemma get_state_run L s w : live L s w → get_state L w = Done s w.
Proof. unfold live, get_state. by intros ->. Qed.

Lemma put_state_run L s w : put_state L s w = Done () (with_state L s w).
Proof. reflexivity. Qed.

Lemma set_stack_run L s w st :
  live L s w →
  set_stack L st w = Done () (with_state L {| stack := st; globals := globals s |} w).
Proof. intros HL. unfold set_stack. by mstep (get_state_run _ _ _ HL). Qed.

Lemma push_run L s w v :
  live L s w →
  push L v w
  = Done () (with_state L {| stack := stack s ++ [v]; globals := globals s |} w).
Proof.
  intros HL. unfold push. mstep (get_state_run _ _ _ HL).
  by rewrite (set_stack_run _ _ _ _ HL).
Qed.

Lemma lua_gettop_run L s w :
  live L s w → lua_gettop L w = Done (Z.of_nat (length (stack s))) w.
Proof. intros HL. unfold lua_gettop. by mstep (get_state_run _ _ _ HL). Qed.

Lemma lua_getglobal_run L s w name :
  live L s w →
  lua_getglobal L name w
  = Done () (with_state L {| stack := stack s ++ [default LNil (globals s !! name)];
                            globals := globals s |} w).
Proof.
  intros HL. unfold lua_getglobal. mstep (get_state_run _ _ _ HL).
  by rewrite (push_run _ _ _ _ HL).
Qed.

Lemma lua_isfunction_run L s w idx :
  live L s w →
  lua_isfunction L idx w
  = Done (match index2value s idx with
          | Some (LFunction _) | Some (LCFunction _) => 1
          | _ => 0
          end) w.
Proof. intros HL. unfold lua_isfunction. by mstep (get_state_run _ _ _ HL). Qed.

Lemma lua_touserdata_run L s w idx :
  live L s w →
  lua_touserdata L idx w
  = Done (match index2value s idx with
          | Some (LLightUserdata p) | Some (LUserdata p) => p
          | _ => nullptr
          end) w.
Proof. intros HL. unfold lua_touserdata. by mstep (get_state_run _ _ _ HL). Qed.

Lemma lua_tonumber_run L s w idx :
  live L s w →
  lua_tonumber L idx w
  = Done (match index2value s idx with
          | Some (LNumber n) => n
          | Some (LString str) => default dzero (str2number str)
          | _ => dzero
          end) w.
Proof. intros HL. unfold lua_tonumber. by mstep (get_state_run _ _ _ HL). Qed.

Lemma lua_tostring_run L s w idx :
  live L s w →
  lua_tostring L idx w
  = Done (match index2value s idx with
          | Some (LString str) => Some str
          | Some (LNumber n) => Some (number2str n)
          | _ => None
          end) w.
Proof. intros HL. unfold lua_tostring. by mstep (get_state_run _ _ _ HL). Qed.

Lemma lua_register_run L s w name f :
  live L s w →
  lua_register L name f w
  = Done () (with_state L {| stack := stack s;
                            globals := <[name := LCFunction f]> (globals s) |} w).
Proof. intros HL. unfold lua_register. by mstep (get_state_run _ _ _ HL). Qed.

Lemma lua_close_run L s w :
  live L s w → lua_close L w = Done () (upd_lua_states (delete L) w).
Proof. intros HL. unfold lua_close. by mstep (get_state_run _ _ _ HL). Qed.

(** Calling a C function value: the callee runs on the arguments, its
    last [n] stack slots are the results, the caller's stack comes back. *)
Lemma call_cfunction_run code L s w cf args n s1 w1 :
  live L s w →
  code cf L (with_state L {| stack := args; globals := globals s |} w) = Done n w1 →
  live L s1 w1 →
  0 ≤ n ≤ Z.of_nat (length (stack s1)) →
  call_value code L (LCFunction cf) args w
  = Done (Returned (drop (length (stack s1) - Z.to_nat n) (stack s1)))
         (with_state L {| stack := stack s; globals := globals s1 |} w1).
Proof.
  intros HL Hrun HL1 Hn. unfold call_value.
  mstep (get_state_run _ _ _ HL). mstep (set_stack_run _ _ _ args HL).
  mstep Hrun. mstep (get_state_run _ _ _ HL1).
  mstep (set_stack_run _ _ _ (stack s) HL1).
  destruct (Z.ltb_spec n 0); [lia|].
  destruct (Z.ltb_spec (Z.of_nat (length (stack s1))) n); [lia|]. reflexivity.
Qed.

(** A C function that claims more results than its stack holds. *)
Lemma call_cfunction_short code L s w cf args n s1 w1 :
  live L s w →
  code cf L (with_state L {| stack := args; globals := globals s |} w) = Done n w1 →
  live L s1 w1 →
  Z.of_nat (length (stack s1)) < n →
  call_value code L (LCFunction cf) args w = Fault.
Proof.
  intros HL Hrun HL1 Hn. unfold call_value.
  mstep (get_state_run _ _ _ HL). mstep (set_stack_run _ _ _ args HL).
  mstep Hrun. mstep (get_state_run _ _ _ HL1).
  mstep (set_stack_run _ _ _ (stack s) HL1).
  destruct (Z.ltb_spec (Z.of_nat (length (stack s1))) n); [|lia].
  by rewrite orb_true_r.
Qed.

End RunLua.

(* ===================================================================== *)
(** * The registered C functions *)
(* ===================================================================== *)


Lemma lua_State_eta s : {| stack := stack s; globals := globals s |} = s.
Proof. by destruct s. Qed.

Lemma land_pow2_eqb (m i : Z) :
  0 ≤ i → (Z.land m (2 ^ i) =? 0) = negb (Z.testbit m i).
Proof.
  intros Hi. destruct (Z.testbit m i) eqn:Hb; simpl.
  - apply Z.eqb_neq. intros H0.
    assert (Z.testbit (Z.land m (2 ^ i)) i = true) as Ht
      by (rewrite Z.land_spec, Hb, Z.pow2_bits_true; auto).
    rewrite H0, Z.bits_0 in Ht. discriminate.
  - apply Z.eqb_eq. apply Z.bits_inj'. intros n Hn.
    rewrite Z.land_spec, Z.bits_0.
    destruct (Z.eq_dec n i) as [->|Hne].
    + by rewrite Hb.
    + rewrite (Z.pow2_bits_false i n) by auto. apply andb_false_r.
Qed.

Section Natives.
Context `{!EngineDecls, !LuaRuntime}.
Import ga_lua_component.
Implicit Types (L : N) (s : lua_State) (w : world).

Lemma restore_after_cerr L s s0 f w :
  live L s w →
  with_state L {| stack := stack s; globals := globals s |}
             (upd_cerr f (with_state L s0 w))
  = upd_cerr f w.
Proof.
  intros HL. rewrite lua_State_eta.
  change (upd_cerr f (with_state L s (with_state L s0 w)) = upd_cerr f w).
  by rewrite with_state_twice, (with_state_id _ _ _ HL).
Qed.

Lemma restore_after_heap L s s0 f w :
  live L s w →
  with_state L {| stack := stack s; globals := globals s |}
             (upd_heap f (with_state L s0 w))
  = upd_heap f w.
Proof.
  intros HL. rewrite lua_State_eta.
  change (upd_heap f (with_state L s (with_state L s0 w)) = upd_heap f w).
  by rewrite with_state_twice, (with_state_id _ _ _ HL).
Qed.

(** Any of the four functions, run on a stack whose height is not the one
    it expects: one line on [std::cerr], nothing else, and the number of
    results it always declares. *)
Lemma mismatch_run f L s w :
  live L s w →
  Z.of_nat (length (stack s)) ≠ expected_arguments f →
  code f L w
  = Done (declared_results f)
         (upd_cerr (λ c, c ++ [mismatch_diagnostic f (Z.of_nat (length (stack s)))]) w).
Proof.
  intros HL Hne.
  destruct f; simpl in Hne |- *;
    [ unfold lua_frame_params_get_input_left
    | unfold lua_frame_params_get_input_right
    | unfold lua_component_get_entity
    | unfold lua_entity_translate ];
    mstep (lua_gettop_run _ _ _ HL);
    match goal with
    | |- context [?a =? ?b] => destruct (Z.eqb_spec a b) as [Heq|_]
    end; (by destruct Hne) || reflexivity.
Qed.

Lemma get_input_left_run L s w p fp :
  live L s w → stack s = [LLightUserdata p] →
  heap w !! p = Some (OFrameParams fp) → p ≠ nullptr →
  lua_frame_params_get_input_left L w
  = Done 1 (with_state L
              {| stack := [LLightUserdata p;
                           LBoolean (negb (Z.land (_button_mask fp) k_button_j =? 0))];
                 globals := globals s |} w).
Proof.
  intros HL Hs Hp Hn. unfold lua_frame_params_get_input_left.
  mstep (lua_gettop_run _ _ _ HL). rewrite Hs. simpl.
  mstep (lua_touserdata_run _ _ _ 1 HL).
  unfold index2value. rewrite Hs. simpl.
  mstep (deref_frame_params_run _ _ _ Hp Hn).
  unfold lua_pushboolean. mstep (push_run _ _ _ _ HL). by rewrite Hs.
Qed.

Lemma get_input_right_run L s w p fp :
  live L s w → stack s = [LLightUserdata p] →
  heap w !! p = Some (OFrameParams fp) → p ≠ nullptr →
  lua_frame_params_get_input_right L w
  = Done 1 (with_state L
              {| stack := [LLightUserdata p;
                           LBoolean (negb (Z.land (_button_mask fp) k_button_l =? 0))];
                 globals := globals s |} w).
Proof.
  intros HL Hs Hp Hn. unfold lua_frame_params_get_input_right.
  mstep (lua_gettop_run _ _ _ HL). rewrite Hs. simpl.
  mstep (lua_touserdata_run _ _ _ 1 HL).
  unfold index2value. rewrite Hs. simpl.
  mstep (deref_frame_params_run _ _ _ Hp Hn).
  unfold lua_pushboolean. mstep (push_run _ _ _ _ HL). by rewrite Hs.
Qed.

Lemma entity_translate_run L s w p dx dy dz e :
  live L s w →
  stack s = [LLightUserdata p; LNumber dx; LNumber dy; LNumber dz] →
  heap w !! p = Some (OEntity e) → p ≠ nullptr →
  lua_entity_translate L w
  = Done 0 (upd_heap (<[p := OEntity (translate e (delta dx dy dz))]>) w).
Proof.
  intros HL Hs Hp Hn. unfold lua_entity_translate.
  mstep (lua_gettop_run _ _ _ HL). rewrite Hs. simpl.
  mstep (lua_touserdata_run _ _ _ 1 HL).
  mstep (lua_tonumber_run _ _ _ 2 HL).
  mstep (lua_tonumber_run _ _ _ 3 HL).
  mstep (lua_tonumber_run _ _ _ 4 HL).
  unfold index2value. rewrite Hs. simpl.
  mstep (deref_entity_run _ _ _ Hp Hn). reflexivity.
Qed.

Lemma position_translate e d : position (translate e d) = vec3_add (position e) d.
Proof.
  unfold position, translate, mat_get, mat_set. simpl.
  destruct (_transform e) as [r0 m] using vec_S_inv.
  destruct m as [r1 m] using vec_S_inv.
  destruct m as [r2 m] using vec_S_inv.
  destruct m as [r3 m] using vec_S_inv.
  destruct r3 as [a0 r3] using vec_S_inv.
  destruct r3 as [a1 r3] using vec_S_inv.
  destruct r3 as [a2 r3] using vec_S_inv.
  reflexivity.
Qed.

End Natives.

Section NativeCalls.
Context `{!EngineDecls, !LuaRuntime}.
Import ga_lua_component.
Implicit Types (L : N) (s : lua_State) (w : world).

(** A call with the wrong number of arguments, as the caller sees it when
    the function declares no result: the diagnostic, and nothing else. *)
Lemma mismatch_call_entity_translate L s w args :
  live L s w →
  Z.of_nat (length args) ≠ 4 →
  call_value code L (LCFunction CF_entity_translate) args w
  = Done (Returned [])
         (upd_cerr (λ c, c ++ [mismatch_diagnostic CF_entity_translate
                                 (Z.of_nat (length args))]) w).
Proof.
  intros HL Hne.
  erewrite call_cfunction_run;
    [ | exact HL
      | apply (mismatch_run CF_entity_translate);
          [apply live_with_state | exact Hne]
      | apply live_with_state
      | simpl; lia ].
  simpl. rewrite Nat.sub_0_r, drop_all. f_equal.
  apply (restore_after_cerr _ _ _ _ _ HL).
Qed.

(** C7.  Called with exactly one argument, a pointer to a frame-parameters
    record, [frame_params_get_input_left] returns the boolean
    [(_button_mask & k_button_j) != 0] and [frame_params_get_input_right]
    the boolean [(_button_mask & k_button_l) != 0], and the call changes
    nothing.  When the constant is the single bit [2^i], that boolean is bit
    [i] of the mask. *)
Theorem frame_params_get_input_reads_button_bit L s w p fp :
  live L s w →
  heap w !! p = Some (OFrameParams fp) →
  p ≠ nullptr →
  call_value code L (LCFunction CF_frame_params_get_input_left) [LLightUserdata p] w
    = Done (Returned [LBoolean (negb (Z.land (_button_mask fp) k_button_j =? 0))]) w
  ∧ call_value code L (LCFunction CF_frame_params_get_input_right) [LLightUserdata p] w
    = Done (Returned [LBoolean (negb (Z.land (_button_mask fp) k_button_l =? 0))]) w
  ∧ (∀ i, 0 ≤ i → k_button_j = 2 ^ i →
       negb (Z.land (_button_mask fp) k_button_j =? 0) = Z.testbit (_button_mask fp) i)
  ∧ (∀ i, 0 ≤ i → k_button_l = 2 ^ i →
       negb (Z.land (_button_mask fp) k_button_l =? 0) = Z.testbit (_button_mask fp) i).
Proof.
  intros HL Hp Hn. repeat split.
  - erewrite call_cfunction_run;
      [ | exact HL
        | eapply (get_input_left_run _ _ _ p fp);
            [apply live_with_state | reflexivity | exact Hp | exact Hn]
        | apply live_with_state
        | simpl; lia ].
    simpl. f_equal. rewrite !with_state_twice, lua_State_eta.
    apply (with_state_id _ _ _ HL).
  - erewrite call_cfunction_run;
      [ | exact HL
        | eapply (get_input_right_run _ _ _ p fp);
            [apply live_with_state | reflexivity | exact Hp | exact Hn]
        | apply live_with_state
        | simpl; lia ].
    simpl. f_equal. rewrite !with_state_twice, lua_State_eta.
    apply (with_state_id _ _ _ HL).
  - intros i Hi ->. rewrite land_pow2_eqb by done. apply negb_involutive.
  - intros i Hi ->. rewrite land_pow2_eqb by done. apply negb_involutive.
Qed.

(** C2.  [entity_translate] called with an entity pointer and three
    numbers replaces the entity by [translate] of it, whose position is the
    old position plus the three numbers converted to [float]; the call
    changes nothing else and writes no diagnostic.  Called with any other
    number of arguments it leaves every object as it was and writes one
    line to [std::cerr]. *)
Theorem entity_translate_moves_or_reports L s w p e dx dy dz args :
  live L s w →
  heap w !! p = Some (OEntity e) →
  p ≠ nullptr →
  Z.of_nat (length args) ≠ 4 →
  call_value code L (LCFunction CF_entity_translate)
             [LLightUserdata p; LNumber dx; LNumber dy; LNumber dz] w
    = Done (Returned [])
           (upd_heap (<[p := OEntity (translate e (delta dx dy dz))]>) w)
  ∧ position (translate e (delta dx dy dz)) = vec3_add (position e) (delta dx dy dz)
  ∧ ∃ w', call_value code L (LCFunction CF_entity_translate) args w
          = Done (Returned []) w'
        ∧ heap w' = heap w
        ∧ cerr w' = cerr w ++ ["Function entity_translate expected 4 arguments but got "
                               +:+ pretty (Z.of_nat (length args)) +:+ "." +:+ endl]
        ∧ lua_states w' = lua_states w.
Proof.
  intros HL Hp Hn Hargs. split; [|split].
  - erewrite call_cfunction_run;
      [ | exact HL
        | eapply (entity_translate_run _ _ _ p dx dy dz e);
            [apply live_with_state | reflexivity | exact Hp | exact Hn]
        | apply live_with_state
        | simpl; lia ].
    simpl. f_equal. apply (restore_after_heap _ _ _ _ _ HL).
  - apply position_translate.
  - eexists. split; [apply (mismatch_call_entity_translate _ _ _ _ HL Hargs)|].
    by repeat split.
Qed.

(** C5 (the three one-argument functions).  Called with two or more
    arguments they write the diagnostic and declare one result without
    having pushed any: what the script receives is the last argument of
    its own call.  Called with no argument, the declared result does not
    exist on the stack. *)
Theorem mismatch_returns_last_argument f L s w args a :
  live L s w →
  f ≠ CF_entity_translate →
  args ≠ [] →
  call_value code L (LCFunction f) (args ++ [a]) w
    = Done (Returned [a])
           (upd_cerr (λ c, c ++ [mismatch_diagnostic f (Z.of_nat (length (args ++ [a])))]) w)
  ∧ call_value code L (LCFunction f) [] w = Fault.
Proof.
  intros HL Hf Hargs. split.
  - assert (Z.of_nat (length (args ++ [a])) ≠ expected_arguments f) as Hne.
    { rewrite length_app. destruct args; [done|].
      destruct f; try done; simpl; lia. }
    erewrite call_cfunction_run;
      [ | exact HL
        | apply mismatch_run; [apply live_with_state | exact Hne]
        | apply live_with_state
        | destruct f; try done; simpl; rewrite ?length_app; simpl; lia ].
    f_equal.
    + f_equal. simpl stack. replace (Z.to_nat (declared_results f)) with 1%nat
        by (by destruct f).
      rewrite length_app. simpl. rewrite Nat.add_sub. by rewrite drop_app_length.
    + apply (restore_after_cerr _ _ _ _ _ HL).
  - eapply call_cfunction_short;
      [ exact HL
      | apply mismatch_run; [apply live_with_state | by destruct f]
      | apply live_with_state
      | destruct f; try done; simpl; lia ].
Qed.

End NativeCalls.

(* ===================================================================== *)
(** * The scripting component *)
(* ===================================================================== *)

Ltac solve_live :=
  lazymatch goal with
  | |- live _ _ _ =>
      unfold live, with_state; simpl; rewrite ?lookup_insert_eq; reflexivity
  | |- stack _ = _ => cbn [stack]; rewrite <- ?app_assoc; reflexivity
  end.

(** As [mstep], for an equation whose premise is that the state is live. *)
Tactic Notation "lstep" uconstr(lem) :=
  rewrite ?bind_run; erewrite lem by solve_live;
  cbn beta iota zeta delta [negb orb stack globals].

Lemma world_ext w1 w2 :
  heap w1 = heap w2 → lua_states w1 = lua_states w2 →
  next_addr w1 = next_addr w2 → gl w1 = gl w2 → cerr w1 = cerr w2 →
  cout w1 = cout w2 → pcalls w1 = pcalls w2 → w1 = w2.
Proof. destruct w1, w2; simpl; by intros -> -> -> -> -> -> ->. Qed.

(** Closes an equation between two syntactically equal terms, and only
    that. *)
Ltac same :=
  lazymatch goal with
  | |- ?a = ?b => first [ constr_eq a b; exact eq_refl | fail 1 "differ:" a "and" b ]
  end.

(** Two worlds built by updates of the same world are equal field by
    field, up to overwritten interpreter states and objects. *)
Ltac solve_world :=
  lazymatch goal with
  | |- Done _ _ = Done _ _ => apply (f_equal (Done _))
  | |- AssertFailed _ = AssertFailed _ => apply (f_equal AssertFailed)
  | |- _ => idtac
  end;
  apply world_ext;
  cbn [heap lua_states next_addr gl cerr cout pcalls stack globals
       after_call with_state upd_lua_states upd_heap upd_cerr upd_cout
       upd_pcalls upd_next_addr upd_gl];
  rewrite ?insert_insert_eq, ?delete_insert_eq, <- ?app_assoc; same.

Section Component.
Context `{!EngineDecls, !LuaRuntime}.
Import ga_lua_component.
Implicit Types (L : N) (s : lua_State) (w : world).

Lemma luaL_newstate_run w :
  luaL_newstate w
  = Done (new_state w)
         (with_state (new_state w) {| stack := []; globals := ∅ |}
                     (upd_next_addr N.succ w)).
Proof. reflexivity. Qed.

Lemma luaL_openlibs_run L s w :
  live L s w →
  luaL_openlibs L w
  = Done () (with_state L {| stack := stack s; globals := lua_stdlib ∪ globals s |} w).
Proof. intros HL. unfold luaL_openlibs. by mstep (get_state_run _ _ _ HL). Qed.

Lemma luaL_loadfile_run L s w filename :
  live L s w →
  luaL_loadfile L filename w
  = match load_chunk filename with
    | Loaded c =>
        Done LUA_OK (with_state L {| stack := stack s ++ [LFunction c];
                                     globals := globals s |} w)
    | LoadFailed e msg =>
        Done (status_of e) (with_state L {| stack := stack s ++ [LString msg];
                                            globals := globals s |} w)
    end.
Proof.
  intros HL. unfold luaL_loadfile.
  destruct (load_chunk filename); by mstep (push_run _ _ _ _ HL).
Qed.

Lemma status_of_nonzero e : (status_of e =? 0) = false.
Proof. by destruct e. Qed.

Lemma lua_pop_run L s w st v :
  live L s w → stack s = st ++ [v] →
  lua_pop L 1 w = Done () (with_state L {| stack := st; globals := globals s |} w).
Proof.
  intros HL Hs. unfold lua_pop. mstep (get_state_run _ _ _ HL).
  rewrite Hs, length_app. simpl.
  destruct (Nat.ltb_spec (length st + 1) 1); [lia|].
  mstep (set_stack_run _ _ _ _ HL).
  by rewrite Nat.add_sub, take_app_length.
Qed.

(** lua_pcall on a function of the script. *)
Lemma lua_pcall_function_run L s w base c args nresults :
  live L s w →
  stack s = base ++ LFunction c :: args →
  lua_pcall code L (length args) nresults w
  = let r := run_function c args (globals s) (heap w) in
    match rr_outcome r with
    | Returned vs =>
        Done LUA_OK (after_call L (LFunction c) args r (base ++ adjust nresults vs) w)
    | Raised e err =>
        Done (status_of e) (after_call L (LFunction c) args r (base ++ [err]) w)
    | Crashed => Fault
    end.
Proof.
  intros HL Hs. unfold lua_pcall. mstep (get_state_run _ _ _ HL).
  rewrite Hs, length_app, length_cons.
  destruct (Nat.ltb_spec (length base + S (length args)) (length args + 1)); [lia|].
  replace (length base + S (length args) - length args - 1)%nat
    with (length base) by lia.
  rewrite take_app_length, drop_app_length.
  mstep (set_stack_run _ _ _ _ HL).
  rewrite bind_run. unfold log_pcall at 1. cbn beta iota.
  unfold call_value.
  lstep get_state_run. rewrite bind_run. unfold get_world at 1. cbn beta iota.
  rewrite bind_run. unfold set_heap at 1. cbn beta iota.
  rewrite bind_run, for_each_cerr_put. cbn beta iota.
  rewrite bind_run, put_state_run. cbn beta iota.
  unfold mret at 1, M_ret at 1.
  cbn [heap upd_pcalls with_state upd_lua_states globals].
  destruct (rr_outcome (run_function c args (globals s) (heap w))) as [vs|e err|].
  - lstep get_state_run. lstep set_stack_run.
    unfold mret, M_ret. solve_world.
  - lstep push_run. unfold mret, M_ret. solve_world.
  - reflexivity.
Qed.

Lemma isfunction_top1 v g :
  match index2value {| stack := [v]; globals := g |} 1 with
  | Some (LFunction _) | Some (LCFunction _) => 1
  | _ => 0
  end = if is_function v then 1 else 0.
Proof. by destruct v. Qed.

Lemma isfunction_top2 e v g :
  match index2value {| stack := [e; v]; globals := g |} 2 with
  | Some (LFunction _) | Some (LCFunction _) => 1
  | _ => 0
  end = if is_function v then 1 else 0.
Proof. by destruct v. Qed.

(** The part of the constructor after the protected call. *)
Ltac ctor_tail :=
  unfold after_call at 1;
  lstep lua_getglobal_run;
  lstep lua_gettop_run; lstep lua_isfunction_run;
  cbn [app length];
  change (Z.of_nat 1) with 1; change (Z.of_nat 2) with 2;
  rewrite ?isfunction_top1, ?isfunction_top2; cbn [Z.eqb orb];
  match goal with
  | |- context [is_function ?v] => destruct (is_function v)
  end; cbn [Z.eqb]; 
  [ rewrite ?bind_run;
    first [ erewrite (lua_pop_run _ _ _ [] _) by solve_live
          | erewrite (lua_pop_run _ _ _ [_] _) by solve_live ];
    cbn beta iota zeta delta [stack globals];
    lstep lua_register_run; lstep lua_register_run;
    lstep lua_register_run; lstep lua_register_run;
    unfold after_top_level, registered; cbn [leftover]; solve_world
  | rewrite bind_run; unfold cerr_put at 1; cbn beta iota;
    lstep lua_close_run;
    unfold set_heap, abandon, after_top_level, missing_update_diagnostic;
    solve_world ].

Lemma ctor_run this ent path w : ctor this ent path w = ctor_result this ent path w.
Proof.
  unfold ctor, ctor_result.
  mstep luaL_newstate_run. unfold set__lua, store.
  rewrite bind_run. unfold set_heap at 1. cbn beta iota.
  lstep luaL_openlibs_run.
  lstep luaL_loadfile_run.
  destruct (load_chunk (g_root_path +:+ path)) as [c|e msg]; cbn beta iota.
  - (* the file loaded *)
    change (LUA_OK =? 0) with true. cbn [negb].
    rewrite bind_run.
    erewrite (lua_pcall_function_run _ _ _ [] c [] 0) by solve_live.
    cbn beta iota zeta delta [stack globals heap upd_heap with_state upd_lua_states
                                upd_next_addr].
    fold (new_state w). fold (top_level this ent w c).
    unfold update_after.
    destruct (rr_outcome (top_level this ent w c)) as [vs|e err|] eqn:Ho;
      [ | | reflexivity ].
    + change (adjust 0 vs) with (@nil lua_value). ctor_tail.
    + ctor_tail.
  - (* the file did not load *)
    rewrite status_of_nonzero. cbn [negb].
    lstep lua_tostring_run.
    change (index2value _ (-1)) with (Some (LString msg)).
    cbn beta iota. unfold cerr_put_cstr, cerr_put.
    rewrite bind_run. cbn beta iota.
    lstep lua_close_run. unfold set_heap, abandon, load_diagnostic.
    solve_world.
Qed.

Lemma update_disabled this ent params w :
  this ≠ nullptr → disabled this ent w → update this params w = Done () w.
Proof.
  intros Hthis Hd. unfold update.
  by mstep (deref_lua_component_run _ _ _ Hd Hthis).
Qed.

Lemma frames_disabled this ent (frames : list N) w :
  this ≠ nullptr → disabled this ent w →
  for_each frames (update this) w = Done () w.
Proof.
  intros Hthis Hd. induction frames as [|params frames IH]; [reflexivity|].
  change (for_each (params :: frames) (update this) w)
    with ((update this params ≫= λ _, for_each frames (update this)) w).
  by rewrite bind_run, (update_disabled _ _ _ _ Hthis Hd).
Qed.

(** What one frame of an enabled component computes when the global
    [update] is a function of the script. *)
Lemma update_run this ent L s params w c :
  this ≠ nullptr → L ≠ nullptr →
  heap w !! this = Some (OLuaComponent {| _entity := ent; _lua := L |}) →
  live L s w →
  globals s !! "update" = Some (LFunction c) →
  update this params w
  = let args := [LLightUserdata this; LLightUserdata params] in
    let r := run_function c args (globals s) (heap w) in
    match rr_outcome r with
    | Returned vs => Done () (after_call L (LFunction c) args r (stack s) w)
    | Raised e err =>
        report_and_abort err (after_call L (LFunction c) args r (stack s ++ [err]) w)
    | Crashed => Fault
    end.
Proof.
  intros Hthis HL0 Hc HL Hu. unfold update.
  mstep (deref_lua_component_run _ _ _ Hc Hthis). cbn [_lua].
  destruct (N.eqb_spec L nullptr) as [->|_]; [done|]. cbn [negb].
  mstep (lua_getglobal_run _ _ _ _ HL). rewrite Hu. cbn [default].
  unfold lua_pushlightuserdata. lstep push_run. lstep push_run.
  rewrite bind_run.
  erewrite (lua_pcall_function_run _ _ _ (stack s) c
              [LLightUserdata this; LLightUserdata params] 0)
    by solve_live.
  cbn beta iota zeta delta [stack globals heap with_state upd_lua_states].
  destruct (rr_outcome (run_function c [LLightUserdata this; LLightUserdata params]
                          (globals s) (heap w))) as [vs|e err|]; [ | | reflexivity ].
  - change (adjust 0 vs) with (@nil lua_value). rewrite app_nil_r.
    cbn [LUA_OK Z.eqb negb]. unfold mret, M_ret. solve_world.
  - rewrite status_of_nonzero. cbn [negb].
    unfold after_call at 1. lstep lua_tostring_run.
    replace (index2value {| stack := stack s ++ [err];
                            globals := rr_globals
                              (run_function c [LLightUserdata this; LLightUserdata params]
                                 (globals s) (heap w)) |} (-1))
      with (Some err).
    2:{ unfold index2value. cbn [stack Z.ltb Z.compare]. rewrite length_app. cbn [length].
        destruct (Z.ltb_spec (Z.of_nat (length (stack s) + 1) + -1) 0); [lia|].
        replace (Z.to_nat (Z.of_nat (length (stack s) + 1) + -1))
          with (length (stack s)) by lia.
        by rewrite list_lookup_middle. }
    unfold report_and_abort, after_call.
    destruct err; cbn beta iota; unfold cerr_put_cstr, cerr_put, fault;
      rewrite ?bind_run; try reflexivity; unfold assert_; solve_world.
Qed.

End Component.

Section ComponentClaims.
Context `{!EngineDecls, !LuaRuntime}.
Import ga_lua_component.
Implicit Types (L : N) (s : lua_State) (w : world).

Lemma new_state_nonnull w : new_state w ≠ nullptr.
Proof. unfold new_state, nullptr. lia. Qed.

(** C1.  When the file does not load, or loads and its top-level
    execution leaves no function in the global [update], the constructor
    returns with [_lua] null and the interpreter state it opened closed
    again; from then on [update(params)] returns at once and changes
    nothing, for any sequence of frames. *)
Theorem ctor_without_update_is_disabled this ent path w :
  this ≠ nullptr →
  (∀ c, load_chunk (g_root_path +:+ path) = Loaded c →
        rr_outcome (top_level this ent w c) ≠ Crashed
        ∧ is_function (update_after this ent w c) = false) →
  ∃ w', ctor this ent path w = Done () w'
      ∧ disabled this ent w'
      ∧ lua_states w' = delete (new_state w) (lua_states w)
      ∧ lua_states w' !! new_state w = None
      ∧ ∀ frames : list N, for_each frames (update this) w' = Done () w'.
Proof.
  intros Hthis Hscript. rewrite ctor_run. unfold ctor_result.
  assert (∀ diag w1,
            lua_states w1 = lua_states w →
            let w' := abandon this ent (new_state w) diag w1 in
            disabled this ent w'
            ∧ lua_states w' = delete (new_state w) (lua_states w)
            ∧ lua_states w' !! new_state w = None
            ∧ ∀ frames : list N, for_each frames (update this) w' = Done () w')
    as Hgive.
  { intros diag w1 Hw1 w'.
    assert (disabled this ent w') as Hd by apply lookup_insert_eq.
    split; [exact Hd|]. split; [|split].
    - subst w'. unfold abandon. cbn [lua_states upd_heap upd_lua_states upd_cerr].
      by rewrite Hw1.
    - apply lookup_delete_eq.
    - intros frames. by apply (frames_disabled this ent). }
  destruct (load_chunk (g_root_path +:+ path)) as [c|e msg].
  - destruct (Hscript c eq_refl) as [Hrun Hnf]. rewrite Hnf.
    destruct (rr_outcome (top_level this ent w c)) as [vs|e err|]; [ | |done];
      (eexists; split; [reflexivity|]; by apply Hgive).
  - eexists. split; [reflexivity|]. by apply Hgive.
Qed.

(** C9.  The status of the protected call that runs the chunk is not
    looked at.  Provided the run does not crash the process and leaves the
    component object alone, the constructor returns; the component is
    disabled exactly when the file did not load or the global [update] is
    not a function afterwards; and when the chunk raised an error and
    [update] is a function, the component is enabled, the error object is
    still on the stack, and [std::cerr] holds nothing about the error. *)
Theorem ctor_ignores_top_level_status this ent path w :
  (∀ c, load_chunk (g_root_path +:+ path) = Loaded c →
        rr_outcome (top_level this ent w c) ≠ Crashed
        ∧ rr_heap (top_level this ent w c) !! this
          = Some (OLuaComponent {| _entity := ent; _lua := new_state w |})) →
  ∃ w', ctor this ent path w = Done () w'
    ∧ (disabled this ent w' ↔
         (∃ e msg, load_chunk (g_root_path +:+ path) = LoadFailed e msg)
         ∨ (∃ c, load_chunk (g_root_path +:+ path) = Loaded c
                 ∧ is_function (update_after this ent w c) = false))
    ∧ (∀ c e err,
         load_chunk (g_root_path +:+ path) = Loaded c →
         rr_outcome (top_level this ent w c) = Raised e err →
         is_function (update_after this ent w c) = true →
         enabled this ent (new_state w) w'
         ∧ live (new_state w)
                {| stack := [err];
                   globals := registered (rr_globals (top_level this ent w c)) |} w'
         ∧ cerr w' = cerr w ++ rr_cerr (top_level this ent w c)).
Proof.
  intros Hscript. rewrite ctor_run. unfold ctor_result.
  destruct (load_chunk (g_root_path +:+ path)) as [c|e msg] eqn:Hload.
  - destruct (Hscript c eq_refl) as [Hrun Hkeep].
    destruct (is_function (update_after this ent w c)) eqn:Hf.
    + (* loaded, and [update] is a function *)
      set (o := rr_outcome (top_level this ent w c)) in *.
      exists (with_state (new_state w)
                {| stack := leftover o;
                   globals := registered (rr_globals (top_level this ent w c)) |}
                (after_top_level this ent w c)).
      split; [by destruct o|]. split; [split|].
      * unfold disabled. cbn [heap with_state upd_lua_states after_top_level
                              upd_cerr upd_heap].
        rewrite Hkeep. intros [= Hnull]. by destruct (new_state_nonnull w).
      * intros [(e & msg & [=])|(c' & [= <-] & Hnf)]. congruence.
      * intros c' e err [= <-] Ho _. split; [|split].
        -- split; [apply new_state_nonnull|]. split; [exact Hkeep|].
           eexists. apply live_with_state.
        -- subst o. rewrite Ho. apply live_with_state.
        -- reflexivity.
    + (* loaded, and [update] is not a function *)
      exists (abandon this ent (new_state w) (missing_update_diagnostic path)
                (after_top_level this ent w c)).
      split; [by destruct (rr_outcome (top_level this ent w c))|]. split; [split|].
      * intros _. right. by exists c.
      * intros _. apply lookup_insert_eq.
      * intros c' e err [= <-] _ Hf'. congruence.
  - (* the file did not load *)
    eexists. split; [reflexivity|]. split; [split|].
    + intros _. left. by exists e, msg.
    + intros _. apply lookup_insert_eq.
    + intros c e' err [=].
Qed.

(** A constructor that found a script function in [update] leaves the
    component in the state the per-frame theorem starts from. *)
Lemma ctor_enables_frames this ent path w c0 vs c :
  load_chunk (g_root_path +:+ path) = Loaded c0 →
  rr_outcome (top_level this ent w c0) = Returned vs →
  update_after this ent w c0 = LFunction c →
  rr_heap (top_level this ent w c0) !! this
    = Some (OLuaComponent {| _entity := ent; _lua := new_state w |}) →
  ∃ w' s, ctor this ent path w = Done () w'
        ∧ heap w' !! this = Some (OLuaComponent {| _entity := ent; _lua := new_state w |})
        ∧ live (new_state w) s w'
        ∧ stack s = []
        ∧ globals s !! "update" = Some (LFunction c).
Proof.
  intros Hload Ho Hu Hkeep. rewrite ctor_run. unfold ctor_result.
  rewrite Hload. cbn zeta. rewrite Ho, Hu. cbn [is_function leftover].
  eexists _, _. split; [reflexivity|]. split; [exact Hkeep|].
  split; [apply live_with_state|]. split; [reflexivity|].
  cbn [globals]. unfold registered. rewrite !lookup_insert_ne by done.
  unfold update_after in Hu.
  by destruct (rr_globals (top_level this ent w c0) !! "update") as [v|];
    simpl in Hu; subst.
Qed.

(** C6.  One frame of an enabled component whose global [update] is the
    script function [c]: the value called is the one the global holds in
    the interpreter state of that frame, it is called once, and its two
    arguments are the component pointer and the frame-parameters pointer.
    When the call returns so does [update]; when it raises an error with
    message [msg], the message goes to [std::cerr] and the assertion fails.
    The next frame looks the global up again: if the first call replaced it
    by [c2], it is [c2] that the second frame calls. *)
Theorem update_calls_current_update_once this ent L s params w c :
  this ≠ nullptr → L ≠ nullptr →
  heap w !! this = Some (OLuaComponent {| _entity := ent; _lua := L |}) →
  live L s w →
  globals s !! "update" = Some (LFunction c) →
  let args := [LLightUserdata this; LLightUserdata params] in
  let r := run_function c args (globals s) (heap w) in
  (∀ vs, rr_outcome r = Returned vs →
     ∃ w', update this params w = Done () w'
         ∧ pcalls w' = pcalls w ++ [(LFunction c, args)]
         ∧ live L {| stack := stack s; globals := rr_globals r |} w'
         ∧ heap w' = rr_heap r
         ∧ cerr w' = cerr w ++ rr_cerr r)
  ∧ (∀ e msg, rr_outcome r = Raised e (LString msg) →
     ∃ w', update this params w = AssertFailed w'
         ∧ pcalls w' = pcalls w ++ [(LFunction c, args)]
         ∧ cerr w' = (cerr w ++ rr_cerr r) ++ ["Error: " +:+ msg])
  ∧ (∀ vs c2 params2 vs2,
       rr_outcome r = Returned vs →
       rr_globals r !! "update" = Some (LFunction c2) →
       rr_heap r !! this = Some (OLuaComponent {| _entity := ent; _lua := L |}) →
       let args2 := [LLightUserdata this; LLightUserdata params2] in
       rr_outcome (run_function c2 args2 (rr_globals r) (rr_heap r)) = Returned vs2 →
       ∃ w'', (update this params ≫= λ _, update this params2) w = Done () w''
            ∧ pcalls w'' = pcalls w ++ [(LFunction c, args); (LFunction c2, args2)]).
Proof.
  intros Hthis HL0 Hc HL Hu args r.
  pose proof (update_run this ent L s params w c Hthis HL0 Hc HL Hu) as Hrun.
  cbn zeta in Hrun. fold args in Hrun. fold r in Hrun.
  split; [|split].
  - intros vs Ho. rewrite Ho in Hrun. eexists. split; [exact Hrun|].
    split; [reflexivity|]. split; [apply live_with_state|]. by split.
  - intros e msg Ho. rewrite Ho in Hrun. eexists. split; [exact Hrun|].
    by split.
  - intros vs c2 params2 vs2 Ho Hu2 Hkeep args2 Ho2.
    rewrite Ho in Hrun. rewrite bind_run, Hrun.
    set (w1 := after_call L (LFunction c) args r (stack s) w).
    pose proof (update_run this ent L {| stack := stack s; globals := rr_globals r |}
                  params2 w1 c2 Hthis HL0 Hkeep (live_with_state _ _ _) Hu2) as Hrun2.
    cbn zeta in Hrun2. cbn [globals stack] in Hrun2.
    change (heap w1) with (rr_heap r) in Hrun2. fold args2 in Hrun2.
    rewrite Ho2 in Hrun2. eexists. split; [exact Hrun2|].
    unfold after_call at 1. cbn [pcalls with_state upd_lua_states upd_cerr upd_heap
                                 upd_pcalls w1 after_call].
    by rewrite <- app_assoc.
Qed.

End ComponentClaims.

(* ===================================================================== *)
(** * The mesh builder and the model component *)
(* ===================================================================== *)

(** Unfolds the binds and returns at the head of a computation. *)
Ltac mnorm :=
  repeat first [ rewrite bind_run
               | progress (unfold mret, M_ret)
               | progress cbn beta iota zeta ].

Section MeshLemmas.
Context `{!EngineDecls}.
Import ga_mesh.

Lemma array_read_run {A} (a : list A) i e w :
  a !! i = Some e → array_read a i w = Done e w.
Proof. unfold array_read. by intros ->. Qed.

Lemma array_read_fault {A} (a : list A) i w :
  a !! i = None → array_read a i w = Fault.
Proof. unfold array_read. by intros ->. Qed.

(** A loop whose body only reads. *)
Lemma map_M_reads {A B} (f : A → M B) (l : list A) w :
  (∀ a, a ∈ l → ∃ b, f a w = Done b w) →
  ∃ bs, map_M f l w = Done bs w ∧ length bs = length l.
Proof.
  induction l as [|a l IH]; intros Hf.
  - by exists [].
  - destruct (Hf a) as [b Hb]; [left|].
    destruct IH as (bs & Hbs & Hlen).
    { intros a' Ha'. apply Hf. by right. }
    exists (b :: bs). split; [|simpl; by rewrite Hlen].
    change (map_M f (a :: l) w)
      with ((f a ≫= λ b, map_M f l ≫= λ bs, mret (b :: bs)) w).
    by rewrite bind_run, Hb, bind_run, Hbs.
Qed.

Lemma load_vertex_run mesh i w :
  channels_readable mesh → (i < length (mVertices mesh))%nat →
  ∃ v, load_vertex (vertex_format_of mesh) mesh i w = Done v w.
Proof.
  intros Hch Hi. destruct (Hch i Hi) as [Huv Hn].
  destruct (lookup_lt_is_Some_2 (mVertices mesh) i Hi) as [p Hp].
  unfold load_vertex. mstep (array_read_run _ _ _ _ Hp).
  destruct (Z.eqb_spec (Z.land (vertex_format_of mesh) k_vertex_attribute_uv) 0)
    as [_|Huv0]; cbn [negb];
  destruct (Z.eqb_spec (Z.land (vertex_format_of mesh) k_vertex_attribute_normal) 0)
    as [_|Hn0]; cbn [negb].
  - eexists. reflexivity.
  - destruct (Hn Hn0) as [n Hnn]. destruct (mNormals mesh) as [ns|]; [|done].
    simpl in Hnn. unfold array_read_opt.
    mnorm. rewrite (array_read_run _ _ _ _ Hnn). eexists. reflexivity.
  - destruct (Huv Huv0) as [t Ht]. destruct (mTextureCoords0 mesh) as [ts|]; [|done].
    simpl in Ht. unfold array_read_opt.
    mnorm. rewrite (array_read_run _ _ _ _ Ht). eexists. reflexivity.
  - destruct (Huv Huv0) as [t Ht]. destruct (mTextureCoords0 mesh) as [ts|]; [|done].
    destruct (Hn Hn0) as [n Hnn]. destruct (mNormals mesh) as [ns|]; [|done].
    simpl in Ht, Hnn. unfold array_read_opt.
    mnorm. rewrite (array_read_run _ _ _ _ Ht).
    mnorm. rewrite (array_read_run _ _ _ _ Hnn). eexists. reflexivity.
Qed.

Lemma load_vertices_run mesh w :
  channels_readable mesh →
  ∃ vs, map_M (load_vertex (vertex_format_of mesh) mesh)
              (seq 0 (length (mVertices mesh))) w = Done vs w
        ∧ length vs = length (mVertices mesh).
Proof.
  intros Hch.
  destruct (map_M_reads (load_vertex (vertex_format_of mesh) mesh)
              (seq 0 (length (mVertices mesh))) w) as (vs & Hvs & Hlen).
  - intros i Hi. apply elem_of_seq in Hi. apply load_vertex_run; [done|lia].
  - exists vs. split; [exact Hvs|]. by rewrite Hlen, length_seq.
Qed.

(** One round of the index loop on a face with at least three indices. *)
Lemma load_face_run acc face w :
  (3 ≤ length (mIndices face))%nat →
  load_face acc face w
  = Done (acc ++ first_three face)
         (upd_cout (λ l, l ++ face_warnings [face]) w).
Proof.
  intros Hlen. unfold load_face, first_three, face_warnings.
  destruct face as [[|i0 [|i1 [|i2 rest]]]]; simpl in Hlen; try lia.
  cbn [mIndices]. unfold array_read at 1 2 3. cbn [lookup list_lookup].
  mnorm. cbn [take map]. rewrite <- !app_assoc. cbn [app].
  rewrite filter_cons, filter_nil.
  destruct (Z.ltb_spec 3 (mNumIndices {| mIndices := i0 :: i1 :: i2 :: rest |}))
    as [Hgt|Hle].
  - rewrite decide_True by done. unfold cout_put. mnorm. reflexivity.
  - rewrite decide_False by lia. mnorm. cbn [map]. f_equal.
    apply world_ext; cbn [heap lua_states next_addr gl cerr cout pcalls upd_cout];
      try reflexivity. by rewrite app_nil_r.
Qed.

(** A face with fewer than three indices: the read of slot 2 is out of
    bounds, and so the round is undefined. *)
Lemma load_face_short acc face w :
  (length (mIndices face) < 3)%nat →
  array_read (mIndices face) 2 w = Fault ∧ load_face acc face w = Fault.
Proof.
  intros Hlen. unfold load_face.
  destruct face as [[|i0 [|i1 [|i2 rest]]]]; simpl in Hlen; try lia;
    split; reflexivity.
Qed.

Lemma face_warnings_cons face faces :
  face_warnings (face :: faces) = face_warnings [face] ++ face_warnings faces.
Proof.
  unfold face_warnings. rewrite !filter_cons, filter_nil.
  by destruct (decide (3 < mNumIndices face)).
Qed.

(** The index loop over faces that all have at least three indices. *)
Lemma load_faces_run faces acc w :
  Forall (λ f, (3 ≤ length (mIndices f))%nat) faces →
  fold_M load_face faces acc w
  = Done (acc ++ flat_map first_three faces)
         (upd_cout (λ l, l ++ face_warnings faces) w).
Proof.
  intros Hall. revert acc w.
  induction Hall as [|face faces Hface _ IH]; intros acc w.
  - cbn [flat_map]. rewrite app_nil_r. unfold mret, M_ret.
    change (fold_M load_face [] acc w) with (Done acc w). f_equal.
    apply world_ext; cbn [heap lua_states next_addr gl cerr cout pcalls upd_cout];
      try reflexivity. symmetry. apply app_nil_r.
  - change (fold_M load_face (face :: faces) acc w)
      with ((load_face acc face ≫= λ acc', fold_M load_face faces acc') w).
    rewrite bind_run, (load_face_run _ _ _ Hface), IH.
    cbn [flat_map]. f_equal; [by rewrite app_assoc|].
    apply world_ext; cbn [heap lua_states next_addr gl cerr cout pcalls upd_cout];
      try reflexivity. by rewrite (face_warnings_cons face faces), app_assoc.
Qed.

(** The index loop stops in a fault at the first short face. *)
Lemma load_faces_short faces acc w :
  Exists (λ f, (length (mIndices f) < 3)%nat) faces →
  fold_M load_face faces acc w = Fault.
Proof.
  revert acc w. induction faces as [|face faces IH]; intros acc w Hex.
  - inversion Hex.
  - change (fold_M load_face (face :: faces) acc w)
      with ((load_face acc face ≫= λ acc', fold_M load_face faces acc') w).
    rewrite bind_run.
    destruct (Nat.lt_ge_cases (length (mIndices face)) 3) as [Hshort|Hlong].
    + by rewrite (proj2 (load_face_short acc face w Hshort)).
    + rewrite (load_face_run _ _ _ Hlong). apply IH.
      apply Exists_cons in Hex as [Hh|Ht]; [simpl in Hh; lia|done].
Qed.

Lemma flat_map_first_three_length faces :
  Forall (λ f, (3 ≤ length (mIndices f))%nat) faces →
  length (flat_map first_three faces) = (3 * length faces)%nat.
Proof.
  induction 1 as [|face faces Hface _ IH]; [reflexivity|].
  cbn [flat_map]. rewrite length_app, IH. unfold first_three.
  rewrite length_map, length_take. simpl length. lia.
Qed.

Lemma new_run o w :
  new o w = Done (N.succ (next_addr w))
                 (upd_heap (<[N.succ (next_addr w) := o]>) (upd_next_addr N.succ w)).
Proof. reflexivity. Qed.

(** [create_from_aiMesh] on a mesh whose arrays can be read. *)
Lemma create_from_aiMesh_run self mesh scene ai_material w :
  channels_readable mesh →
  Forall (λ f, (3 ≤ length (mIndices f))%nat) (mFaces mesh) →
  mMaterials scene !! mMaterialIndex mesh = Some ai_material →
  ∃ vs, length vs = length (mVertices mesh)
  ∧ create_from_aiMesh self mesh scene w
    = Done {| _vertex_array := _vertex_array self ++ vs;
              _index_array := _index_array self ++ flat_map first_three (mFaces mesh);
              _name := mName mesh;
              _material := N.succ (next_addr w);
              _vertex_format := vertex_format_of mesh;
              _vao := _vao self; _vbo := _vbo self;
              _index_count := _index_count self |}
           (upd_heap (<[N.succ (next_addr w) := OMaterial (imported_material ai_material)]>)
              (upd_next_addr N.succ
                 (upd_cout (λ l, l ++ face_warnings (mFaces mesh)) w))).
Proof.
  intros Hch Hfaces Hmat.
  destruct (load_vertices_run mesh w Hch) as (vs & Hvs & Hlen).
  exists vs. split; [exact Hlen|].
  unfold create_from_aiMesh. cbv zeta.
  change (if HasBones mesh then _ else _) with (vertex_format_of mesh).
  rewrite bind_run, Hvs. rewrite bind_run, (load_faces_run _ _ _ Hfaces).
  rewrite bind_run, (array_read_run _ _ _ _ Hmat).
  unfold imported_material, GetTextureCount_DIFFUSE.
  destruct (diffuse_textures ai_material) as [|path rest].
  - change (0 <? Z.of_nat (length [])) with false. cbn iota.
    mnorm. rewrite new_run. mnorm. unfold store, set_heap. mnorm.
    f_equal. apply world_ext;
      cbn [heap lua_states next_addr gl cerr cout pcalls upd_cout upd_heap
           upd_next_addr]; try reflexivity.
    by rewrite !insert_insert_eq.
  - replace (0 <? Z.of_nat (length (path :: rest))) with true
      by (symmetry; apply Z.ltb_lt; simpl; lia).
    cbn iota. mnorm. rewrite new_run. mnorm. unfold store, set_heap. mnorm.
    f_equal. apply world_ext;
      cbn [heap lua_states next_addr gl cerr cout pcalls upd_cout upd_heap
           upd_next_addr]; try reflexivity.
    by rewrite !insert_insert_eq.
Qed.

(** [make_buffers] in a context that carries no error. *)
Lemma make_buffers_run self w :
  gl_error (gl w) = GL_NO_ERROR →
  ∃ g, make_buffers self w
       = Done {| _vertex_array := _vertex_array self;
                 _index_array := _index_array self;
                 _name := _name self;
                 _material := _material self;
                 _vertex_format := _vertex_format self;
                 _vao := gl_last_name (gl w) + 1;
                 _vbo := (gl_last_name (gl w) + 1 + 1, gl_last_name (gl w) + 1 + 1 + 1);
                 _index_count := Z.of_nat (length (_index_array self)) |}
              (upd_gl (λ _, g) w).
Proof.
  destruct w as [hp ls na g ce co pc]. destruct g as [last vab abb eabb bs ap ea err].
  cbn [gl gl_error gl_last_name]. intros ->. unfold make_buffers.
  destruct (negb (Z.land (_vertex_format self) k_vertex_attribute_normal =? 0));
  destruct (negb (Z.land (_vertex_format self) k_vertex_attribute_color =? 0));
  destruct (negb (Z.land (_vertex_format self) k_vertex_attribute_uv =? 0));
  lazy [mbind M_bind mret M_ret assert_ set_gl upd_gl
        GL.glGenVertexArrays1 GL.glGenBuffers2 GL.gen_name GL.glBindVertexArray
        GL.glBindBuffer GL.glBufferData GL.glVertexAttribPointer
        GL.glEnableVertexAttribArray GL.glGetError
        gl gl_error gl_last_name gl_vertex_array_binding gl_array_buffer_binding
        gl_element_array_buffer_binding gl_buffer_size gl_attrib_pointers
        gl_enabled_attribs GL.bound
        fst snd heap lua_states next_addr cerr cout pcalls];
  change (GL_NO_ERROR =? GL_NO_ERROR) with true; cbv iota;
  (eexists; reflexivity).
Qed.

End MeshLemmas.

Section MeshClaims.
Context `{!EngineDecls}.
Import ga_mesh.

Lemma build_run mesh scene ai_material w :
  channels_readable mesh →
  Forall (λ f, (3 ≤ length (mIndices f))%nat) (mFaces mesh) →
  mMaterials scene !! mMaterialIndex mesh = Some ai_material →
  gl_error (gl w) = GL_NO_ERROR →
  ∃ vs g,
    build mesh scene w
    = Done {| _vertex_array := vs;
              _index_array := flat_map first_three (mFaces mesh);
              _name := mName mesh;
              _material := N.succ (next_addr w);
              _vertex_format := vertex_format_of mesh;
              _vao := gl_last_name (gl w) + 1;
              _vbo := (gl_last_name (gl w) + 1 + 1, gl_last_name (gl w) + 1 + 1 + 1);
              _index_count := Z.of_nat (length (flat_map first_three (mFaces mesh))) |}
           (upd_gl (λ _, g)
              (upd_heap (<[N.succ (next_addr w) := OMaterial (imported_material ai_material)]>)
                 (upd_next_addr N.succ
                    (upd_cout (λ l, l ++ face_warnings (mFaces mesh)) w)))).
Proof.
  intros Hch Hfaces Hmat Herr.
  destruct (create_from_aiMesh_run ctor mesh scene ai_material w Hch Hfaces Hmat)
    as (vs & _ & Hcreate).
  unfold build. rewrite bind_run, Hcreate.
  match goal with
  | |- context [make_buffers ?m ?w1] =>
      destruct (make_buffers_run m w1 Herr) as (g & Hmb); rewrite Hmb
  end.
  exists vs, g. reflexivity.
Qed.

(** C3.  A mesh whose arrays can be read and whose faces all have at
    least three indices is built; its index count is three times its
    number of faces, hence divisible by 3; its index array is, face after
    face, the first three indices of the face; and [std::cout] gets one
    warning for each face with more than three indices.  Such a face
    contributes three entries, which are its first three indices whenever
    the element type of the index array can hold them. *)
Theorem index_count_is_three_per_face mesh scene ai_material w :
  channels_readable mesh →
  Forall (λ f, (3 ≤ length (mIndices f))%nat) (mFaces mesh) →
  mMaterials scene !! mMaterialIndex mesh = Some ai_material →
  gl_error (gl w) = GL_NO_ERROR →
  ∃ m w', build mesh scene w = Done m w'
    ∧ _index_count m = 3 * mNumFaces mesh
    ∧ _index_count m mod 3 = 0
    ∧ _index_array m = flat_map first_three (mFaces mesh)
    ∧ cout w' = cout w ++ face_warnings (mFaces mesh)
    ∧ ∀ face, face ∈ mFaces mesh → 3 < mNumIndices face →
        face_warning face ∈ face_warnings (mFaces mesh)
        ∧ length (first_three face) = 3%nat
        ∧ ((∀ i, i ∈ take 3 (mIndices face) → index_of_uint i = i) →
           first_three face = take 3 (mIndices face)).
Proof.
  intros Hch Hfaces Hmat Herr.
  destruct (build_run mesh scene ai_material w Hch Hfaces Hmat Herr)
    as (vs & g & Hbuild).
  eexists _, _. split; [exact Hbuild|]. cbn [_index_count _index_array].
  assert (Z.of_nat (length (flat_map first_three (mFaces mesh)))
          = 3 * mNumFaces mesh) as Hcount.
  { rewrite (flat_map_first_three_length _ Hfaces). unfold mNumFaces. lia. }
  split; [exact Hcount|]. split.
  { rewrite Hcount, Z.mul_comm. apply Z_mod_mult. }
  split; [reflexivity|]. split; [reflexivity|].
  intros face Hin Hgt. split; [|split].
  - unfold face_warnings. apply list_elem_of_fmap. exists face. split; [done|].
    by apply list_elem_of_filter.
  - unfold first_three. rewrite length_map, length_take. unfold mNumIndices in Hgt. lia.
  - intros Hid. unfold first_three.
    rewrite <- (list_fmap_id (take 3 (mIndices face))) at 2.
    apply list_fmap_ext. intros k i Hi. apply Hid.
    by apply list_elem_of_lookup_2 in Hi.
Qed.

(** C4.  A mesh all of whose faces are triangles is built, and the
    descriptor [assemble_drawcall] fills right after has the face count
    times 3 as its index count, the mesh's material pointer, which points
    to the material made from the mesh's Assimp material, and the
    triangle draw mode. *)
Theorem drawcall_round_trip mesh scene ai_material w :
  channels_readable mesh →
  Forall (λ f, length (mIndices f) = 3%nat) (mFaces mesh) →
  mMaterials scene !! mMaterialIndex mesh = Some ai_material →
  gl_error (gl w) = GL_NO_ERROR →
  ∃ m w', build mesh scene w = Done m w'
    ∧ dc_index_count (assemble_drawcall m blank_drawcall) = mNumFaces mesh * 3
    ∧ dc_material (assemble_drawcall m blank_drawcall) = _material m
    ∧ heap w' !! _material m = Some (OMaterial (imported_material ai_material))
    ∧ dc_draw_mode (assemble_drawcall m blank_drawcall) = GL_TRIANGLES
    ∧ dc_vao (assemble_drawcall m blank_drawcall) = _vao m
    ∧ _index_array m = flat_map (λ f, map index_of_uint (mIndices f)) (mFaces mesh).
Proof.
  intros Hch Htri Hmat Herr.
  assert (Forall (λ f, (3 ≤ length (mIndices f))%nat) (mFaces mesh)) as Hfaces.
  { eapply Forall_impl; [exact Htri|]. simpl. intros f ->. lia. }
  destruct (build_run mesh scene ai_material w Hch Hfaces Hmat Herr)
    as (vs & g & Hbuild).
  eexists _, _. split; [exact Hbuild|].
  cbn [assemble_drawcall dc_index_count dc_material dc_draw_mode dc_vao
       _index_count _material _vao _index_array heap upd_gl upd_heap].
  split.
  { rewrite (flat_map_first_three_length _ Hfaces). unfold mNumFaces. lia. }
  split; [reflexivity|]. split; [apply lookup_insert_eq|].
  split; [reflexivity|]. split; [reflexivity|].
  clear -Htri. induction Htri as [|face faces Hface _ IH]; [reflexivity|].
  cbn [flat_map]. rewrite IH. f_equal. unfold first_three.
  by rewrite take_ge by lia.
Qed.

(** C10, as amended.  The index loop reads slots 0, 1 and 2 of every face
    without looking at its index count.  For a face with fewer than three
    indices the read of slot 2 is out of bounds, and so is the read of slot
    1 when it has fewer than two; the round for that face, and with it the
    whole loop over any list of faces that contains it, is undefined.  The
    loop completes exactly when every face has at least three indices. *)
Theorem index_loading_needs_three_indices faces face acc w :
  face ∈ faces →
  (length (mIndices face) < 3)%nat →
  array_read (mIndices face) 2 w = Fault
  ∧ ((length (mIndices face) < 2)%nat → array_read (mIndices face) 1 w = Fault)
  ∧ load_face acc face w = Fault
  ∧ fold_M load_face faces acc w = Fault
  ∧ ∀ faces' acc' w0,
      (∃ r w1, fold_M load_face faces' acc' w0 = Done r w1)
      ↔ Forall (λ f, (3 ≤ length (mIndices f))%nat) faces'.
Proof.
  intros Hin Hshort.
  destruct (load_face_short acc face w Hshort) as [H2 Hface].
  split; [exact H2|]. split.
  { intros H1. apply array_read_fault. apply lookup_ge_None. lia. }
  split; [exact Hface|]. split.
  { apply load_faces_short. apply Exists_exists. exists face. split; [done|lia]. }
  intros faces' acc' w0. split.
  - intros (r & w1 & Hrun).
    destruct (Forall_Exists_dec (λ f, (3 ≤ length (mIndices f))%nat)
                (λ f, (length (mIndices f) < 3)%nat)
                (λ f, le_lt_dec 3 (length (mIndices f))) faces') as [Hall|Hex];
      [exact Hall|].
    by rewrite (load_faces_short _ acc' w0 Hex) in Hrun.
  - intros Hall. eexists _, _. apply (load_faces_run _ _ _ Hall).
Qed.

End MeshClaims.

Section ModelClaims.
Context `{!EngineDecls, !Assimp}.
Import ga_model_component.

(** One frame of a component whose root has no meshes and no children:
    the root's world transform is recomputed, nothing is drawn. *)
Lemma update_empty_run c params fp e w :
  empty_model c →
  params ≠ nullptr → heap w !! params = Some (OFrameParams fp) →
  mc_entity c ≠ nullptr → heap w !! mc_entity c = Some (OEntity e) →
  ∃ c', update c params w = Done c' w ∧ empty_model c' ∧ mc_entity c' = mc_entity c.
Proof.
  intros (Hm & Hnm & Hnc) Hp Hfp He Hent. unfold update.
  mstep (deref_frame_params_run _ _ _ Hfp Hp).
  mstep (deref_entity_run _ _ _ Hent He).
  destruct (_root c) as [name t wt meshes children] eqn:Hroot.
  cbn [node_meshes node_children] in Hnm, Hnc. subst meshes children.
  cbn [ga_node.update map ga_node.draw_recursive for_each]. mnorm.
  eexists. split; [reflexivity|]. by repeat split.
Qed.

(** C8.  When the import fails, the constructor writes one line to
    [std::cout] and returns a component without scene, meshes or node
    content; [update] then returns on every frame whose frame-parameters
    pointer is valid, submits no draw call and changes nothing. *)
Theorem failed_import_leaves_empty_component ent model_file e w :
  ReadFile (g_root_path +:+ model_file) = None →
  ent ≠ nullptr →
  heap w !! ent = Some (OEntity e) →
  ∃ c w', ctor ent model_file w = Done c w'
    ∧ w' = upd_cout (λ l, l ++ ["error: couldn't load obj" +:+ endl]) w
    ∧ _scene c = None
    ∧ empty_model c
    ∧ ∀ frames, valid_frames frames w' →
        ∃ c', fold_M update frames c w' = Done c' w' ∧ empty_model c'.
Proof.
  intros Hread Hent He. unfold ctor. rewrite Hread.
  eexists _, _. split; [reflexivity|]. split; [reflexivity|].
  split; [reflexivity|]. split; [by repeat split|].
  set (w' := upd_cout _ w).
  assert (∀ frames c, empty_model c → mc_entity c = ent → valid_frames frames w' →
            ∃ c', fold_M update frames c w' = Done c' w' ∧ empty_model c') as Hall.
  { induction frames as [|params frames IH]; intros c Hc Hce Hv.
    - by exists c.
    - apply Forall_cons in Hv as [(Hp & fp & Hfp) Hv].
      destruct (update_empty_run c params fp e w' Hc Hp Hfp) as (c1 & Hrun & Hc1 & Hce1).
      { by rewrite Hce. } { by rewrite Hce. }
      destruct (IH c1 Hc1) as (c' & Hrest & Hc'); [congruence|done|].
      exists c'. split; [|done].
      change (fold_M update (params :: frames) c w')
        with ((update c params ≫= λ c1, fold_M update frames c1) w').
      by rewrite bind_run, Hrun. }
  intros frames Hv. by apply Hall.
Qed.

End ModelClaims.
(* ===================================================================== *)
(** * More on the registered C functions *)
(* ===================================================================== *)

Section MoreNatives.
Context `{!EngineDecls, !LuaRuntime}.
Import ga_lua_component.
Implicit Types (L : N) (s : lua_State) (w : world).

Lemma component_get_entity_run L s w p c :
  live L s w → stack s = [LLightUserdata p] →
  heap w !! p = Some (OLuaComponent c) → p ≠ nullptr →
  lua_component_get_entity L w
  = Done 1 (with_state L
              {| stack := [LLightUserdata p; LLightUserdata (_entity c)];
                 globals := globals s |} w).
Proof.
  intros HL Hs Hp Hn. unfold lua_component_get_entity.
  mstep (lua_gettop_run _ _ _ HL). rewrite Hs. simpl.
  mstep (lua_touserdata_run _ _ _ 1 HL).
  unfold index2value. rewrite Hs. simpl.
  mstep (deref_lua_component_run _ _ _ Hp Hn).
  unfold lua_pushlightuserdata. mstep (push_run _ _ _ _ HL). by rewrite Hs.
Qed.

Lemma call_component_get_entity L s w p c :
  live L s w → heap w !! p = Some (OLuaComponent c) → p ≠ nullptr →
  call_value code L (LCFunction CF_component_get_entity) [LLightUserdata p] w
  = Done (Returned [LLightUserdata (_entity c)]) w.
Proof.
  intros HL Hp Hn.
  erewrite call_cfunction_run;
    [ | exact HL
      | eapply (component_get_entity_run _ _ _ p c);
          [apply live_with_state | reflexivity | exact Hp | exact Hn]
      | apply live_with_state
      | simpl; lia ].
  simpl. f_equal. rewrite !with_state_twice, lua_State_eta.
  apply (with_state_id _ _ _ HL).
Qed.

(** [lua_entity_translate] on four arguments, whatever the last three
    are. *)
Lemma entity_translate_any_run L s w p a b c e :
  live L s w →
  stack s = [LLightUserdata p; a; b; c] →
  heap w !! p = Some (OEntity e) → p ≠ nullptr →
  lua_entity_translate L w
  = Done 0 (upd_heap (<[p := OEntity (translate e (delta (number_of a) (number_of b)
                                                        (number_of c)))]>) w).
Proof.
  intros HL Hs Hp Hn. unfold lua_entity_translate.
  mstep (lua_gettop_run _ _ _ HL). rewrite Hs. simpl.
  mstep (lua_touserdata_run _ _ _ 1 HL).
  mstep (lua_tonumber_run _ _ _ 2 HL).
  mstep (lua_tonumber_run _ _ _ 3 HL).
  mstep (lua_tonumber_run _ _ _ 4 HL).
  unfold index2value. rewrite Hs. simpl.
  mstep (deref_entity_run _ _ _ Hp Hn). reflexivity.
Qed.

Lemma call_entity_translate_any L s w p a b c e :
  live L s w → heap w !! p = Some (OEntity e) → p ≠ nullptr →
  call_value code L (LCFunction CF_entity_translate) [LLightUserdata p; a; b; c] w
  = Done (Returned [])
         (upd_heap (<[p := OEntity (translate e (delta (number_of a) (number_of b)
                                                       (number_of c)))]>) w).
Proof.
  intros HL Hp Hn.
  erewrite call_cfunction_run;
    [ | exact HL
      | eapply (entity_translate_any_run _ _ _ p a b c e);
          [apply live_with_state | reflexivity | exact Hp | exact Hn]
      | apply live_with_state
      | simpl; lia ].
  simpl. f_equal. apply (restore_after_heap _ _ _ _ _ HL).
Qed.

(** The C function run on a stack of the height it expects, whose slot 1
    does not hold a pointer to an object of its class. *)
Lemma code_bad_operand f L s w :
  live L s w →
  Z.of_nat (length (stack s)) = expected_arguments f →
  ¬ points_to_operand f w (userdata_of (default LNil (stack s !! 0%nat))) →
  code f L w = Fault.
Proof.
  intros HL Hlen Hbad.
  assert (index2value s 1 = stack s !! 0%nat) as H1 by reflexivity.
  set (p := userdata_of (default LNil (stack s !! 0%nat))) in *.
  assert (match index2value s 1 with
          | Some (LLightUserdata q) | Some (LUserdata q) => q
          | _ => nullptr
          end = p) as Hp.
  { rewrite H1. subst p. by destruct (stack s !! 0%nat) as [[]|]. }
  destruct f; simpl in Hlen |- *;
    [ unfold lua_frame_params_get_input_left
    | unfold lua_frame_params_get_input_right
    | unfold lua_component_get_entity
    | unfold lua_entity_translate ];
    mstep (lua_gettop_run _ _ _ HL); rewrite Hlen; cbn [Z.eqb Pos.eqb];
    mstep (lua_touserdata_run _ _ _ 1 HL); rewrite Hp;
    try (mstep (lua_tonumber_run _ _ _ 2 HL);
         mstep (lua_tonumber_run _ _ _ 3 HL);
         mstep (lua_tonumber_run _ _ _ 4 HL));
    rewrite ?bind_run;
    unfold deref_frame_params, deref_lua_component, deref_entity;
    rewrite bind_run; unfold deref;
    destruct (heap w !! p) as [o|] eqn:Ho; try reflexivity;
    destruct (N.eqb_spec p nullptr) as [Hnull|Hnn]; try reflexivity;
    destruct o; try reflexivity;
    exfalso; apply Hbad; (split; [exact Hnn|]); simpl; eauto.
Qed.

End MoreNatives.

Section MoreNativeCalls.
Context `{!EngineDecls, !LuaRuntime}.
Import ga_lua_component.
Implicit Types (L : N) (s : lua_State) (w : world).

(** X1.  [component_get_entity] called with one argument, a pointer to a
    component, returns one value, the pointer to the entity that owns the
    component, and changes nothing. *)
Theorem component_get_entity_returns_owner L s w p c :
  live L s w →
  heap w !! p = Some (OLuaComponent c) →
  p ≠ nullptr →
  call_value code L (LCFunction CF_component_get_entity) [LLightUserdata p] w
  = Done (Returned [LLightUserdata (get_entity c)]) w.
Proof. apply call_component_get_entity. Qed.

(** X2.  What [component_get_entity] returns for a component is a value
    [entity_translate] accepts as its first argument, and the entity that
    call moves is the owner of the component; the component itself is as
    it was. *)
Theorem translate_reaches_owning_entity L s w comp c e dx dy dz :
  live L s w →
  comp ≠ nullptr →
  heap w !! comp = Some (OLuaComponent c) →
  get_entity c ≠ nullptr →
  heap w !! get_entity c = Some (OEntity e) →
  ∃ v w',
    call_value code L (LCFunction CF_component_get_entity) [LLightUserdata comp] w
    = Done (Returned [v]) w
    ∧ call_value code L (LCFunction CF_entity_translate)
                 [v; LNumber dx; LNumber dy; LNumber dz] w
      = Done (Returned []) w'
    ∧ heap w' !! get_entity c = Some (OEntity (translate e (delta dx dy dz)))
    ∧ heap w' !! comp = Some (OLuaComponent c)
    ∧ cerr w' = cerr w.
Proof.
  intros HL Hcn Hc Hen He.
  exists (LLightUserdata (get_entity c)). eexists.
  split; [by apply (call_component_get_entity _ s)|].
  split; [by apply (call_entity_translate_any _ s _ _ _ _ _ e)|].
  cbn [heap upd_heap cerr]. split; [apply lookup_insert_eq|]. split; [|reflexivity].
  rewrite lookup_insert_ne; [exact Hc|]. intros Heq.
  unfold get_entity in *. rewrite Heq in He. congruence.
Qed.

(** X3.  None of the four functions checks what its first argument is.
    Called with the number of arguments it expects, and a first argument
    that is not a pointer to a live object of the class it casts to (nil, a
    number, a null pointer, a pointer to an object of another class), the
    function dereferences that pointer all the same: the behaviour is
    undefined, and no diagnostic is written first. *)
Theorem native_trusts_first_argument f L s w v rest :
  live L s w →
  Z.of_nat (length (v :: rest)) = expected_arguments f →
  ¬ points_to_operand f w (userdata_of v) →
  call_value code L (LCFunction f) (v :: rest) w = Fault.
Proof.
  intros HL Hlen Hbad. unfold call_value.
  mstep (get_state_run _ _ _ HL). mstep (set_stack_run _ _ _ (v :: rest) HL).
  rewrite bind_run.
  rewrite (code_bad_operand f L {| stack := v :: rest; globals := globals s |});
    [reflexivity | apply live_with_state | exact Hlen | exact Hbad].
Qed.

(** X4.  [entity_translate] does not check that its last three arguments
    are numbers: each one counts as what [lua_tonumber] reads from it,
    which is 0 for a value that is neither a number nor a string that
    converts to one.  The entity is translated by these three numbers as
    floats and no diagnostic is written. *)
Theorem entity_translate_reads_any_value_as_number L s w p e a b c :
  live L s w →
  heap w !! p = Some (OEntity e) →
  p ≠ nullptr →
  call_value code L (LCFunction CF_entity_translate) [LLightUserdata p; a; b; c] w
  = Done (Returned [])
         (upd_heap (<[p := OEntity (translate e (delta (number_of a) (number_of b)
                                                       (number_of c)))]>) w)
  ∧ (∀ v, (∀ n, v ≠ LNumber n) → (∀ str, v ≠ LString str) → number_of v = dzero).
Proof.
  intros HL Hp Hn. split; [by apply (call_entity_translate_any _ s)|].
  intros v Hnum Hstr. destruct v; try reflexivity.
  - by destruct (Hnum n).
  - by destruct (Hstr s0).
Qed.

End MoreNativeCalls.

(* ===================================================================== *)
(** * More on the scripting component *)
(* ===================================================================== *)

Section MoreComponent.
Context `{!EngineDecls, !LuaRuntime}.
Import ga_lua_component.
Implicit Types (L : N) (s : lua_State) (w : world).

Lemma dtor_disabled this ent w :
  this ≠ nullptr → disabled this ent w → dtor this w = Done () w.
Proof.
  intros Hthis Hd. unfold dtor.
  by mstep (deref_lua_component_run _ _ _ Hd Hthis).
Qed.

Lemma dtor_enabled this ent L s w :
  this ≠ nullptr → L ≠ nullptr →
  heap w !! this = Some (OLuaComponent {| _entity := ent; _lua := L |}) →
  live L s w →
  dtor this w = Done () (upd_lua_states (delete L) w).
Proof.
  intros Hthis HL0 Hc HL. unfold dtor.
  mstep (deref_lua_component_run _ _ _ Hc Hthis). cbn [_lua].
  destruct (N.eqb_spec L nullptr) as [->|_]; [done|]. cbn [negb].
  apply (lua_close_run _ _ _ HL).
Qed.

(** lua_pcall on a stack whose callee slot holds nil. *)
Lemma lua_pcall_nil_run L s w base args nresults :
  live L s w →
  stack s = base ++ LNil :: args →
  lua_pcall code L (length args) nresults w
  = Done (status_of LUA_ERRRUN_)
         (with_state L {| stack := base ++ [LString call_nil_message];
                          globals := globals s |}
            (upd_pcalls (λ l, l ++ [(LNil, args)]) w)).
Proof.
  intros HL Hs. unfold lua_pcall. mstep (get_state_run _ _ _ HL).
  rewrite Hs, length_app, length_cons.
  destruct (Nat.ltb_spec (length base + S (length args)) (length args + 1)); [lia|].
  replace (length base + S (length args) - length args - 1)%nat
    with (length base) by lia.
  rewrite take_app_length, drop_app_length.
  mstep (set_stack_run _ _ _ _ HL).
  rewrite bind_run. unfold log_pcall at 1. cbn beta iota.
  unfold call_value. rewrite bind_run. unfold mret at 1, M_ret at 1. cbn beta iota.
  change ("attempt to call a " +:+ lua_typename LNil +:+ " value")
    with call_nil_message.
  lstep push_run. unfold mret, M_ret. solve_world.
Qed.

Lemma index2value_last st v g :
  index2value {| stack := st ++ [v]; globals := g |} (-1) = Some v.
Proof.
  unfold index2value. cbn [stack Z.ltb Z.compare]. rewrite length_app. cbn [length].
  destruct (Z.ltb_spec (Z.of_nat (length st + 1) + -1) 0); [lia|].
  replace (Z.to_nat (Z.of_nat (length st + 1) + -1)) with (length st) by lia.
  by rewrite list_lookup_middle.
Qed.

Lemma update_nil_run this ent L s params w :
  this ≠ nullptr → L ≠ nullptr →
  heap w !! this = Some (OLuaComponent {| _entity := ent; _lua := L |}) →
  live L s w →
  default LNil (globals s !! "update") = LNil →
  update this params w
  = AssertFailed
      (upd_cerr (λ l, l ++ ["Error: " +:+ call_nil_message])
         (with_state L {| stack := stack s ++ [LString call_nil_message];
                          globals := globals s |}
            (upd_pcalls (λ l, l ++ [(LNil, [LLightUserdata this; LLightUserdata params])])
               w))).
Proof.
  intros Hthis HL0 Hc HL Hu. unfold update.
  mstep (deref_lua_component_run _ _ _ Hc Hthis). cbn [_lua].
  destruct (N.eqb_spec L nullptr) as [->|_]; [done|]. cbn [negb].
  mstep (lua_getglobal_run _ _ _ _ HL). rewrite Hu.
  unfold lua_pushlightuserdata. lstep push_run. lstep push_run.
  rewrite bind_run.
  erewrite (lua_pcall_nil_run _ _ _ (stack s)
              [LLightUserdata this; LLightUserdata params] 0)
    by solve_live.
  cbn beta iota zeta delta [stack globals heap with_state upd_lua_states].
  rewrite status_of_nonzero. cbn [negb].
  lstep lua_tostring_run. rewrite index2value_last.
  cbn beta iota. unfold cerr_put_cstr, cerr_put. rewrite ?bind_run.
  unfold assert_. solve_world.
Qed.

End MoreComponent.

Section MoreComponentClaims.
Context `{!EngineDecls, !LuaRuntime}.
Import ga_lua_component.
Implicit Types (L : N) (s : lua_State) (w : world).

(** X5.  Constructing a component and destroying it leaves no interpreter
    state behind, whichever way the constructor went: the state opened at
    the new address is closed by the constructor when it disables the
    component, and by the destructor when it does not.  The open states
    are the ones there were before. *)
Theorem ctor_then_dtor_closes_the_state this ent path w :
  this ≠ nullptr →
  (∀ c, load_chunk (g_root_path +:+ path) = Loaded c →
        rr_outcome (top_level this ent w c) ≠ Crashed
        ∧ rr_heap (top_level this ent w c) !! this
          = Some (OLuaComponent {| _entity := ent; _lua := new_state w |})) →
  ∃ w', (ctor this ent path ;; dtor this) w = Done () w'
      ∧ lua_states w' = delete (new_state w) (lua_states w)
      ∧ (lua_states w !! new_state w = None → lua_states w' = lua_states w).
Proof.
  intros Hthis Hscript.
  assert (∀ w', lua_states w' = delete (new_state w) (lua_states w) →
            lua_states w !! new_state w = None → lua_states w' = lua_states w)
    as Hfresh.
  { intros w' -> Hnone. by apply delete_id. }
  assert (∀ diag w1, lua_states w1 = lua_states w →
            let w' := abandon this ent (new_state w) diag w1 in
            ∃ w'', dtor this w' = Done () w''
              ∧ lua_states w'' = delete (new_state w) (lua_states w)
              ∧ (lua_states w !! new_state w = None → lua_states w'' = lua_states w))
    as Hgive.
  { intros diag w1 Hw1 w'. exists w'.
    assert (lua_states w' = delete (new_state w) (lua_states w)) as Hst.
    { subst w'. unfold abandon. cbn [lua_states upd_heap upd_lua_states upd_cerr].
      by rewrite Hw1. }
    split; [|split; [exact Hst | by apply Hfresh]].
    apply (dtor_disabled this ent); [exact Hthis|]. apply lookup_insert_eq. }
  rewrite bind_run, ctor_run. unfold ctor_result.
  destruct (load_chunk (g_root_path +:+ path)) as [c|e msg] eqn:Hload.
  - destruct (Hscript c eq_refl) as [Hrun Hkeep]. cbn zeta.
    destruct (is_function (update_after this ent w c)) eqn:Hf.
    + set (o := rr_outcome (top_level this ent w c)) in *.
      set (w1 := with_state (new_state w)
                   {| stack := leftover o;
                      globals := registered (rr_globals (top_level this ent w c)) |}
                   (after_top_level this ent w c)).
      assert (dtor this w1 = Done () (upd_lua_states (delete (new_state w)) w1)) as Hd.
      { eapply dtor_enabled; [exact Hthis | apply new_state_nonnull | exact Hkeep
                             | apply live_with_state ]. }
      exists (upd_lua_states (delete (new_state w)) w1).
      split; [destruct o; [exact Hd | exact Hd | done]|].
      assert (lua_states (upd_lua_states (delete (new_state w)) w1)
              = delete (new_state w) (lua_states w)) as Hst.
      { subst w1. cbn [lua_states upd_lua_states with_state after_top_level
                       upd_cerr upd_heap upd_pcalls upd_next_addr].
        apply delete_insert_eq. }
      split; [exact Hst | by apply Hfresh].
    + destruct (Hgive (missing_update_diagnostic path) (after_top_level this ent w c))
        as (w'' & Hd & Hst); [reflexivity|].
      exists w''. split; [|exact Hst].
      by destruct (rr_outcome (top_level this ent w c)).
  - destruct (Hgive (load_diagnostic path msg)
                (upd_heap (<[this := OLuaComponent
                                       {| _entity := ent; _lua := new_state w |}]>)
                   (upd_next_addr N.succ w))) as (w'' & Hd & Hst); [reflexivity|].
    exists w''. by split.
Qed.

(** X6.  When the constructor enables the component, the four names it
    registers are bound to the C functions of the bridge, whatever the
    script had bound them to at top level, and every other global is as the
    top-level execution left it.  The registration comes after that
    execution. *)
Theorem registration_replaces_script_globals this ent path w c :
  load_chunk (g_root_path +:+ path) = Loaded c →
  rr_outcome (top_level this ent w c) ≠ Crashed →
  is_function (update_after this ent w c) = true →
  ∃ w' s,
    ctor this ent path w = Done () w'
    ∧ live (new_state w) s w'
    ∧ globals s !! "frame_params_get_input_left"
      = Some (LCFunction CF_frame_params_get_input_left)
    ∧ globals s !! "frame_params_get_input_right"
      = Some (LCFunction CF_frame_params_get_input_right)
    ∧ globals s !! "component_get_entity" = Some (LCFunction CF_component_get_entity)
    ∧ globals s !! "entity_translate" = Some (LCFunction CF_entity_translate)
    ∧ (∀ name, name ∉ registered_names →
         globals s !! name = rr_globals (top_level this ent w c) !! name)
    ∧ pcalls w' = pcalls w ++ [(LFunction c, [])].
Proof.
  intros Hload Hrun Hf. rewrite ctor_run. unfold ctor_result.
  rewrite Hload. cbn zeta. rewrite Hf.
  exists (with_state (new_state w)
            {| stack := leftover (rr_outcome (top_level this ent w c));
               globals := registered (rr_globals (top_level this ent w c)) |}
            (after_top_level this ent w c)).
  eexists. split; [by destruct (rr_outcome (top_level this ent w c))|].
  split; [apply live_with_state|]. cbn [globals]. unfold registered.
  split; [by rewrite !lookup_insert_ne, lookup_insert_eq by done|].
  split; [by rewrite !lookup_insert_ne, lookup_insert_eq by done|].
  split; [by rewrite !lookup_insert_ne, lookup_insert_eq by done|].
  split; [by rewrite lookup_insert_eq|].
  split; [|reflexivity].
  intros name Hname. unfold registered_names in Hname.
  rewrite !lookup_insert_ne; [reflexivity|..];
    intros <-; apply Hname; set_solver.
Qed.

(** X7.  The constructor looks for [update] once.  If the global holds nil
    in a later frame (the script has unbound it), the frame still calls it:
    the protected call fails, [update] writes the interpreter's message
    after "Error: " to [std::cerr] and the assertion stops the process; no
    object has changed. *)
Theorem update_unbound_aborts this ent L s params w :
  this ≠ nullptr → L ≠ nullptr →
  heap w !! this = Some (OLuaComponent {| _entity := ent; _lua := L |}) →
  live L s w →
  default LNil (globals s !! "update") = LNil →
  ∃ w', update this params w = AssertFailed w'
    ∧ cerr w' = cerr w ++ ["Error: attempt to call a nil value"]
    ∧ heap w' = heap w
    ∧ pcalls w' = pcalls w ++ [(LNil, [LLightUserdata this; LLightUserdata params])].
Proof.
  intros Hthis HL0 Hc HL Hu. eexists.
  split; [by apply (update_nil_run this ent L s)|]. by repeat split.
Qed.

(** X8.  What the constructor itself writes to [std::cerr]: one line when
    it disables the component (the loader's message after "Failed to load
    script <path>: ", or "Script <path> does not contain 'update'
    function."), and nothing when it enables it.  The protected call of the
    chunk is the only call it makes, and it makes none when the file did
    not load. *)
Theorem ctor_writes_one_diagnostic_or_none this ent path w :
  (∀ c, load_chunk (g_root_path +:+ path) = Loaded c →
        rr_outcome (top_level this ent w c) ≠ Crashed) →
  ∃ w', ctor this ent path w = Done () w'
    ∧ cerr w'
      = cerr w ++
        match load_chunk (g_root_path +:+ path) with
        | LoadFailed _ msg => [load_diagnostic path msg]
        | Loaded c =>
            rr_cerr (top_level this ent w c)
            ++ (if is_function (update_after this ent w c) then []
                else [missing_update_diagnostic path])
        end
    ∧ pcalls w'
      = pcalls w ++
        match load_chunk (g_root_path +:+ path) with
        | LoadFailed _ _ => []
        | Loaded c => [(LFunction c, [])]
        end.
Proof.
  intros Hscript. rewrite ctor_run. unfold ctor_result.
  destruct (load_chunk (g_root_path +:+ path)) as [c|e msg] eqn:Hload.
  - pose proof (Hscript c eq_refl) as Hrun. cbn zeta.
    destruct (is_function (update_after this ent w c)) eqn:Hf.
    + exists (with_state (new_state w)
                {| stack := leftover (rr_outcome (top_level this ent w c));
                   globals := registered (rr_globals (top_level this ent w c)) |}
                (after_top_level this ent w c)).
      split; [by destruct (rr_outcome (top_level this ent w c))|].
      cbn [cerr pcalls with_state upd_lua_states after_top_level
           upd_cerr upd_heap upd_pcalls upd_next_addr].
      by rewrite app_nil_r.
    + exists (abandon this ent (new_state w) (missing_update_diagnostic path)
                (after_top_level this ent w c)).
      split; [by destruct (rr_outcome (top_level this ent w c))|].
      cbn [cerr pcalls upd_lua_states after_top_level abandon
           upd_cerr upd_heap upd_pcalls upd_next_addr].
      by rewrite <- app_assoc.
  - eexists. split; [reflexivity|].
    cbn [cerr pcalls abandon upd_lua_states upd_cerr upd_heap upd_pcalls upd_next_addr].
    by rewrite app_nil_r.
Qed.

End MoreComponentClaims.

(* ===================================================================== *)
(** * More on the mesh builder *)
(* ===================================================================== *)

Ltac destruct_vec4 v :=
  let a := fresh "a" in let b := fresh "b" in let c := fresh "c" in
  let d := fresh "d" in let r := fresh "r" in
  destruct v as [a r] using vec_S_inv;
  destruct r as [b r] using vec_S_inv;
  destruct r as [c r] using vec_S_inv;
  destruct r as [d r] using vec_S_inv;
  destruct r using vec_0_inv.

(** The two loops of [ai_mat4_to_ga_mat4] assign all sixteen entries. *)
Lemma ai_mat4_to_ga_mat4_eq (in_mat : aiMatrix4x4) (out_mat : ga_mat4f) :
  ai_mat4_to_ga_mat4 in_mat out_mat = in_mat.
Proof.
  destruct_vec4 in_mat. destruct_vec4 out_mat.
  destruct_vec4 a. destruct_vec4 b. destruct_vec4 c. destruct_vec4 d.
  destruct_vec4 a0. destruct_vec4 b0. destruct_vec4 c0. destruct_vec4 d0.
  reflexivity.
Qed.

(** A loop whose body only reads, with what each round returns. *)
Lemma map_M_reads_Forall2 {A B} (f : A → M B) (P : A → B → Prop) (l : list A) w :
  (∀ a, a ∈ l → ∃ b, f a w = Done b w ∧ P a b) →
  ∃ bs, map_M f l w = Done bs w ∧ Forall2 P l bs.
Proof.
  induction l as [|a l IH]; intros Hf.
  - exists []. by split.
  - destruct (Hf a) as (b & Hb & HP); [left|].
    destruct IH as (bs & Hbs & Hall).
    { intros a' Ha'. apply Hf. by right. }
    exists (b :: bs). split; [|by constructor].
    change (map_M f (a :: l) w)
      with ((f a ≫= λ b, map_M f l ≫= λ bs, mret (b :: bs)) w).
    by rewrite bind_run, Hb, bind_run, Hbs.
Qed.

Section MoreMeshLemmas.
Context `{!EngineDecls}.
Import ga_mesh.

Lemma load_vertex_loaded mesh i w :
  channels_readable mesh → (i < length (mVertices mesh))%nat →
  ∃ v, load_vertex (vertex_format_of mesh) mesh i w = Done v w
       ∧ loaded_from (vertex_format_of mesh) mesh i v.
Proof.
  intros Hch Hi. destruct (Hch i Hi) as [Huv Hn].
  destruct (lookup_lt_is_Some_2 (mVertices mesh) i Hi) as [p Hp].
  unfold load_vertex, loaded_from. mstep (array_read_run _ _ _ _ Hp).
  destruct (Z.eqb_spec (Z.land (vertex_format_of mesh) k_vertex_attribute_uv) 0)
    as [_|Huv0]; cbn [negb];
  destruct (Z.eqb_spec (Z.land (vertex_format_of mesh) k_vertex_attribute_normal) 0)
    as [_|Hn0]; cbn [negb].
  - eexists. split; [reflexivity|]. cbn [_position _color _normal _uv].
    split; [by exists p|]. by repeat split.
  - destruct (Hn Hn0) as [n Hnn]. destruct (mNormals mesh) as [ns|]; [|done].
    simpl in Hnn. unfold array_read_opt.
    mnorm. rewrite (array_read_run _ _ _ _ Hnn). eexists. split; [reflexivity|].
    cbn [_position _color _normal _uv].
    split; [by exists p|]. split; [done|]. split; [by exists n|done].
  - destruct (Huv Huv0) as [t Ht]. destruct (mTextureCoords0 mesh) as [ts|]; [|done].
    simpl in Ht. unfold array_read_opt.
    mnorm. rewrite (array_read_run _ _ _ _ Ht). eexists. split; [reflexivity|].
    cbn [_position _color _normal _uv].
    split; [by exists p|]. split; [done|]. split; [done|by exists t].
  - destruct (Huv Huv0) as [t Ht]. destruct (mTextureCoords0 mesh) as [ts|]; [|done].
    destruct (Hn Hn0) as [n Hnn]. destruct (mNormals mesh) as [ns|]; [|done].
    simpl in Ht, Hnn. unfold array_read_opt.
    mnorm. rewrite (array_read_run _ _ _ _ Ht).
    mnorm. rewrite (array_read_run _ _ _ _ Hnn). eexists. split; [reflexivity|].
    cbn [_position _color _normal _uv].
    split; [by exists p|]. split; [done|]. split; [by exists n|by exists t].
Qed.

Lemma load_vertices_loaded mesh w :
  channels_readable mesh →
  ∃ vs, map_M (load_vertex (vertex_format_of mesh) mesh)
              (seq 0 (length (mVertices mesh))) w = Done vs w
        ∧ Forall2 (loaded_from (vertex_format_of mesh) mesh)
                  (seq 0 (length (mVertices mesh))) vs.
Proof.
  intros Hch. apply map_M_reads_Forall2.
  intros i Hi. apply elem_of_seq in Hi. apply load_vertex_loaded; [done|lia].
Qed.

(** [create_from_aiMesh], given what its vertex loop returns. *)
Lemma create_from_aiMesh_with self mesh scene ai_material vs w :
  map_M (load_vertex (vertex_format_of mesh) mesh)
        (seq 0 (length (mVertices mesh))) w = Done vs w →
  Forall (λ f, (3 ≤ length (mIndices f))%nat) (mFaces mesh) →
  mMaterials scene !! mMaterialIndex mesh = Some ai_material →
  create_from_aiMesh self mesh scene w
  = Done {| _vertex_array := _vertex_array self ++ vs;
            _index_array := _index_array self ++ flat_map first_three (mFaces mesh);
            _name := mName mesh;
            _material := N.succ (next_addr w);
            _vertex_format := vertex_format_of mesh;
            _vao := _vao self; _vbo := _vbo self;
            _index_count := _index_count self |}
         (upd_heap (<[N.succ (next_addr w) := OMaterial (imported_material ai_material)]>)
            (upd_next_addr N.succ
               (upd_cout (λ l, l ++ face_warnings (mFaces mesh)) w))).
Proof.
  intros Hvs Hfaces Hmat.
  unfold create_from_aiMesh. cbv zeta.
  change (if HasBones mesh then _ else _) with (vertex_format_of mesh).
  rewrite bind_run, Hvs. rewrite bind_run, (load_faces_run _ _ _ Hfaces).
  rewrite bind_run, (array_read_run _ _ _ _ Hmat).
  unfold imported_material, GetTextureCount_DIFFUSE.
  destruct (diffuse_textures ai_material) as [|path rest].
  - change (0 <? Z.of_nat (length [])) with false. cbn iota.
    mnorm. rewrite new_run. mnorm. unfold store, set_heap. mnorm.
    f_equal. apply world_ext;
      cbn [heap lua_states next_addr gl cerr cout pcalls upd_cout upd_heap
           upd_next_addr]; try reflexivity.
    by rewrite !insert_insert_eq.
  - replace (0 <? Z.of_nat (length (path :: rest))) with true
      by (symmetry; apply Z.ltb_lt; simpl; lia).
    cbn iota. mnorm. rewrite new_run. mnorm. unfold store, set_heap. mnorm.
    f_equal. apply world_ext;
      cbn [heap lua_states next_addr gl cerr cout pcalls upd_cout upd_heap
           upd_next_addr]; try reflexivity.
    by rewrite !insert_insert_eq.
Qed.

(** The loops of [create_from_aiMesh] run, and the material index is out
    of range. *)
Lemma create_from_aiMesh_no_material self mesh scene w :
  channels_readable mesh →
  Forall (λ f, (3 ≤ length (mIndices f))%nat) (mFaces mesh) →
  mMaterials scene !! mMaterialIndex mesh = None →
  create_from_aiMesh self mesh scene w = Fault.
Proof.
  intros Hch Hfaces Hmat.
  destruct (load_vertices_run mesh w Hch) as (vs & Hvs & _).
  unfold create_from_aiMesh. cbv zeta.
  change (if HasBones mesh then _ else _) with (vertex_format_of mesh).
  rewrite bind_run, Hvs. rewrite bind_run, (load_faces_run _ _ _ Hfaces).
  by rewrite bind_run, (array_read_fault _ _ _ Hmat).
Qed.

(** [make_buffers]: the calls always go through, the assertion decides. *)
Lemma make_buffers_exact self w :
  make_buffers self w
  = if gl_error (gl w) =? GL_NO_ERROR
    then Done (with_buffers self (gl_last_name (gl w)))
              (upd_gl (gl_after_make_buffers self) w)
    else AssertFailed (upd_gl (gl_after_make_buffers self) w).
Proof.
  destruct w as [hp ls na g ce co pc]. destruct g as [last vab abb eabb bs ap ea err].
  unfold make_buffers, with_buffers, gl_after_make_buffers, attributes_of, upd_gl.
  cbn [gl gl_error gl_last_name gl_buffer_size gl_attrib_pointers gl_enabled_attribs
       heap lua_states next_addr cerr cout pcalls].
  destruct (negb (Z.land (_vertex_format self) k_vertex_attribute_normal =? 0));
  destruct (negb (Z.land (_vertex_format self) k_vertex_attribute_color =? 0));
  destruct (negb (Z.land (_vertex_format self) k_vertex_attribute_uv =? 0));
  lazy [mbind M_bind mret M_ret assert_ set_gl upd_gl
        GL.glGenVertexArrays1 GL.glGenBuffers2 GL.gen_name GL.glBindVertexArray
        GL.glBindBuffer GL.glBufferData GL.glVertexAttribPointer
        GL.glEnableVertexAttribArray GL.glGetError
        gl gl_error gl_last_name gl_vertex_array_binding gl_array_buffer_binding
        gl_element_array_buffer_binding gl_buffer_size gl_attrib_pointers
        gl_enabled_attribs GL.bound
        fst snd heap lua_states next_addr cerr cout pcalls];
  cbn [map app fst snd];
  change (GL_ARRAY_BUFFER =? GL_ARRAY_BUFFER) with true;
  change (GL_ELEMENT_ARRAY_BUFFER =? GL_ARRAY_BUFFER) with false;
  change (GL_ARRAY_BUFFER =? GL_ELEMENT_ARRAY_BUFFER) with false;
  change (GL_ELEMENT_ARRAY_BUFFER =? GL_ELEMENT_ARRAY_BUFFER) with true;
  cbv iota;
  rewrite <- ?app_assoc; cbn [app];
  destruct (err =? GL_NO_ERROR); same.
Qed.

Lemma land_lor_same a k : k ≠ 0 → Z.land (Z.lor a k) k ≠ 0.
Proof.
  intros Hk H0. apply Hk. apply Z.bits_inj'. intros n Hn.
  apply (f_equal (λ z, Z.testbit z n)) in H0.
  rewrite Z.land_spec, Z.lor_spec, Z.bits_0 in H0. rewrite Z.bits_0.
  destruct (Z.testbit k n); [|done]. by rewrite orb_true_r in H0.
Qed.


Lemma land_lor_keep a c k : Z.land a k ≠ 0 → Z.land (Z.lor a c) k ≠ 0.
Proof.
  intros Ha H0. apply Ha. rewrite Z.land_lor_distr_l in H0.
  by apply Z.lor_eq_0_iff in H0 as [? _].
Qed.



Lemma format_has_color mesh :
  k_vertex_attribute_color ≠ 0 → HasVertexColors0 mesh = true →
  Z.land (vertex_format_of mesh) k_vertex_attribute_color ≠ 0.
Proof.
  intros Hk Hn. unfold vertex_format_of. cbv zeta. rewrite Hn.
  destruct (HasBones mesh);
    repeat first [ by apply land_lor_same | apply land_lor_keep ].
Qed.



End MoreMeshLemmas.

Section MoreMeshClaims.
Context `{!EngineDecls}.
Import ga_mesh.

(** [build] on a mesh that can be built, with the vertices it loads. *)
Lemma build_exact mesh scene ai_material w :
  channels_readable mesh →
  Forall (λ f, (3 ≤ length (mIndices f))%nat) (mFaces mesh) →
  mMaterials scene !! mMaterialIndex mesh = Some ai_material →
  gl_error (gl w) = GL_NO_ERROR →
  ∃ vs,
    Forall2 (loaded_from (vertex_format_of mesh) mesh)
            (seq 0 (length (mVertices mesh))) vs
    ∧ let m0 := {| _vertex_array := vs;
                   _index_array := flat_map first_three (mFaces mesh);
                   _name := mName mesh;
                   _material := N.succ (next_addr w);
                   _vertex_format := vertex_format_of mesh;
                   _vao := 0; _vbo := (0, 0); _index_count := 0 |} in
      build mesh scene w
      = Done (with_buffers m0 (gl_last_name (gl w)))
             (upd_gl (gl_after_make_buffers m0)
                (upd_heap (<[N.succ (next_addr w)
                             := OMaterial (imported_material ai_material)]>)
                   (upd_next_addr N.succ
                      (upd_cout (λ l, l ++ face_warnings (mFaces mesh)) w)))).
Proof.
  intros Hch Hfaces Hmat Herr.
  destruct (load_vertices_loaded mesh w Hch) as (vs & Hvs & Hall).
  exists vs. split; [exact Hall|]. cbv zeta.
  unfold build.
  rewrite bind_run, (create_from_aiMesh_with ctor mesh scene ai_material vs w Hvs Hfaces Hmat).
  cbn [ctor _vertex_array _index_array _vao _vbo _index_count app].
  rewrite make_buffers_exact.
  cbn [gl upd_heap upd_next_addr upd_cout]. by rewrite Herr.
Qed.

(** X9.  [ai_mat4_to_ga_mat4] overwrites all sixteen entries of the
    output: what the output matrix held before does not matter, and entry
    [r][c] of the result is entry [r][c] of the input. *)
Theorem ai_mat4_to_ga_mat4_copies_every_entry
    (in_mat : aiMatrix4x4) (out_mat out_mat' : ga_mat4f) :
  ai_mat4_to_ga_mat4 in_mat out_mat = ai_mat4_to_ga_mat4 in_mat out_mat'
  ∧ ∀ r c, mat_get (ai_mat4_to_ga_mat4 in_mat out_mat) r c = mat_get in_mat r c.
Proof.
  split; [by rewrite !ai_mat4_to_ga_mat4_eq|].
  intros r c. by rewrite ai_mat4_to_ga_mat4_eq.
Qed.

(** X10.  The vertex loop of [create_from_aiMesh] makes one vertex per
    vertex of the source mesh, in order.  Vertex [i] has the position of
    source vertex [i]; its normal is source normal [i] when the format has
    the normal bit and zero otherwise; its texture coordinates are the x and
    y of source coordinate [i] of channel 0 when the format has the uv bit
    and zero otherwise; its colour is zero. *)
Theorem vertex_loop_copies_the_mesh mesh scene ai_material w :
  channels_readable mesh →
  Forall (λ f, (3 ≤ length (mIndices f))%nat) (mFaces mesh) →
  mMaterials scene !! mMaterialIndex mesh = Some ai_material →
  ∃ m w', create_from_aiMesh ctor mesh scene w = Done m w'
    ∧ length (_vertex_array m) = length (mVertices mesh)
    ∧ _vertex_format m = vertex_format_of mesh
    ∧ ∀ i, (i < length (mVertices mesh))%nat →
        ∃ v, _vertex_array m !! i = Some v
             ∧ loaded_from (vertex_format_of mesh) mesh i v.
Proof.
  intros Hch Hfaces Hmat.
  destruct (load_vertices_loaded mesh w Hch) as (vs & Hvs & Hall).
  eexists _, _.
  split; [apply (create_from_aiMesh_with ctor mesh scene ai_material vs w Hvs Hfaces Hmat)|].
  cbn [_vertex_array _vertex_format ctor app].
  pose proof (Forall2_length _ _ _ Hall) as Hlen. rewrite length_seq in Hlen.
  split; [done|]. split; [reflexivity|]. intros i Hi.
  destruct (lookup_lt_is_Some_2 vs i) as [v Hv]; [lia|].
  exists v. split; [exact Hv|].
  eapply (Forall2_lookup_lr _ _ _ i i v Hall); [|exact Hv].
  by apply lookup_seq.
Qed.

(** X11.  Vertex colours are never read.  For a mesh that has them, the
    format gets the colour bit and [make_buffers] declares and enables
    attribute array 2 at byte offset 24 of each vertex, but the colour of
    every vertex in the vertex array is zero. *)
Theorem vertex_colours_are_declared_but_not_loaded mesh scene ai_material w :
  channels_readable mesh →
  Forall (λ f, (3 ≤ length (mIndices f))%nat) (mFaces mesh) →
  mMaterials scene !! mMaterialIndex mesh = Some ai_material →
  gl_error (gl w) = GL_NO_ERROR →
  HasVertexColors0 mesh = true →
  k_vertex_attribute_color ≠ 0 →
  ∃ m w', build mesh scene w = Done m w'
    ∧ (_vao m, 2) ∈ gl_enabled_attribs (gl w')
    ∧ (_vao m, 2, 3, sizeof_ga_vertex, 24) ∈ gl_attrib_pointers (gl w')
    ∧ Forall (λ v, _color v = vec3_zero) (_vertex_array m).
Proof.
  intros Hch Hfaces Hmat Herr Hcol Hk.
  destruct (build_exact mesh scene ai_material w Hch Hfaces Hmat Herr)
    as (vs & Hall & Hbuild).
  cbv zeta in Hbuild. eexists _, _. split; [exact Hbuild|].
  cbn [with_buffers _vao _vertex_array gl upd_gl gl_after_make_buffers
       gl_enabled_attribs gl_attrib_pointers _vertex_format upd_heap upd_next_addr
       upd_cout].
  assert ((2, 3, 24) ∈ attributes_of (vertex_format_of mesh)) as Hin.
  { unfold attributes_of.
    destruct (Z.eqb_spec (Z.land (vertex_format_of mesh) k_vertex_attribute_color) 0)
      as [H0|_]; [by destruct (format_has_color mesh Hk Hcol)|].
    cbn [negb]. set_solver. }
  split; [|split].
  - apply elem_of_app. right. apply list_elem_of_fmap. by exists (2, 3, 24).
  - apply elem_of_app. right. apply list_elem_of_fmap. by exists (2, 3, 24).
  - clear -Hall. induction Hall as [|i v l vs Hv _ IH]; constructor; [|exact IH].
    by destruct Hv as (_ & Hc & _).
Qed.


(** X13.  [make_buffers] looks at the GL error flag once, after all its
    calls.  When the context already carries an error on entry, the
    buffers are made all the same, the flag is read, which clears it, and
    the assertion stops the process. *)
Theorem make_buffers_stops_on_pending_error self w :
  gl_error (gl w) ≠ GL_NO_ERROR →
  ∃ w', make_buffers self w = AssertFailed w'
    ∧ gl_last_name (gl w') = gl_last_name (gl w) + 3
    ∧ is_Some (gl_buffer_size (gl w') !! (gl_last_name (gl w) + 2))
    ∧ gl_error (gl w') = GL_NO_ERROR
    ∧ heap w' = heap w.
Proof.
  intros Herr. rewrite make_buffers_exact.
  destruct (Z.eqb_spec (gl_error (gl w)) GL_NO_ERROR) as [H0|_]; [done|].
  eexists. split; [reflexivity|].
  cbn [gl upd_gl gl_after_make_buffers gl_last_name gl_buffer_size gl_error heap].
  split; [lia|]. split; [|done].
  rewrite lookup_insert_ne by lia.
  replace (gl_last_name (gl w) + 2) with (gl_last_name (gl w) + 1 + 1) by lia.
  rewrite lookup_insert_eq. by eexists.
Qed.

(** X14.  [create_from_aiMesh] never clears what the mesh object holds.
    Called for a second source mesh on the same object, it appends the
    vertices and the indices of the second to those of the first; the new
    indices are stored as they are, not offset by the number of vertices
    already there; name, format and material are those of the second mesh,
    and the material object made for the first stays on the heap. *)
Theorem create_from_aiMesh_twice_appends mesh1 mesh2 scene mat1 mat2 w :
  channels_readable mesh1 →
  channels_readable mesh2 →
  Forall (λ f, (3 ≤ length (mIndices f))%nat) (mFaces mesh1) →
  Forall (λ f, (3 ≤ length (mIndices f))%nat) (mFaces mesh2) →
  mMaterials scene !! mMaterialIndex mesh1 = Some mat1 →
  mMaterials scene !! mMaterialIndex mesh2 = Some mat2 →
  ∃ m w',
    (m1 ← create_from_aiMesh ctor mesh1 scene; create_from_aiMesh m1 mesh2 scene) w
    = Done m w'
    ∧ length (_vertex_array m)
      = (length (mVertices mesh1) + length (mVertices mesh2))%nat
    ∧ _index_array m
      = flat_map first_three (mFaces mesh1) ++ flat_map first_three (mFaces mesh2)
    ∧ _name m = mName mesh2
    ∧ _vertex_format m = vertex_format_of mesh2
    ∧ heap w' !! _material m = Some (OMaterial (imported_material mat2))
    ∧ ∃ old, old ≠ _material m
             ∧ heap w' !! old = Some (OMaterial (imported_material mat1)).
Proof.
  intros Hch1 Hch2 Hf1 Hf2 Hm1 Hm2.
  destruct (create_from_aiMesh_run ctor mesh1 scene mat1 w Hch1 Hf1 Hm1)
    as (vs1 & Hlen1 & Hrun1).
  rewrite bind_run, Hrun1.
  match goal with
  | |- context [create_from_aiMesh ?m1 mesh2 scene ?w1] =>
      destruct (create_from_aiMesh_run m1 mesh2 scene mat2 w1 Hch2 Hf2 Hm2)
        as (vs2 & Hlen2 & Hrun2)
  end.
  eexists _, _. split; [exact Hrun2|].
  cbn [_vertex_array _index_array _name _vertex_format _material ctor app
       heap next_addr upd_heap upd_next_addr upd_cout].
  split; [by rewrite length_app, Hlen1, Hlen2|].
  split; [reflexivity|]. split; [reflexivity|]. split; [reflexivity|].
  split; [apply lookup_insert_eq|].
  exists (N.succ (next_addr w)). split; [lia|].
  rewrite lookup_insert_ne by lia. apply lookup_insert_eq.
Qed.

(** X15.  The material index of the source mesh is used without a check:
    when the scene has no material at that index, [create_from_aiMesh] reads
    past the end of the material array, after both of its loops have run. *)
Theorem material_index_is_not_checked self mesh scene w :
  channels_readable mesh →
  Forall (λ f, (3 ≤ length (mIndices f))%nat) (mFaces mesh) →
  (length (mMaterials scene) ≤ mMaterialIndex mesh)%nat →
  array_read (mMaterials scene) (mMaterialIndex mesh) w = Fault
  ∧ create_from_aiMesh self mesh scene w = Fault.
Proof.
  intros Hch Hfaces Hidx.
  assert (mMaterials scene !! mMaterialIndex mesh = None) as Hnone
    by (by apply lookup_ge_None).
  split; [by apply array_read_fault|].
  by apply create_from_aiMesh_no_material.
Qed.


(** X20.  The destructor of a mesh gives back what [make_buffers] made:
    after [make_buffers] and then the destructor, the two buffers have no
    storage and no attribute array is declared or enabled for the vertex
    array of the mesh any more.  The material the mesh points to is not
    deleted: the objects on the heap are all still there. *)
Theorem dtor_releases_the_buffers self w :
  gl_error (gl w) = GL_NO_ERROR →
  ∃ m w1 w2,
    make_buffers self w = Done m w1
    ∧ dtor m w1 = Done () w2
    ∧ gl_buffer_size (gl w2) !! fst (_vbo m) = None
    ∧ gl_buffer_size (gl w2) !! snd (_vbo m) = None
    ∧ (∀ a, a ∈ gl_enabled_attribs (gl w2) → a.1 ≠ _vao m)
    ∧ (∀ a, a ∈ gl_attrib_pointers (gl w2) → a.1.1.1.1 ≠ _vao m)
    ∧ heap w2 = heap w.
Proof.
  intros Herr. rewrite make_buffers_exact, Herr.
  change (GL_NO_ERROR =? GL_NO_ERROR) with true.
  eexists _, _, _. split; [reflexivity|]. split; [reflexivity|].
  cbn [with_buffers _vao _vbo gl upd_gl gl_after_make_buffers gl_buffer_size
       gl_enabled_attribs gl_attrib_pointers heap fst snd].
  split.
  { rewrite lookup_delete_ne by lia. apply lookup_delete_eq. }
  split; [apply lookup_delete_eq|].
  split.
  - intros a Ha. by apply list_elem_of_filter in Ha as [Hne _].
  - split; [|reflexivity].
    intros a Ha. by apply list_elem_of_filter in Ha as [Hne _].
Qed.

End MoreMeshClaims.

(* ===================================================================== *)
(** * More on the model component *)
(* ===================================================================== *)

(** Induction on an Assimp node, with the property for the children. *)
Lemma aiNode_tree_ind (P : aiNode → Prop) :
  (∀ t name meshes children,
      Forall P children → P (Build_aiNode t name meshes children)) →
  ∀ ai_node, P ai_node.
Proof.
  intros Hnode. fix IH 1. intros [t name meshes children]. apply Hnode.
  induction children as [|child children IHc]; constructor; [apply IH | exact IHc].
Qed.

(** A loop of reads from an array: all the indices are in range, or the
    loop reads out of bounds. *)
Lemma map_M_array_read {A} (a : list A) (indices : list nat) w :
  map_M (array_read a) indices w
  = if forallb (λ i, i <? length a)%nat indices
    then Done (omap (λ i, a !! i) indices) w
    else Fault.
Proof.
  induction indices as [|i indices IH]; [reflexivity|].
  change (map_M (array_read a) (i :: indices) w)
    with ((array_read a i ≫= λ b, map_M (array_read a) indices
                                   ≫= λ bs, mret (b :: bs)) w).
  cbn [forallb omap list_omap]. rewrite bind_run.
  destruct (Nat.ltb_spec i (length a)) as [Hlt|Hge]; cbn [andb].
  - destruct (lookup_lt_is_Some_2 a i Hlt) as [e He].
    rewrite (array_read_run _ _ _ _ He), bind_run, IH, He.
    by destruct (forallb _ indices).
  - by rewrite array_read_fault by (by apply lookup_ge_None).
Qed.

(** A loop whose rounds each return without effect, or fault. *)
Lemma map_M_all_or_fault {A B} (f : A → M B) (ok : A → bool) (g : A → B)
    (l : list A) w :
  Forall (λ a, f a w = if ok a then Done (g a) w else Fault) l →
  map_M f l w = if forallb ok l then Done (map g l) w else Fault.
Proof.
  induction 1 as [|a l Ha _ IH]; [reflexivity|].
  change (map_M f (a :: l) w)
    with ((f a ≫= λ b, map_M f l ≫= λ bs, mret (b :: bs)) w).
  cbn [forallb map]. rewrite bind_run, Ha.
  destruct (ok a); cbn [andb]; [|reflexivity].
  rewrite bind_run, IH. by destruct (forallb ok l).
Qed.

Lemma node_count_node_of meshes_ ai_node :
  node_count (node_of meshes_ ai_node) = ai_node_count ai_node.
Proof.
  induction ai_node as [t name meshes children IH] using aiNode_tree_ind.
  cbn [node_of node_count ai_node_count]. f_equal. f_equal.
  rewrite map_map. induction IH as [|child children Hc _ IHc]; [reflexivity|].
  cbn [map]. by rewrite Hc, IHc.
Qed.

Lemma meshes_in_node_of meshes_ ai_node p :
  p ∈ meshes_in (node_of meshes_ ai_node) → p ∈ meshes_.
Proof.
  induction ai_node as [t name meshes children IH] using aiNode_tree_ind.
  cbn [node_of meshes_in]. intros Hp. apply elem_of_app in Hp as [Hp|Hp].
  - apply list_elem_of_omap in Hp as (i & _ & Hi).
    by apply list_elem_of_lookup_2 in Hi.
  - apply list_elem_of_In, in_flat_map in Hp as (n & Hn & Hin).
    apply list_elem_of_In, list_elem_of_fmap in Hn as (child & -> & Hchild).
    rewrite Forall_forall in IH. apply (IH child); [done|].
    by apply list_elem_of_In.
Qed.

Section MoreModelLemmas.
Context `{!EngineDecls, !Assimp}.
Import ga_model_component.

Lemma process_node_recursive_eq meshes_ t name meshes children node :
  process_node_recursive meshes_ (Build_aiNode t name meshes children) node
  = (added ← map_M (λ i, array_read meshes_ i) meshes;
     children' ← map_M (λ ai_child,
                          process_node_recursive meshes_ ai_child ga_node.ctor)
                       children;
     mret (Build_ga_node name
             (mat_transpose (ai_mat4_to_ga_mat4 t (node_transform node)))
             (node_world node)
             (node_meshes node ++ added)
             (node_children node ++ children'))).
Proof. reflexivity. Qed.

(** [process_node_recursive] on a new node: the tree is mirrored and
    nothing else happens, or some mesh index is out of range and the read
    of [_meshes] is out of bounds. *)
Lemma process_node_recursive_run meshes_ ai_node w :
  process_node_recursive meshes_ ai_node ga_node.ctor w
  = if indices_below (length meshes_) ai_node
    then Done (node_of meshes_ ai_node) w
    else Fault.
Proof.
  revert w. induction ai_node as [t name meshes children IH] using aiNode_tree_ind.
  intros w. rewrite process_node_recursive_eq.
  change (λ i : nat, array_read meshes_ i) with (array_read meshes_).
  rewrite bind_run, map_M_array_read. cbn [indices_below node_of].
  destruct (forallb (λ i, i <? length meshes_)%nat meshes); cbn [andb]; [|reflexivity].
  rewrite bind_run.
  rewrite (map_M_all_or_fault _ (indices_below (length meshes_)) (node_of meshes_)).
  2:{ eapply Forall_impl; [exact IH|]. intros child Hchild. apply Hchild. }
  destruct (forallb (indices_below (length meshes_)) children); [|reflexivity].
  unfold mret, M_ret. cbn [ga_node.ctor node_transform node_world node_meshes
                           node_children app].
  by rewrite ai_mat4_to_ga_mat4_eq.
Qed.

(** One round of the mesh loop of the constructor.  What it built is
    described on any heap that agrees with the new one on the addresses
    handed out so far. *)
Lemma build_mesh_run scene ai_mesh w :
  buildable scene ai_mesh →
  gl_error (gl w) = GL_NO_ERROR →
  ∃ w', build_mesh scene ai_mesh w = Done (N.succ (next_addr w)) w'
    ∧ next_addr w' = N.succ (N.succ (next_addr w))
    ∧ gl_error (gl w') = GL_NO_ERROR
    ∧ cout w' = cout w ++ face_warnings (mFaces ai_mesh)
    ∧ cerr w' = cerr w
    ∧ lua_states w' = lua_states w
    ∧ (∀ p, (p ≤ next_addr w)%N → heap w' !! p = heap w !! p)
    ∧ (∀ h, (∀ q, (q ≤ next_addr w')%N → h !! q = heap w' !! q) →
            built_from scene ai_mesh h (N.succ (next_addr w))).
Proof.
  intros (Hch & Hfaces & mat & Hmat) Herr. unfold build_mesh.
  rewrite bind_run, new_run. cbn beta iota.
  set (w1 := upd_heap _ (upd_next_addr N.succ w)).
  destruct (create_from_aiMesh_run ga_mesh.ctor ai_mesh scene mat w1 Hch Hfaces Hmat)
    as (vs & Hlen & Hcreate).
  rewrite bind_run, Hcreate. cbn beta iota.
  rewrite bind_run. unfold store at 1, set_heap at 1. cbn beta iota.
  rewrite bind_run, make_buffers_exact.
  cbn [gl upd_heap upd_next_addr upd_cout w1]. rewrite Herr.
  change (GL_NO_ERROR =? GL_NO_ERROR) with true. cbn beta iota.
  rewrite bind_run. unfold store at 1, set_heap at 1. cbn beta iota.
  unfold mret, M_ret.
  eexists. split; [reflexivity|].
  cbn [next_addr gl gl_error gl_last_name cout cerr lua_states heap
       upd_heap upd_gl upd_next_addr upd_cout gl_after_make_buffers w1
       ga_mesh.ctor _vertex_array _index_array app].
  split; [reflexivity|]. split; [reflexivity|].
  split; [reflexivity|]. split; [reflexivity|]. split; [reflexivity|]. split.
  - intros p Hp. rewrite !lookup_insert_ne by lia. reflexivity.
  - intros h Hh.
    exists (with_buffers
              {| _vertex_array := vs;
                 _index_array := flat_map first_three (mFaces ai_mesh);
                 _name := mName ai_mesh;
                 _material := N.succ (N.succ (next_addr w));
                 _vertex_format := vertex_format_of ai_mesh;
                 _vao := 0; _vbo := (0, 0); _index_count := 0 |}
              (gl_last_name (gl w))), mat.
    cbn [with_buffers _name _index_array _index_count _vertex_array _material].
    split; [rewrite Hh by lia; apply lookup_insert_eq|].
    split; [reflexivity|]. split; [reflexivity|].
    split.
    { rewrite (flat_map_first_three_length _ Hfaces). unfold mNumFaces. lia. }
    split; [exact Hlen|]. split; [exact Hmat|].
    rewrite Hh by lia. rewrite !lookup_insert_ne by lia. apply lookup_insert_eq.
Qed.

(** The mesh loop of the constructor. *)
Lemma build_meshes_run scene meshes w :
  Forall (buildable scene) meshes →
  gl_error (gl w) = GL_NO_ERROR →
  ∃ ps w', map_M (build_mesh scene) meshes w = Done ps w'
    ∧ next_addr w' = (next_addr w + 2 * N.of_nat (length meshes))%N
    ∧ gl_error (gl w') = GL_NO_ERROR
    ∧ cout w' = cout w ++ concat (map (λ mesh, face_warnings (mFaces mesh)) meshes)
    ∧ cerr w' = cerr w
    ∧ lua_states w' = lua_states w
    ∧ (∀ p, (p ≤ next_addr w)%N → heap w' !! p = heap w !! p)
    ∧ (∀ i p, ps !! i = Some p → p = (next_addr w + 2 * N.of_nat i + 1)%N)
    ∧ Forall2 (λ ai_mesh p,
                 ∀ h, (∀ q, (q ≤ next_addr w')%N → h !! q = heap w' !! q) →
                      built_from scene ai_mesh h p) meshes ps.
Proof.
  intros Hall. revert w. induction Hall as [|ai_mesh meshes Hmesh _ IH]; intros w Herr.
  - exists [], w. split; [reflexivity|]. split; [cbn [length]; lia|].
    split; [exact Herr|]. split; [by rewrite app_nil_r|].
    split; [reflexivity|]. split; [reflexivity|]. split; [done|]. split; [done|].
    constructor.
  - destruct (build_mesh_run scene ai_mesh w Hmesh Herr)
      as (w1 & Hrun1 & Hnext1 & Herr1 & Hcout1 & Hcerr1 & Hls1 & Hheap1 & Hbuilt1).
    destruct (IH w1 Herr1)
      as (ps & w' & Hrun & Hnext & Herr' & Hcout & Hcerr & Hls & Hheap & Haddr & Hbuilt).
    exists (N.succ (next_addr w) :: ps), w'.
    split.
    { change (map_M (build_mesh scene) (ai_mesh :: meshes) w)
        with ((build_mesh scene ai_mesh ≫= λ b,
               map_M (build_mesh scene) meshes ≫= λ bs, mret (b :: bs)) w).
      by rewrite bind_run, Hrun1, bind_run, Hrun. }
    split; [rewrite Hnext, Hnext1; cbn [length]; lia|].
    split; [exact Herr'|].
    split; [rewrite Hcout, Hcout1; cbn [map concat]; by rewrite app_assoc|].
    split; [congruence|]. split; [congruence|].
    split.
    { intros p Hp. rewrite Hheap by lia. by apply Hheap1. }
    split.
    { intros [|i] p Hp; cbn in Hp.
      - injection Hp as <-. lia.
      - rewrite (Haddr i p Hp), Hnext1. lia. }
    constructor; [|exact Hbuilt].
    intros h Hh. apply Hbuilt1. intros q Hq.
    rewrite Hh by lia. by apply Hheap.
Qed.

End MoreModelLemmas.

Section MoreModelClaims.
Context `{!EngineDecls, !Assimp}.
Import ga_model_component.

(** X17.  [process_node_recursive], started on a new node with every
    mesh index of the Assimp tree in range, returns the tree mirrored:
    node for node the same name, the matrix transposed, the mesh pointers
    the indices select from [_meshes], the children in order.  The tree has
    as many nodes as the Assimp tree, every mesh pointer in it is one of
    [_meshes], and nothing else has changed. *)
Theorem process_node_recursive_mirrors_the_tree meshes_ ai_node w :
  indices_below (length meshes_) ai_node = true →
  ∃ root, process_node_recursive meshes_ ai_node ga_node.ctor w = Done root w
    ∧ root = node_of meshes_ ai_node
    ∧ node_count root = ai_node_count ai_node
    ∧ ∀ p, p ∈ meshes_in root → p ∈ meshes_.
Proof.
  intros Hok. exists (node_of meshes_ ai_node).
  split; [by rewrite process_node_recursive_run, Hok|]. split; [reflexivity|].
  split; [apply node_count_node_of|]. intros p. apply meshes_in_node_of.
Qed.

(** X18.  The mesh indices of an Assimp node are used without a check:
    when a node anywhere in the tree has an index that [_meshes] does not
    have, [process_node_recursive] reads [_meshes] out of bounds. *)
Theorem process_node_recursive_trusts_mesh_indices meshes_ ai_node w :
  indices_below (length meshes_) ai_node = false →
  process_node_recursive meshes_ ai_node ga_node.ctor w = Fault.
Proof. intros Hbad. by rewrite process_node_recursive_run, Hbad. Qed.

(** X19.  The constructor on a file Assimp reads, when every mesh of the
    scene can be built and every mesh index of the node tree is in range:
    it writes the number of meshes and then the warnings of the meshes to
    [std::cout]; [_meshes] gets one pointer per mesh of the scene, in
    order, each to a mesh object of its own, built from that mesh; the root
    mirrors the node tree of the scene; the objects that were on the heap
    are untouched. *)
Theorem ctor_builds_every_mesh_of_the_scene ent model_file scene w :
  ReadFile (g_root_path +:+ model_file) = Some scene →
  Forall (buildable scene) (mMeshes scene) →
  indices_below (length (mMeshes scene)) (mRootNode scene) = true →
  gl_error (gl w) = GL_NO_ERROR →
  ∃ c w', ctor ent model_file w = Done c w'
    ∧ _scene c = Some scene
    ∧ mc_entity c = ent
    ∧ length (_meshes c) = length (mMeshes scene)
    ∧ NoDup (_meshes c)
    ∧ (∀ i ai_mesh, mMeshes scene !! i = Some ai_mesh →
         ∃ p, _meshes c !! i = Some p ∧ built_from scene ai_mesh (heap w') p)
    ∧ _root c = node_of (_meshes c) (mRootNode scene)
    ∧ cout w' = cout w ++ import_log scene
    ∧ (∀ p, (p ≤ next_addr w)%N → heap w' !! p = heap w !! p).
Proof.
  intros Hread Hall Hidx Herr. unfold ctor. rewrite Hread.
  rewrite bind_run. unfold cout_put at 1. cbn beta iota.
  set (w0 := upd_cout _ w).
  destruct (build_meshes_run scene (mMeshes scene) w0 Hall Herr)
    as (ps & w' & Hrun & Hnext & Herr' & Hcout & Hcerr & Hls & Hheap & Haddr & Hbuilt).
  pose proof (Forall2_length _ _ _ Hbuilt) as Hlen.
  rewrite bind_run, Hrun. cbn beta iota.
  rewrite bind_run, process_node_recursive_run, <- Hlen, Hidx. cbn beta iota.
  eexists _, _. split; [reflexivity|].
  cbn [_scene mc_entity _meshes _root].
  split; [reflexivity|]. split; [reflexivity|]. split; [done|]. split.
  { apply NoDup_alt. intros i j p Hi Hj.
    apply Haddr in Hi. apply Haddr in Hj. lia. }
  split.
  { intros i ai_mesh Hi.
    destruct (Forall2_lookup_l _ _ _ _ _ Hbuilt Hi) as (p & Hp & Hb).
    exists p. split; [exact Hp|]. by apply Hb. }
  split; [reflexivity|]. split.
  { rewrite Hcout. unfold import_log. subst w0. cbn [cout upd_cout].
    by rewrite <- app_assoc. }
  intros p Hp. rewrite Hheap by (subst w0; exact Hp). reflexivity.
Qed.

End MoreModelClaims.

Section ShortFaces.
Context `{!EngineDecls, !Assimp}.
Import ga_model_component.




End ShortFaces.

(* ===================================================================== *)
(** * The properties on the concrete engine *)
(* ===================================================================== *)

Section Witnesses.
Import Scenario.
#[local] Existing Instance decls.
#[local] Existing Instance runtime.
#[local] Existing Instance no_files.

(** The conversion to [float] is exact on 1.0 and rounds 0.1. *)
Example float_of_double_one : float_of_double d_one = fone.
Proof. reflexivity. Qed.

Example float_of_double_tenth :
  float_of_double d_tenth = S754_finite false 13421773 (-27).
Proof. reflexivity. Qed.

(** The left button (bit 1) is down in [params0]: the left query answers
    true and the right one false. *)
Lemma frame_params_get_input_witness :
  live 4%N state1 world1
  ∧ heap world1 !! params_ptr = Some (OFrameParams params0)
  ∧ params_ptr ≠ nullptr
  ∧ call_value ga_lua_component.code 4%N (LCFunction CF_frame_params_get_input_left)
               [LLightUserdata params_ptr] world1
    = Done (Returned [LBoolean true]) world1
  ∧ call_value ga_lua_component.code 4%N (LCFunction CF_frame_params_get_input_right)
               [LLightUserdata params_ptr] world1
    = Done (Returned [LBoolean false]) world1.
Proof.
  assert (live 4%N state1 world1) as HL by reflexivity.
  assert (heap world1 !! params_ptr = Some (OFrameParams params0)) as Hp by reflexivity.
  assert (params_ptr ≠ nullptr) as Hn by (unfold params_ptr, nullptr; lia).
  pose proof (frame_params_get_input_reads_button_bit 4%N state1 world1 params_ptr
                params0 HL Hp Hn) as (Hleft & Hright & _).
  repeat split; try assumption.
Defined.

(** Translating the entity at address 1 by (1.0, 0.5, 0.1): its position
    becomes the three numbers as floats; with one argument only, the entity
    is untouched and the diagnostic is written. *)
Lemma entity_translate_witness :
  live 4%N state1 world1
  ∧ heap world1 !! entity_ptr = Some (OEntity entity0)
  ∧ entity_ptr ≠ nullptr
  ∧ Z.of_nat (length [LLightUserdata entity_ptr]) ≠ 4
  ∧ call_value ga_lua_component.code 4%N (LCFunction CF_entity_translate)
               [LLightUserdata entity_ptr; LNumber d_one; LNumber d_half; LNumber d_tenth]
               world1
    = Done (Returned [])
           (upd_heap (<[entity_ptr := OEntity (translate entity0
                                                 (delta d_one d_half d_tenth))]>) world1)
  ∧ position (translate entity0 (delta d_one d_half d_tenth))
    = {| x := fone;
         y := S754_finite false 8388608 (-24);
         z := S754_finite false 13421773 (-27) |}
  ∧ ∃ w', call_value ga_lua_component.code 4%N (LCFunction CF_entity_translate)
                     [LLightUserdata entity_ptr] world1
          = Done (Returned []) w'
        ∧ heap w' = heap world1
        ∧ cerr w' = ["Function entity_translate expected 4 arguments but got 1."
                     +:+ endl]
        ∧ lua_states w' = lua_states world1.
Proof.
  assert (live 4%N state1 world1) as HL by reflexivity.
  assert (heap world1 !! entity_ptr = Some (OEntity entity0)) as Hp by reflexivity.
  assert (entity_ptr ≠ nullptr) as Hn by (unfold entity_ptr, nullptr; lia).
  assert (Z.of_nat (length [LLightUserdata entity_ptr]) ≠ 4) as Hargs by (simpl; lia).
  pose proof (entity_translate_moves_or_reports 4%N state1 world1 entity_ptr entity0
                d_one d_half d_tenth [LLightUserdata entity_ptr] HL Hp Hn Hargs)
    as (Hmove & Hpos & Hreport).
  repeat split; assumption.
Defined.

(** [frame_params_get_input_left(params, 1.0)] returns 1.0. *)
Lemma mismatch_returns_last_argument_witness :
  live 4%N state1 world1
  ∧ CF_frame_params_get_input_left ≠ CF_entity_translate
  ∧ [LLightUserdata params_ptr] ≠ []
  ∧ call_value ga_lua_component.code 4%N (LCFunction CF_frame_params_get_input_left)
               [LLightUserdata params_ptr; LNumber d_one] world1
    = Done (Returned [LNumber d_one])
           (upd_cerr (λ c, c ++ ["Function frame_params_get_input_left expected 1 argument but got 2."
                                 +:+ endl]) world1)
  ∧ call_value ga_lua_component.code 4%N (LCFunction CF_frame_params_get_input_left)
               [] world1
    = Fault.
Proof.
  assert (live 4%N state1 world1) as HL by reflexivity.
  assert (CF_frame_params_get_input_left ≠ CF_entity_translate) as Hf by discriminate.
  assert ([LLightUserdata params_ptr] ≠ []) as Hargs by discriminate.
  pose proof (mismatch_returns_last_argument CF_frame_params_get_input_left 4%N state1
                world1 [LLightUserdata params_ptr] (LNumber d_one) HL Hf Hargs)
    as (Hlast & Hnone).
  repeat split; assumption.
Defined.

(** A script that defines nothing: the component is disabled, the state
    opened at address 4 is closed, and three frames change nothing. *)
Lemma ctor_without_update_witness :
  component_ptr ≠ nullptr
  ∧ (∀ c, load_chunk (g_root_path +:+ "scripts/idle.lua") = Loaded c →
          rr_outcome (top_level component_ptr entity_ptr world0 c) ≠ Crashed
          ∧ is_function (update_after component_ptr entity_ptr world0 c) = false)
  ∧ ∃ w', ga_lua_component.ctor component_ptr entity_ptr "scripts/idle.lua" world0
          = Done () w'
        ∧ disabled component_ptr entity_ptr w'
        ∧ lua_states w' !! 4%N = None
        ∧ cerr w' = ["Script scripts/idle.lua does not contain 'update' function."
                     +:+ endl]
        ∧ for_each [params_ptr; params_ptr; params_ptr]
                   (ga_lua_component.update component_ptr) w'
          = Done () w'.
Proof.
  assert (component_ptr ≠ nullptr) as Hthis by (unfold component_ptr, nullptr; lia).
  assert (∀ c, load_chunk (g_root_path +:+ "scripts/idle.lua") = Loaded c →
               rr_outcome (top_level component_ptr entity_ptr world0 c) ≠ Crashed
               ∧ is_function (update_after component_ptr entity_ptr world0 c) = false)
    as Hscript.
  { intros c Hc. vm_compute in Hc. injection Hc as <-. split; [|reflexivity].
    vm_compute. discriminate. }
  split; [exact Hthis|]. split; [exact Hscript|].
  destruct (ctor_without_update_is_disabled component_ptr entity_ptr "scripts/idle.lua"
              world0 Hthis Hscript) as (w' & Hctor & Hd & Hstates & Hclosed & Hframes).
  exists w'. split; [exact Hctor|]. split; [exact Hd|]. split; [exact Hclosed|].
  split; [|apply Hframes].
  rewrite ctor_run in Hctor. vm_compute in Hctor. injection Hctor as <-. reflexivity.
Defined.

(** A script that binds [update] and then fails at top level: the
    component is enabled all the same, the error object stays on the stack
    and [std::cerr] stays empty. *)
Lemma ctor_ignores_top_level_status_witness :
  (∀ c, load_chunk (g_root_path +:+ "scripts/broken.lua") = Loaded c →
        rr_outcome (top_level component_ptr entity_ptr world0 c) ≠ Crashed
        ∧ rr_heap (top_level component_ptr entity_ptr world0 c) !! component_ptr
          = Some (OLuaComponent {| _entity := entity_ptr; _lua := new_state world0 |}))
  ∧ ∃ w', ga_lua_component.ctor component_ptr entity_ptr "scripts/broken.lua" world0
          = Done () w'
        ∧ enabled component_ptr entity_ptr 4%N w'
        ∧ (∃ g, live 4%N {| stack := [LString "attempt to index a nil value"];
                            globals := g |} w')
        ∧ cerr w' = []
        ∧ ¬ disabled component_ptr entity_ptr w'.
Proof.
  assert (∀ c, load_chunk (g_root_path +:+ "scripts/broken.lua") = Loaded c →
        rr_outcome (top_level component_ptr entity_ptr world0 c) ≠ Crashed
        ∧ rr_heap (top_level component_ptr entity_ptr world0 c) !! component_ptr
          = Some (OLuaComponent {| _entity := entity_ptr; _lua := new_state world0 |}))
    as Hscript.
  { intros c Hc. vm_compute in Hc. injection Hc as <-. split; [|reflexivity].
    vm_compute. discriminate. }
  split; [exact Hscript|].
  destruct (ctor_ignores_top_level_status component_ptr entity_ptr "scripts/broken.lua"
              world0 Hscript) as (w' & Hctor & Hiff & Hraised).
  destruct (Hraised chunk_broken LUA_ERRRUN_ (LString "attempt to index a nil value"))
    as (Hen & Hlive & Hcerr); [reflexivity..|].
  exists w'. split; [exact Hctor|]. split; [exact Hen|].
  split; [eexists; exact Hlive|]. split; [exact Hcerr|].
  intros Hd. apply Hiff in Hd as [(e & msg & Hload)|(c & Hload & Hnf)].
  - vm_compute in Hload. discriminate.
  - vm_compute in Hload. injection Hload as <-. vm_compute in Hnf. discriminate.
Defined.

(** Two frames of the component of [world1]: the first calls the function
    [update] is bound to, which rebinds the global; the second calls the
    new one. *)
Lemma update_calls_current_update_witness :
  component_ptr ≠ nullptr
  ∧ 4%N ≠ nullptr
  ∧ heap world1 !! component_ptr
    = Some (OLuaComponent {| _entity := entity_ptr; _lua := 4%N |})
  ∧ live 4%N state1 world1
  ∧ globals state1 !! "update" = Some (LFunction fn_first)
  ∧ (∃ w', ga_lua_component.update component_ptr params_ptr world1 = Done () w'
         ∧ pcalls w' = [(LFunction fn_first,
                         [LLightUserdata component_ptr; LLightUserdata params_ptr])])
  ∧ (∃ w'', (ga_lua_component.update component_ptr params_ptr
             ≫= λ _, ga_lua_component.update component_ptr params_ptr) world1
            = Done () w''
          ∧ pcalls w''
            = [(LFunction fn_first,
                [LLightUserdata component_ptr; LLightUserdata params_ptr]);
               (LFunction fn_then,
                [LLightUserdata component_ptr; LLightUserdata params_ptr])]).
Proof.
  assert (component_ptr ≠ nullptr) as Hthis by (unfold component_ptr, nullptr; lia).
  assert (4%N ≠ nullptr) as HL0 by (unfold nullptr; lia).
  assert (heap world1 !! component_ptr
          = Some (OLuaComponent {| _entity := entity_ptr; _lua := 4%N |})) as Hc
    by reflexivity.
  assert (live 4%N state1 world1) as HL by reflexivity.
  assert (globals state1 !! "update" = Some (LFunction fn_first)) as Hu by reflexivity.
  destruct (update_calls_current_update_once component_ptr entity_ptr 4%N state1
              params_ptr world1 fn_first Hthis HL0 Hc HL Hu) as (Hret & _ & Htwo).
  repeat (split; [assumption|]). split.
  - destruct (Hret [] eq_refl) as (w' & Hrun & Hlog & _).
    exists w'. split; [exact Hrun | exact Hlog].
  - destruct (Htwo [] fn_then params_ptr [] eq_refl eq_refl eq_refl eq_refl)
      as (w'' & Hrun & Hlog).
    exists w''. split; [exact Hrun | exact Hlog].
Defined.

(** The square as a triangle and a quad: six indices, the quad gives its
    first three and one warning. *)
Lemma index_count_witness :
  channels_readable triangle_and_quad
  ∧ Forall (λ f, (3 ≤ length (mIndices f))%nat) (mFaces triangle_and_quad)
  ∧ mMaterials (scene_of triangle_and_quad) !! mMaterialIndex triangle_and_quad
    = Some grey
  ∧ gl_error (gl world0) = GL_NO_ERROR
  ∧ ∃ m w', build triangle_and_quad (scene_of triangle_and_quad) world0 = Done m w'
      ∧ _index_count m = 6
      ∧ _index_count m mod 3 = 0
      ∧ _index_array m = [0; 1; 2; 0; 1; 2]
      ∧ cout w' = ["Face with more than 3 verts: mNumIndices=4" +:+ endl].
Proof.
  assert (channels_readable triangle_and_quad) as Hch.
  { intros i Hi. split.
    - intros Hne. exfalso. apply Hne. reflexivity.
    - intros _. destruct i as [|[|[|[|i]]]]; simpl in Hi; try lia;
        eexists; reflexivity. }
  assert (Forall (λ f, (3 ≤ length (mIndices f))%nat) (mFaces triangle_and_quad))
    as Hfaces by (repeat constructor; simpl; lia).
  assert (mMaterials (scene_of triangle_and_quad) !! mMaterialIndex triangle_and_quad
          = Some grey) as Hmat by reflexivity.
  assert (gl_error (gl world0) = GL_NO_ERROR) as Herr by reflexivity.
  repeat (split; [assumption|]).
  destruct (index_count_is_three_per_face triangle_and_quad (scene_of triangle_and_quad)
              grey world0 Hch Hfaces Hmat Herr)
    as (m & w' & Hbuild & Hcount & Hmod & Hidx & Hcout & _).
  exists m, w'. repeat split; assumption.
Defined.

(** The square as two triangles: the descriptor has six indices, the
    material made for the mesh, and the triangle mode. *)
Lemma drawcall_round_trip_witness :
  channels_readable two_triangles
  ∧ Forall (λ f, length (mIndices f) = 3%nat) (mFaces two_triangles)
  ∧ mMaterials (scene_of two_triangles) !! mMaterialIndex two_triangles = Some grey
  ∧ gl_error (gl world0) = GL_NO_ERROR
  ∧ ∃ m w', build two_triangles (scene_of two_triangles) world0 = Done m w'
      ∧ dc_index_count (ga_mesh.assemble_drawcall m blank_drawcall) = 6
      ∧ dc_material (ga_mesh.assemble_drawcall m blank_drawcall) = _material m
      ∧ heap w' !! _material m
        = Some (OMaterial (ga_lit_material {| x := fone; y := fone; z := fone |} true))
      ∧ dc_draw_mode (ga_mesh.assemble_drawcall m blank_drawcall) = GL_TRIANGLES.
Proof.
  assert (channels_readable two_triangles) as Hch.
  { intros i Hi. split.
    - intros Hne. exfalso. apply Hne. reflexivity.
    - intros _. destruct i as [|[|[|[|i]]]]; simpl in Hi; try lia;
        eexists; reflexivity. }
  assert (Forall (λ f, length (mIndices f) = 3%nat) (mFaces two_triangles))
    as Hfaces by (repeat constructor).
  assert (mMaterials (scene_of two_triangles) !! mMaterialIndex two_triangles
          = Some grey) as Hmat by reflexivity.
  assert (gl_error (gl world0) = GL_NO_ERROR) as Herr by reflexivity.
  repeat (split; [assumption|]).
  destruct (drawcall_round_trip two_triangles (scene_of two_triangles)
              grey world0 Hch Hfaces Hmat Herr)
    as (m & w' & Hbuild & Hcount & Hmat' & Hheap & Hmode & _).
  exists m, w'. repeat split; assumption.
Defined.

(** C10 as stated fails on a line segment: the face has two indices, fewer
    than three, and its slot 1 is read within bounds; only slot 2 is not. *)
Lemma two_index_face_reads_slot_1 :
  mNumIndices segment < 3
  ∧ array_read (mIndices segment) 1 world0 = Done 8 world0
  ∧ array_read (mIndices segment) 2 world0 = Fault.
Proof. repeat split. Qed.

(** A triangle followed by a line segment: the loop is undefined. *)
Lemma index_loading_witness :
  segment ∈ [ {| mIndices := [0; 1; 2] |}; segment ]
  ∧ (length (mIndices segment) < 3)%nat
  ∧ array_read (mIndices segment) 2 world0 = Fault
  ∧ ga_mesh.load_face [] segment world0 = Fault
  ∧ fold_M ga_mesh.load_face [ {| mIndices := [0; 1; 2] |}; segment ] [] world0 = Fault.
Proof.
  assert (segment ∈ [ {| mIndices := [0; 1; 2] |}; segment ]) as Hin
    by (right; left).
  assert (length (mIndices segment) < 3)%nat as Hshort by (simpl; lia).
  destruct (index_loading_needs_three_indices
              [ {| mIndices := [0; 1; 2] |}; segment ] segment [] world0 Hin Hshort)
    as (H2 & _ & Hface & Hloop & _).
  repeat split; assumption.
Defined.

(** No model file can be read: the component is empty, the failure is on
    [std::cout], and two frames leave the world as it is. *)
Lemma failed_import_witness :
  ReadFile (g_root_path +:+ "models/missing.obj") = None
  ∧ entity_ptr ≠ nullptr
  ∧ heap world0 !! entity_ptr = Some (OEntity entity0)
  ∧ ∃ c w', ga_model_component.ctor entity_ptr "models/missing.obj" world0 = Done c w'
      ∧ cout w' = ["error: couldn't load obj" +:+ endl]
      ∧ empty_model c
      ∧ ∃ c', fold_M ga_model_component.update [params_ptr; params_ptr] c w'
              = Done c' w'
            ∧ empty_model c'.
Proof.
  assert (ReadFile (g_root_path +:+ "models/missing.obj") = None) as Hread
    by reflexivity.
  assert (entity_ptr ≠ nullptr) as Hent by (unfold entity_ptr, nullptr; lia).
  assert (heap world0 !! entity_ptr = Some (OEntity entity0)) as He by reflexivity.
  repeat (split; [assumption|]).
  destruct (failed_import_leaves_empty_component entity_ptr "models/missing.obj"
              entity0 world0 Hread Hent He)
    as (c & w' & Hctor & Hw' & _ & Hempty & Hframes).
  exists c, w'. split; [exact Hctor|]. split; [by rewrite Hw'|].
  split; [exact Hempty|]. apply Hframes.
  rewrite Hw'. repeat constructor; try (unfold params_ptr, nullptr; lia);
    by exists params0.
Defined.

End Witnesses.

(* ===================================================================== *)
(** * The further properties on the concrete engine *)
(* ===================================================================== *)

Section MoreWitnesses.
Import Scenario.
#[local] Existing Instance decls.
#[local] Existing Instance runtime.
#[local] Existing Instance model_files.

Lemma square_readable faces : channels_readable (square faces).
Proof.
  intros i Hi. split.
  - intros Hne. exfalso. apply Hne. reflexivity.
  - intros _. destruct i as [|[|[|[|i]]]]; simpl in Hi; try lia;
      eexists; reflexivity.
Qed.

(** A mesh without normals and texture coordinates: the loop reads the
    positions only. *)
Lemma bare_readable mesh :
  mNormals mesh = None → mTextureCoords0 mesh = None → channels_readable mesh.
Proof.
  intros Hn Ht i Hi. unfold vertex_format_of, HasTextureCoords0, HasNormals.
  rewrite Hn, Ht. cbn [bool_decide andb].
  rewrite !bool_decide_eq_false_2 by (by intros [? ?]). cbn [andb].
  split; intros Hne; exfalso; apply Hne;
    destruct (HasVertexColors0 mesh), (HasBones mesh); reflexivity.
Qed.

Lemma script_is_harmless path :
  ∀ c, load_chunk (g_root_path +:+ path) = Loaded c →
       rr_outcome (top_level component_ptr entity_ptr world0 c) ≠ Crashed
       ∧ rr_heap (top_level component_ptr entity_ptr world0 c) !! component_ptr
         = Some (OLuaComponent {| _entity := entity_ptr; _lua := new_state world0 |}).
Proof.
  intros c _. unfold top_level, run_function, runtime, run.
  destruct (c =? chunk_move)%N; [|destruct (c =? chunk_broken)%N;
                                   [|destruct (c =? fn_first)%N]];
    cbn [rr_outcome rr_heap]; (split; [discriminate | apply lookup_insert_eq]).
Qed.

(** The component at address 3 belongs to the entity at address 1. *)
Lemma component_get_entity_witness :
  live 4%N state1 world1
  ∧ heap world1 !! component_ptr
    = Some (OLuaComponent {| _entity := entity_ptr; _lua := 4%N |})
  ∧ component_ptr ≠ nullptr
  ∧ call_value ga_lua_component.code 4%N (LCFunction CF_component_get_entity)
               [LLightUserdata component_ptr] world1
    = Done (Returned [LLightUserdata entity_ptr]) world1.
Proof.
  assert (live 4%N state1 world1) as HL by reflexivity.
  assert (heap world1 !! component_ptr
          = Some (OLuaComponent {| _entity := entity_ptr; _lua := 4%N |})) as Hc
    by reflexivity.
  assert (component_ptr ≠ nullptr) as Hn by (unfold component_ptr, nullptr; lia).
  repeat (split; [assumption|]).
  exact (component_get_entity_returns_owner 4%N state1 world1 component_ptr _ HL Hc Hn).
Defined.

(** Moving the owner of the component at address 3 moves the entity at
    address 1. *)
Lemma translate_reaches_owning_entity_witness :
  live 4%N state1 world1
  ∧ component_ptr ≠ nullptr
  ∧ heap world1 !! component_ptr
    = Some (OLuaComponent {| _entity := entity_ptr; _lua := 4%N |})
  ∧ entity_ptr ≠ nullptr
  ∧ heap world1 !! entity_ptr = Some (OEntity entity0)
  ∧ ∃ v w',
      call_value ga_lua_component.code 4%N (LCFunction CF_component_get_entity)
                 [LLightUserdata component_ptr] world1
      = Done (Returned [v]) world1
      ∧ call_value ga_lua_component.code 4%N (LCFunction CF_entity_translate)
                   [v; LNumber d_one; LNumber d_half; LNumber d_tenth] world1
        = Done (Returned []) w'
      ∧ heap w' !! entity_ptr
        = Some (OEntity (translate entity0 (delta d_one d_half d_tenth)))
      ∧ heap w' !! component_ptr
        = Some (OLuaComponent {| _entity := entity_ptr; _lua := 4%N |})
      ∧ cerr w' = cerr world1.
Proof.
  assert (live 4%N state1 world1) as HL by reflexivity.
  assert (component_ptr ≠ nullptr) as Hn by (unfold component_ptr, nullptr; lia).
  assert (heap world1 !! component_ptr
          = Some (OLuaComponent {| _entity := entity_ptr; _lua := 4%N |})) as Hc
    by reflexivity.
  assert (entity_ptr ≠ nullptr) as Hen by (unfold entity_ptr, nullptr; lia).
  assert (heap world1 !! entity_ptr = Some (OEntity entity0)) as He by reflexivity.
  repeat (split; [assumption|]).
  exact (translate_reaches_owning_entity 4%N state1 world1 component_ptr
           {| _entity := entity_ptr; _lua := 4%N |} entity0 d_one d_half d_tenth
           HL Hn Hc Hen He).
Defined.

(** [frame_params_get_input_left(nil)] dereferences the null pointer. *)
Lemma native_trusts_first_argument_witness :
  live 4%N state1 world1
  ∧ Z.of_nat (length [LNil]) = expected_arguments CF_frame_params_get_input_left
  ∧ ¬ points_to_operand CF_frame_params_get_input_left world1 (userdata_of LNil)
  ∧ call_value ga_lua_component.code 4%N (LCFunction CF_frame_params_get_input_left)
               [LNil] world1
    = Fault.
Proof.
  assert (live 4%N state1 world1) as HL by reflexivity.
  assert (Z.of_nat (length [LNil]) = expected_arguments CF_frame_params_get_input_left)
    as Hlen by reflexivity.
  assert (¬ points_to_operand CF_frame_params_get_input_left world1 (userdata_of LNil))
    as Hbad by (intros [Hnn _]; by apply Hnn).
  repeat (split; [assumption|]).
  exact (native_trusts_first_argument CF_frame_params_get_input_left 4%N state1 world1
           LNil [] HL Hlen Hbad).
Defined.

(** [entity_translate(ent, 1.0, nil, "fast")] moves the entity by
    (1.0, 0, 0). *)
Lemma entity_translate_reads_any_value_witness :
  live 4%N state1 world1
  ∧ heap world1 !! entity_ptr = Some (OEntity entity0)
  ∧ entity_ptr ≠ nullptr
  ∧ call_value ga_lua_component.code 4%N (LCFunction CF_entity_translate)
               [LLightUserdata entity_ptr; LNumber d_one; LNil; LString "fast"] world1
    = Done (Returned [])
           (upd_heap (<[entity_ptr := OEntity (translate entity0
                                                 (delta d_one dzero dzero))]>) world1).
Proof.
  assert (live 4%N state1 world1) as HL by reflexivity.
  assert (heap world1 !! entity_ptr = Some (OEntity entity0)) as Hp by reflexivity.
  assert (entity_ptr ≠ nullptr) as Hn by (unfold entity_ptr, nullptr; lia).
  repeat (split; [assumption|]).
  exact (proj1 (entity_translate_reads_any_value_as_number 4%N state1 world1 entity_ptr
                  entity0 (LNumber d_one) LNil (LString "fast") HL Hp Hn)).
Defined.

(** A component made from the script that binds [update], and destroyed:
    no interpreter state is open afterwards. *)
Lemma ctor_then_dtor_witness :
  component_ptr ≠ nullptr
  ∧ (∀ c, load_chunk (g_root_path +:+ "scripts/move.lua") = Loaded c →
          rr_outcome (top_level component_ptr entity_ptr world0 c) ≠ Crashed
          ∧ rr_heap (top_level component_ptr entity_ptr world0 c) !! component_ptr
            = Some (OLuaComponent {| _entity := entity_ptr;
                                     _lua := new_state world0 |}))
  ∧ ∃ w', (ga_lua_component.ctor component_ptr entity_ptr "scripts/move.lua"
           ;; ga_lua_component.dtor component_ptr) world0
          = Done () w'
        ∧ lua_states w' = ∅.
Proof.
  assert (component_ptr ≠ nullptr) as Hthis by (unfold component_ptr, nullptr; lia).
  pose proof (script_is_harmless "scripts/move.lua") as Hscript.
  split; [exact Hthis|]. split; [exact Hscript|].
  destruct (ctor_then_dtor_closes_the_state component_ptr entity_ptr "scripts/move.lua"
              world0 Hthis Hscript) as (w' & Hrun & _ & Hfresh).
  exists w'. split; [exact Hrun|]. by apply Hfresh.
Defined.

(** The script that binds [update]: after the constructor the four names
    hold the functions of the bridge, and [update] is the script's. *)
Lemma registration_witness :
  load_chunk (g_root_path +:+ "scripts/move.lua") = Loaded chunk_move
  ∧ rr_outcome (top_level component_ptr entity_ptr world0 chunk_move) ≠ Crashed
  ∧ is_function (update_after component_ptr entity_ptr world0 chunk_move) = true
  ∧ ∃ w' s,
      ga_lua_component.ctor component_ptr entity_ptr "scripts/move.lua" world0
      = Done () w'
      ∧ live 4%N s w'
      ∧ globals s !! "entity_translate" = Some (LCFunction CF_entity_translate)
      ∧ globals s !! "component_get_entity" = Some (LCFunction CF_component_get_entity)
      ∧ globals s !! "update" = Some (LFunction fn_first)
      ∧ pcalls w' = [(LFunction chunk_move, [])].
Proof.
  assert (load_chunk (g_root_path +:+ "scripts/move.lua") = Loaded chunk_move) as Hload
    by reflexivity.
  assert (rr_outcome (top_level component_ptr entity_ptr world0 chunk_move) ≠ Crashed)
    as Hrun by discriminate.
  assert (is_function (update_after component_ptr entity_ptr world0 chunk_move) = true)
    as Hf by reflexivity.
  repeat (split; [assumption|]).
  destruct (registration_replaces_script_globals component_ptr entity_ptr
              "scripts/move.lua" world0 chunk_move Hload Hrun Hf)
    as (w' & s & Hctor & HL & _ & _ & Hge & Het & Hother & Hlog).
  exists w', s. split; [exact Hctor|]. split; [exact HL|].
  split; [exact Het|]. split; [exact Hge|]. split; [|exact Hlog].
  rewrite Hother; [reflexivity|]. unfold registered_names.
  rewrite !not_elem_of_cons. repeat split; try discriminate. apply not_elem_of_nil.
Defined.

(** The component of [world2], whose script has unbound [update]: the
    frame stops the process. *)
Lemma update_unbound_witness :
  component_ptr ≠ nullptr
  ∧ 4%N ≠ nullptr
  ∧ heap world2 !! component_ptr
    = Some (OLuaComponent {| _entity := entity_ptr; _lua := 4%N |})
  ∧ live 4%N state2 world2
  ∧ default LNil (globals state2 !! "update") = LNil
  ∧ ∃ w', ga_lua_component.update component_ptr params_ptr world2 = AssertFailed w'
      ∧ cerr w' = ["Error: attempt to call a nil value"]
      ∧ heap w' = heap world2
      ∧ pcalls w' = [(LNil, [LLightUserdata component_ptr; LLightUserdata params_ptr])].
Proof.
  assert (component_ptr ≠ nullptr) as Hthis by (unfold component_ptr, nullptr; lia).
  assert (4%N ≠ nullptr) as HL0 by (unfold nullptr; lia).
  assert (heap world2 !! component_ptr
          = Some (OLuaComponent {| _entity := entity_ptr; _lua := 4%N |})) as Hc
    by reflexivity.
  assert (live 4%N state2 world2) as HL by reflexivity.
  assert (default LNil (globals state2 !! "update") = LNil) as Hu by reflexivity.
  repeat (split; [assumption|]).
  exact (update_unbound_aborts component_ptr entity_ptr 4%N state2 params_ptr world2
           Hthis HL0 Hc HL Hu).
Defined.

(** The script that defines nothing, and a file that is not there: one
    line each. *)
Lemma ctor_diagnostic_witness :
  (∀ c, load_chunk (g_root_path +:+ "scripts/idle.lua") = Loaded c →
        rr_outcome (top_level component_ptr entity_ptr world0 c) ≠ Crashed)
  ∧ (∀ c, load_chunk (g_root_path +:+ "scripts/none.lua") = Loaded c →
          rr_outcome (top_level component_ptr entity_ptr world0 c) ≠ Crashed)
  ∧ (∃ w', ga_lua_component.ctor component_ptr entity_ptr "scripts/idle.lua" world0
           = Done () w'
         ∧ cerr w' = ["Script scripts/idle.lua does not contain 'update' function."
                      +:+ endl]
         ∧ pcalls w' = [(LFunction chunk_idle, [])])
  ∧ (∃ w', ga_lua_component.ctor component_ptr entity_ptr "scripts/none.lua" world0
           = Done () w'
         ∧ cerr w' = ["Failed to load script scripts/none.lua: "
                      +:+ "cannot open data/scripts/none.lua"]
         ∧ pcalls w' = []).
Proof.
  assert (∀ path c, load_chunk (g_root_path +:+ path) = Loaded c →
            rr_outcome (top_level component_ptr entity_ptr world0 c) ≠ Crashed)
    as Hscript by (intros path c Hc; apply (script_is_harmless path c Hc)).
  split; [apply Hscript|]. split; [apply Hscript|]. split.
  - destruct (ctor_writes_one_diagnostic_or_none component_ptr entity_ptr
                "scripts/idle.lua" world0 (Hscript _)) as (w' & Hctor & Hcerr & Hlog).
    exists w'. split; [exact Hctor|]. split; [exact Hcerr | exact Hlog].
  - destruct (ctor_writes_one_diagnostic_or_none component_ptr entity_ptr
                "scripts/none.lua" world0 (Hscript _)) as (w' & Hctor & Hcerr & Hlog).
    exists w'. split; [exact Hctor|]. split; [exact Hcerr | exact Hlog].
Defined.

(** The square: four vertices, each with its position and its normal, no
    texture coordinates, no colour. *)
Lemma vertex_loop_witness :
  channels_readable two_triangles
  ∧ Forall (λ f, (3 ≤ length (mIndices f))%nat) (mFaces two_triangles)
  ∧ mMaterials (scene_of two_triangles) !! mMaterialIndex two_triangles = Some grey
  ∧ ∃ m w', ga_mesh.create_from_aiMesh ga_mesh.ctor two_triangles
              (scene_of two_triangles) world0 = Done m w'
      ∧ length (_vertex_array m) = 4%nat
      ∧ ∃ v, _vertex_array m !! 2%nat = Some v
             ∧ _position v = {| x := fone; y := fone; z := fzero |}
             ∧ _color v = ga_mesh.vec3_zero
             ∧ _uv v = {| uv_x := fzero; uv_y := fzero |}.
Proof.
  pose proof (square_readable (mFaces two_triangles)) as Hch.
  assert (Forall (λ f, (3 ≤ length (mIndices f))%nat) (mFaces two_triangles))
    as Hfaces by (repeat constructor; simpl; lia).
  assert (mMaterials (scene_of two_triangles) !! mMaterialIndex two_triangles
          = Some grey) as Hmat by reflexivity.
  repeat (split; [assumption|]).
  destruct (vertex_loop_copies_the_mesh two_triangles (scene_of two_triangles) grey
              world0 Hch Hfaces Hmat) as (m & w' & Hrun & Hlen & _ & Hv).
  exists m, w'. split; [exact Hrun|]. split; [exact Hlen|].
  destruct (Hv 2%nat) as (v & Hlook & (p & Hp & Hpos) & Hcol & _ & Huv);
    [simpl; lia|].
  exists v. split; [exact Hlook|]. split.
  { rewrite Hpos. injection Hp as <-. reflexivity. }
  split; [exact Hcol | exact Huv].
Defined.

(** The coloured triangle: attribute 2 is enabled for its vertex array,
    and its vertices have no colour. *)
Lemma vertex_colours_witness :
  channels_readable coloured
  ∧ Forall (λ f, (3 ≤ length (mIndices f))%nat) (mFaces coloured)
  ∧ mMaterials (scene_of coloured) !! mMaterialIndex coloured = Some grey
  ∧ gl_error (gl world0) = GL_NO_ERROR
  ∧ HasVertexColors0 coloured = true
  ∧ k_vertex_attribute_color ≠ 0
  ∧ ∃ m w', build coloured (scene_of coloured) world0 = Done m w'
      ∧ (_vao m, 2) ∈ gl_enabled_attribs (gl w')
      ∧ (_vao m, 2, 3, sizeof_ga_vertex, 24) ∈ gl_attrib_pointers (gl w')
      ∧ Forall (λ v, _color v = ga_mesh.vec3_zero) (_vertex_array m).
Proof.
  assert (channels_readable coloured) as Hch by (by apply bare_readable).
  assert (Forall (λ f, (3 ≤ length (mIndices f))%nat) (mFaces coloured))
    as Hfaces by (repeat constructor; simpl; lia).
  assert (mMaterials (scene_of coloured) !! mMaterialIndex coloured = Some grey)
    as Hmat by reflexivity.
  assert (gl_error (gl world0) = GL_NO_ERROR) as Herr by reflexivity.
  assert (HasVertexColors0 coloured = true) as Hcol by reflexivity.
  assert (k_vertex_attribute_color ≠ 0) as Hk by discriminate.
  repeat (split; [assumption|]).
  exact (vertex_colours_are_declared_but_not_loaded coloured (scene_of coloured) grey
           world0 Hch Hfaces Hmat Herr Hcol Hk).
Defined.


(** In a context that carries an error, [make_buffers] stops at its
    assertion. *)
Lemma make_buffers_pending_error_witness :
  gl_error (gl world_stale) ≠ GL_NO_ERROR
  ∧ ∃ w', ga_mesh.make_buffers ga_mesh.ctor world_stale = AssertFailed w'
      ∧ gl_last_name (gl w') = 3
      ∧ gl_error (gl w') = GL_NO_ERROR.
Proof.
  assert (gl_error (gl world_stale) ≠ GL_NO_ERROR) as Herr by discriminate.
  split; [exact Herr|].
  destruct (make_buffers_stops_on_pending_error ga_mesh.ctor world_stale Herr)
    as (w' & Hrun & Hlast & _ & Hflag & _).
  exists w'. split; [exact Hrun|]. split; [exact Hlast | exact Hflag].
Defined.

(** The two squares loaded into one mesh object: eight vertices, twelve
    indices, all of them below 4. *)
Lemma create_twice_witness :
  channels_readable two_triangles
  ∧ channels_readable triangle_and_quad
  ∧ Forall (λ f, (3 ≤ length (mIndices f))%nat) (mFaces two_triangles)
  ∧ Forall (λ f, (3 ≤ length (mIndices f))%nat) (mFaces triangle_and_quad)
  ∧ mMaterials (scene_of two_triangles) !! mMaterialIndex two_triangles = Some grey
  ∧ mMaterials (scene_of two_triangles) !! mMaterialIndex triangle_and_quad = Some grey
  ∧ ∃ m w',
      (m1 ← ga_mesh.create_from_aiMesh ga_mesh.ctor two_triangles
              (scene_of two_triangles);
       ga_mesh.create_from_aiMesh m1 triangle_and_quad (scene_of two_triangles)) world0
      = Done m w'
      ∧ length (_vertex_array m) = 8%nat
      ∧ _index_array m = [0; 1; 2; 0; 2; 3; 0; 1; 2; 0; 1; 2].
Proof.
  pose proof (square_readable (mFaces two_triangles)) as Hch1.
  pose proof (square_readable (mFaces triangle_and_quad)) as Hch2.
  assert (Forall (λ f, (3 ≤ length (mIndices f))%nat) (mFaces two_triangles))
    as Hf1 by (repeat constructor; simpl; lia).
  assert (Forall (λ f, (3 ≤ length (mIndices f))%nat) (mFaces triangle_and_quad))
    as Hf2 by (repeat constructor; simpl; lia).
  assert (mMaterials (scene_of two_triangles) !! mMaterialIndex two_triangles
          = Some grey) as Hm1 by reflexivity.
  assert (mMaterials (scene_of two_triangles) !! mMaterialIndex triangle_and_quad
          = Some grey) as Hm2 by reflexivity.
  repeat (split; [assumption|]).
  destruct (create_from_aiMesh_twice_appends two_triangles triangle_and_quad
              (scene_of two_triangles) grey grey world0 Hch1 Hch2 Hf1 Hf2 Hm1 Hm2)
    as (m & w' & Hrun & Hlen & Hidx & _).
  exists m, w'. split; [exact Hrun|]. split; [exact Hlen | exact Hidx].
Defined.

(** A mesh that names material 5 in a scene of one material. *)
Lemma material_index_witness :
  channels_readable stray
  ∧ Forall (λ f, (3 ≤ length (mIndices f))%nat) (mFaces stray)
  ∧ (length (mMaterials (scene_of stray)) ≤ mMaterialIndex stray)%nat
  ∧ ga_mesh.create_from_aiMesh ga_mesh.ctor stray (scene_of stray) world0 = Fault.
Proof.
  assert (channels_readable stray) as Hch by (by apply bare_readable).
  assert (Forall (λ f, (3 ≤ length (mIndices f))%nat) (mFaces stray))
    as Hfaces by (repeat constructor; simpl; lia).
  assert (length (mMaterials (scene_of stray)) ≤ mMaterialIndex stray)%nat
    as Hidx by (simpl; lia).
  repeat (split; [assumption|]).
  exact (proj2 (material_index_is_not_checked ga_mesh.ctor stray (scene_of stray)
                  world0 Hch Hfaces Hidx)).
Defined.


(** The tree of the car, for a component whose meshes are at addresses 5
    and 7: three nodes; the wheel has both meshes, and its matrix is the
    transposed one. *)
Lemma process_node_witness :
  indices_below (length [5%N; 7%N]) tree = true
  ∧ ∃ root,
      ga_model_component.process_node_recursive [5%N; 7%N] tree ga_node.ctor world0
      = Done root world0
      ∧ node_count root = 3%nat
      ∧ meshes_in root = [5%N; 7%N; 5%N]
      ∧ (∃ wheel, node_children root !! 0%nat = Some wheel
                  ∧ node_name wheel = "wheel"
                  ∧ mat_get (node_transform wheel) 3%fin 0%fin = fone
                  ∧ mat_get (node_transform wheel) 0%fin 3%fin = fzero).
Proof.
  assert (indices_below (length [5%N; 7%N]) tree = true) as Hok by reflexivity.
  split; [exact Hok|].
  destruct (process_node_recursive_mirrors_the_tree [5%N; 7%N] tree world0 Hok)
    as (root & Hrun & -> & Hcount & _).
  eexists. split; [exact Hrun|]. split; [exact Hcount|]. split; [reflexivity|].
  eexists. split; [reflexivity|]. by repeat split.
Defined.

(** A tree that names mesh 2 of a component with two meshes. *)
Lemma process_node_astray_witness :
  indices_below (length [5%N; 7%N]) tree_astray = false
  ∧ ga_model_component.process_node_recursive [5%N; 7%N] tree_astray ga_node.ctor world0
    = Fault.
Proof.
  assert (indices_below (length [5%N; 7%N]) tree_astray = false) as Hbad by reflexivity.
  split; [exact Hbad|].
  exact (process_node_recursive_trusts_mesh_indices [5%N; 7%N] tree_astray world0 Hbad).
Defined.

Lemma car_buildable : Forall (buildable car) (mMeshes car).
Proof.
  assert (∀ faces, Forall (λ f, (3 ≤ length (mIndices f))%nat) faces →
            buildable car (square faces)) as Hsquare.
  { intros faces Hfaces. split; [apply square_readable|]. split; [exact Hfaces|].
    by eexists. }
  unfold car, mMeshes, two_triangles, triangle_and_quad.
  constructor; [apply Hsquare; repeat constructor; simpl; lia|].
  constructor; [apply Hsquare; repeat constructor; simpl; lia|].
  constructor.
Qed.

(** The car: two meshes at two addresses, six indices each, one warning
    for the quad, and the tree of the scene mirrored. *)
Lemma ctor_builds_every_mesh_witness :
  ReadFile (g_root_path +:+ "models/car.obj") = Some car
  ∧ Forall (buildable car) (mMeshes car)
  ∧ indices_below (length (mMeshes car)) (mRootNode car) = true
  ∧ gl_error (gl world0) = GL_NO_ERROR
  ∧ ∃ c w', ga_model_component.ctor entity_ptr "models/car.obj" world0 = Done c w'
      ∧ length (_meshes c) = 2%nat
      ∧ NoDup (_meshes c)
      ∧ (∃ p, _meshes c !! 1%nat = Some p
              ∧ built_from car triangle_and_quad (heap w') p)
      ∧ node_count (_root c) = 3%nat
      ∧ cout w' = ["number of meshes: 2" +:+ endl;
                   "Face with more than 3 verts: mNumIndices=4" +:+ endl]
      ∧ heap w' !! entity_ptr = Some (OEntity entity0).
Proof.
  assert (ReadFile (g_root_path +:+ "models/car.obj") = Some car) as Hread
    by reflexivity.
  pose proof car_buildable as Hall.
  assert (indices_below (length (mMeshes car)) (mRootNode car) = true) as Hidx
    by reflexivity.
  assert (gl_error (gl world0) = GL_NO_ERROR) as Herr by reflexivity.
  repeat (split; [assumption|]).
  destruct (ctor_builds_every_mesh_of_the_scene entity_ptr "models/car.obj" car world0
              Hread Hall Hidx Herr)
    as (c & w' & Hctor & _ & _ & Hlen & Hnd & Hbuilt & Hroot & Hcout & Hheap).
  exists c, w'. split; [exact Hctor|]. split; [exact Hlen|]. split; [exact Hnd|].
  split; [by apply (Hbuilt 1%nat)|]. split.
  { rewrite Hroot. apply node_count_node_of. }
  split; [exact Hcout|]. rewrite Hheap; [reflexivity|]. unfold entity_ptr. simpl. lia.
Defined.

(** A new mesh, its buffers made and then deleted in [world0]: buffers 2
    and 3 have no storage, and nothing is enabled. *)
Lemma dtor_releases_witness :
  gl_error (gl world0) = GL_NO_ERROR
  ∧ ∃ m w1 w2,
      ga_mesh.make_buffers ga_mesh.ctor world0 = Done m w1
      ∧ ga_mesh.dtor m w1 = Done () w2
      ∧ gl_buffer_size (gl w2) !! fst (_vbo m) = None
      ∧ gl_buffer_size (gl w2) !! snd (_vbo m) = None
      ∧ heap w2 = heap world0.
Proof.
  assert (gl_error (gl world0) = GL_NO_ERROR) as Herr by reflexivity.
  split; [exact Herr|].
  destruct (dtor_releases_the_buffers ga_mesh.ctor world0 Herr)
    as (m & w1 & w2 & Hmake & Hdtor & Hb0 & Hb1 & _ & _ & Hheap).
  exists m, w1, w2. by repeat split.
Defined.


End MoreWitnesses.
